(** * ANPM Oracle: the message protocol layer and the polling loop

    A shallow embedding of the TypeScript sources of the oracle node:

    - [AOProcess]  : the helper class of [utils/AOProcess.ts] (tag codec,
                     result decoder, [execute] with its two modes);
    - [Hb]         : [utils/hb.ts] ([extractMessage], [handleApusMessage]);
    - [Request]    : [utils/request.ts] ([hasPendingTask], [receiveTask],
                     [sendTaskResponse]);
    - [Index]      : the polling loop of [src/index.ts], which goes through
                     [Request];
    - [AOIndex]    : the polling loop written against the [AOProcess] class
                     ([dryRun] / [sendMessage]);
    - [HbRequest]  : the request that [requestHB] of [utils/hb.ts] builds;
    - [HbResponse] : what [requestHB] makes of the response;
    - [NodeId]     : the node id of [src/index.ts] ([generateNodeId],
                     [saveNodeIdToEnv]).

    JavaScript values are a first-order data type; promises are run to
    completion, so an [await] is a monadic bind; the outside world (the AO
    network, the HyperBEAM HTTP endpoint) is a script of replies consumed in
    order, and everything the program does to the outside is appended to a
    trace. *)

From stdpp Require Import gmap strings list pretty.
From Stdlib Require Import ZArith Ascii String Lia.

Open Scope Z_scope.

(* ===================================================================== *)
(** ** JavaScript values *)
(* ===================================================================== *)

(** A finite Number is kept as the exact decimal [mant * 10^exp10]; the
    rounding to binary64, NaN and the infinities are not represented. *)
Record JSNumber := MkNum { mant : Z; exp10 : Z }.

(** Data values.  [JCycle n] is a reference back to the [n]-th enclosing
    array or object (0 is the innermost one): it is how a finite structure
    that contains itself is written as a tree.  Functions and symbols are not
    represented, so no property of an object is ever callable. *)
#[warnings="-register-all"]
Inductive JSValue :=
| JUndefined
| JNull
| JBool (b : bool)
| JNum (n : JSNumber)
| JStr (s : string)
| JBigInt (z : Z)
| JArr (elems : list JSValue)
| JObj (props : list (string * JSValue))
| JCycle (up : nat).

Definition JInt (z : Z) : JSValue := JNum (MkNum z 0).

(** Structural induction through the lists under [JArr] and [JObj]. *)
Section JSValue_induction.
Variable P : JSValue → Prop.
Hypothesis Hundefined : P JUndefined.
Hypothesis Hnull : P JNull.
Hypothesis Hbool : ∀ b, P (JBool b).
Hypothesis Hnum : ∀ n, P (JNum n).
Hypothesis Hstr : ∀ s, P (JStr s).
Hypothesis Hbigint : ∀ z, P (JBigInt z).
Hypothesis Harr : ∀ es, Forall P es → P (JArr es).
Hypothesis Hobj : ∀ ps, Forall (fun kv => P kv.2) ps → P (JObj ps).
Hypothesis Hcycle : ∀ n, P (JCycle n).

Fixpoint JSValue_nested_ind (v : JSValue) : P v :=
  match v with
  | JUndefined => Hundefined
  | JNull => Hnull
  | JBool b => Hbool b
  | JNum n => Hnum n
  | JStr s => Hstr s
  | JBigInt z => Hbigint z
  | JArr es =>
      Harr es ((fix all (l : list JSValue) : Forall P l :=
                  match l with
                  | [] => @List.Forall_nil _ _
                  | x :: r => @List.Forall_cons _ _ x r (JSValue_nested_ind x) (all r)
                  end) es)
  | JObj ps =>
      Hobj ps ((fix all (l : list (string * JSValue)) : Forall (fun kv => P kv.2) l :=
                  match l with
                  | [] => @List.Forall_nil _ _
                  | kv :: r => @List.Forall_cons _ _ kv r (JSValue_nested_ind kv.2) (all r)
                  end) ps)
  | JCycle n => Hcycle n
  end.
End JSValue_induction.

(** Thrown values: every [throw] of the sources throws an [Error] object, the
    run time adds [TypeError] and [SyntaxError]. *)
Inductive ErrorName := GenericError | TypeError | SyntaxError.

Record JSError := MkError { err_name : ErrorName; err_message : string }.

(** How the evaluation of an expression ends: with a value or with a thrown
    error. *)
Inductive Completion (A : Type) :=
| Normal (a : A)
| Throw (e : JSError).
Arguments Normal {A} a.
Arguments Throw {A} e.

#[global] Instance Completion_ret : MRet Completion := fun _ a => Normal a.
#[global] Instance Completion_bind : MBind Completion := fun _ _ f c =>
  match c with
  | Normal a => f a
  | Throw e => Throw e
  end.

Definition throws {A} (c : Completion A) : Prop := ∃ e, c = Throw e.
Definition returns {A} (c : Completion A) : Prop := ∃ a, c = Normal a.

(** [try { c } catch { h }] *)
Definition try_catch {A} (c : Completion A) (h : JSError → Completion A) : Completion A :=
  match c with
  | Throw e => h e
  | Normal a => Normal a
  end.

Definition dq : ascii := "034"%char.
Definition quoted (s : string) : string := String dq (s +:+ String dq "").

(** *** Numbers *)

Fixpoint strip_zeros (fuel : nat) (lowest : bool) (m e : Z) : Z * Z :=
  match fuel with
  | O => (m, e)
  | S fuel' =>
      if m =? 0 then (0, 0)
      else if (m mod 10 =? 0) && (lowest || (e <? 0))
      then strip_zeros fuel' lowest (m / 10) (e + 1)
      else (m, e)
  end.

Definition digits_bound (m : Z) : nat := S (Z.to_nat (Z.log2 (Z.abs m))).

(** Lowest terms: the mantissa of a non-zero number does not end in 0. *)
Definition lowest_terms (n : JSNumber) : JSNumber :=
  let (m, e) := strip_zeros (digits_bound (mant n)) true (mant n) (exp10 n) in
  MkNum m e.

(** The form numbers are kept in: an integer is [MkNum z 0], any other
    number has a negative exponent and is in lowest terms. *)
Definition canonical (n : JSNumber) : JSNumber :=
  if 0 <=? exp10 n then MkNum (mant n * 10 ^ exp10 n) 0
  else let (m, e) := strip_zeros (digits_bound (mant n)) false (mant n) (exp10 n) in
       MkNum m e.

Definition is_zero (n : JSNumber) : bool := mant n =? 0.

Fixpoint zeros (k : nat) : string :=
  match k with O => "" | S k' => String "0" (zeros k') end.

(** [Number.prototype.toString] (radix 10) on the exact decimal value. *)
Definition Number_toString (x : JSNumber) : string :=
  let x' := lowest_terms x in
  let m := mant x' in
  if m =? 0 then "0" else
  let sign := if m <? 0 then "-" else "" in
  let ds := pretty (Z.abs m) in
  let k := Z.of_nat (String.length ds) in
  let n := k + exp10 x' in
  sign +:+
  (if (k <=? n) && (n <=? 21) then ds +:+ zeros (Z.to_nat (n - k))
   else if (0 <? n) && (n <=? 21) then
     substring 0 (Z.to_nat n) ds +:+ "." +:+ substring (Z.to_nat n) (Z.to_nat (k - n)) ds
   else if (-6 <? n) && (n <=? 0) then "0." +:+ zeros (Z.to_nat (- n)) +:+ ds
   else
     let e := n - 1 in
     let es := (if e <? 0 then "-" else "+") +:+ pretty (Z.abs e) in
     if k =? 1 then ds +:+ "e" +:+ es
     else substring 0 1 ds +:+ "." +:+ substring 1 (Z.to_nat (k - 1)) ds +:+ "e" +:+ es).

(** *** Truthiness, [typeof], own properties *)

Definition truthy (v : JSValue) : bool :=
  match v with
  | JUndefined | JNull => false
  | JBool b => b
  | JNum n => negb (is_zero n)
  | JStr s => negb (String.eqb s "")
  | JBigInt z => negb (z =? 0)
  | JArr _ | JObj _ | JCycle _ => true
  end.

Definition is_string (v : JSValue) : bool :=
  match v with JStr _ => true | _ => false end.
Definition is_number (v : JSValue) : bool :=
  match v with JNum _ => true | _ => false end.
Definition is_primitive (v : JSValue) : bool :=
  match v with JArr _ | JObj _ | JCycle _ => false | _ => true end.

Fixpoint own {A} (ps : list (string * A)) (k : string) : option A :=
  match ps with
  | [] => None
  | (k', v) :: rest => if String.eqb k' k then Some v else own rest k
  end.

Definition has_own {A} (ps : list (string * A)) (k : string) : bool :=
  match own ps k with Some _ => true | None => false end.

(** [o[k] = v] on the entry list of an object: an existing key keeps its
    place. *)
Fixpoint set_own {A} (ps : list (string * A)) (k : string) (v : A) : list (string * A) :=
  match ps with
  | [] => [(k, v)]
  | (k', v') :: rest =>
      if String.eqb k' k then (k', v) :: rest else (k', v') :: set_own rest k v
  end.

(** *** [String(v)] *)

Definition cannot_convert : JSError :=
  MkError TypeError "Cannot convert object to primitive value".

Section Join.
Variable element : JSValue → Completion string.

(** [Array.prototype.join] with the separator [","] *)
Fixpoint join (l : list JSValue) : Completion string :=
  match l with
  | [] => Normal ""
  | x :: rest =>
      let elt := match x with
                 | JUndefined | JNull => Normal ""
                 | _ => element x
                 end in
      match rest with
      | [] => elt
      | _ => s ← elt; r ← join rest; Normal (s +:+ "," +:+ r)
      end
  end.
End Join.

(** The conversion of an object asks it for [toString], then for [valueOf].
    A plain object inherits both; the inherited [toString] answers
    ["[object Object]"].  An own property [toString] hides the inherited
    method and, being data, cannot be called; the inherited (or an own)
    [valueOf] does not yield a primitive either, and the conversion throws.
    An array is joined: [undefined] and [null] give the empty string, as does
    an array met again while it is being joined. *)
Fixpoint String_ (v : JSValue) : Completion string :=
  match v with
  | JUndefined => Normal "undefined"
  | JNull => Normal "null"
  | JBool b => Normal (if b then "true" else "false")
  | JNum n => Normal (Number_toString n)
  | JStr s => Normal s
  | JBigInt z => Normal (pretty z)
  | JObj ps => if has_own ps "toString" then Throw cannot_convert
               else Normal "[object Object]"
  | JCycle _ => Normal ""
  | JArr es => join String_ es
  end.

(** *** [JSON.stringify(v)] *)

Definition hex_digit (n : N) : ascii :=
  match n with
  | 0 => "0" | 1 => "1" | 2 => "2" | 3 => "3" | 4 => "4" | 5 => "5" | 6 => "6"
  | 7 => "7" | 8 => "8" | 9 => "9" | 10 => "a" | 11 => "b" | 12 => "c"
  | 13 => "d" | 14 => "e" | _ => "f"
  end%N%char.

Definition escape_char (c : ascii) : string :=
  let n := N_of_ascii c in
  if (n =? 34)%N then String "\" (String dq "")
  else if (n =? 92)%N then "\\"
  else if (n =? 8)%N then "\b"
  else if (n =? 12)%N then "\f"
  else if (n =? 10)%N then "\n"
  else if (n =? 13)%N then "\r"
  else if (n =? 9)%N then "\t"
  else if (n <? 32)%N then
    "\u00" +:+ String (hex_digit (n / 16)) (String (hex_digit (n mod 16)) "")
  else String c "".

Fixpoint escape (s : string) : string :=
  match s with
  | EmptyString => ""
  | String c rest => escape_char c +:+ escape rest
  end.

Definition QuoteJSONString (s : string) : string := quoted (escape s).

Definition circular : JSError :=
  MkError TypeError "Converting circular structure to JSON".
Definition bigint_not_serializable : JSError :=
  MkError TypeError "Do not know how to serialize a BigInt".

Definition comma_join (parts : list string) : string :=
  match parts with
  | [] => ""
  | p :: ps => fold_left (fun acc s => acc +:+ "," +:+ s) ps p
  end.

(** The result is [None] where [JSON.stringify] returns [undefined].  A value
    met again below itself and a BigInt make it throw.  [undefined] is written
    [null] inside an array and its property is left out of an object. *)
Fixpoint JSON_stringify (v : JSValue) : Completion (option string) :=
  match v with
  | JUndefined => Normal None
  | JNull => Normal (Some "null")
  | JBool b => Normal (Some (if b then "true" else "false"))
  | JNum n => Normal (Some (Number_toString n))
  | JStr s => Normal (Some (QuoteJSONString s))
  | JBigInt _ => Throw bigint_not_serializable
  | JCycle _ => Throw circular
  | JArr es =>
      parts ← (fix elems (l : list JSValue) : Completion (list string) :=
                 match l with
                 | [] => Normal []
                 | x :: rest =>
                     s ← JSON_stringify x;
                     r ← elems rest;
                     Normal (default "null" s :: r)
                 end) es;
      Normal (Some ("[" +:+ comma_join parts +:+ "]"))
  | JObj ps =>
      parts ← (fix members (l : list (string * JSValue)) : Completion (list string) :=
                 match l with
                 | [] => Normal []
                 | (k, x) :: rest =>
                     s ← JSON_stringify x;
                     r ← members rest;
                     Normal (match s with
                             | Some t => (QuoteJSONString k +:+ ":" +:+ t) :: r
                             | None => r
                             end)
                 end) ps;
      Normal (Some ("{" +:+ comma_join parts +:+ "}"))
  end.

(** *** [JSON.parse(text)] *)

Definition is_ws (c : ascii) : bool :=
  let n := N_of_ascii c in ((n =? 32) || (n =? 9) || (n =? 10) || (n =? 13))%N.

Fixpoint skip_ws (s : string) : string :=
  match s with
  | String c rest => if is_ws c then skip_ws rest else s
  | EmptyString => s
  end.

Definition digit_val (c : ascii) : option Z :=
  let n := N_of_ascii c in
  if ((48 <=? n) && (n <=? 57))%N then Some (Z.of_N n - 48) else None.

Definition hex_val (c : ascii) : option N :=
  let n := N_of_ascii c in
  if ((48 <=? n) && (n <=? 57))%N then Some (n - 48)%N
  else if ((97 <=? n) && (n <=? 102))%N then Some (n - 87)%N
  else if ((65 <=? n) && (n <=? 70))%N then Some (n - 55)%N
  else None.

(** The digits at the head of [s]: their value as a numeral continuing
    [acc], how many there are, and what follows them. *)
Fixpoint digits (s : string) (acc : Z) (count : Z) : Z * Z * string :=
  match s with
  | String c rest =>
      match digit_val c with
      | Some d => digits rest (10 * acc + d) (count + 1)
      | None => (acc, count, s)
      end
  | EmptyString => (acc, count, s)
  end.

(** A string is held as its UTF-8 bytes; a [\u] escape contributes the bytes
    of its code unit. *)
Definition utf8 (n : N) : string :=
  let b (k : N) := ascii_of_N k in
  (if n <? 128 then String (b n) ""
   else if n <? 2048 then String (b (192 + n / 64)) (String (b (128 + n mod 64)) "")
   else String (b (224 + n / 4096))
          (String (b (128 + (n / 64) mod 64)) (String (b (128 + n mod 64)) "")))%N.

Definition hex4 (a b c d : ascii) : option N :=
  a' ← hex_val a; b' ← hex_val b; c' ← hex_val c; d' ← hex_val d;
  Some (((a' * 16 + b') * 16 + c') * 16 + d')%N.

(** The characters of a string literal after its opening quote. *)
Fixpoint string_body (s : string) (acc : string) : option (string * string) :=
  match s with
  | EmptyString => None
  | String c rest =>
      if Ascii.eqb c dq then Some (acc, rest)
      else if Ascii.eqb c "\" then
        match rest with
        | String e rest' =>
            let simple (x : ascii) := string_body rest' (acc +:+ String x "") in
            if Ascii.eqb e dq then simple dq
            else if Ascii.eqb e "\" then simple "\"%char
            else if Ascii.eqb e "/" then simple "/"%char
            else if Ascii.eqb e "b" then simple "008"%char
            else if Ascii.eqb e "f" then simple "012"%char
            else if Ascii.eqb e "n" then simple "010"%char
            else if Ascii.eqb e "r" then simple "013"%char
            else if Ascii.eqb e "t" then simple "009"%char
            else if Ascii.eqb e "u" then
              match rest' with
              | String h1 (String h2 (String h3 (String h4 rest''))) =>
                  match hex4 h1 h2 h3 h4 with
                  | Some n => string_body rest'' (acc +:+ utf8 n)
                  | None => None
                  end
              | _ => None
              end
            else None
        | EmptyString => None
        end
      else if (N_of_ascii c <? 32)%N then None
      else string_body rest (acc +:+ String c "")
  end.

(** An optional exponent part after a mantissa [m] with [nfrac] fraction
    digits. *)
Definition exponent (m nfrac : Z) (s : string) : option (JSNumber * string) :=
  match s with
  | String c r =>
      if Ascii.eqb c "e" || Ascii.eqb c "E" then
        let '(sg, r1) := match r with
                         | String "-" r' => (-1, r')
                         | String "+" r' => (1, r')
                         | _ => (1, r)
                         end in
        let '(v, n, r2) := digits r1 0 0 in
        if n =? 0 then None else Some (canonical (MkNum m (sg * v - nfrac)), r2)
      else Some (canonical (MkNum m (- nfrac)), s)
  | EmptyString => Some (canonical (MkNum m (- nfrac)), s)
  end.

Definition negate (n : JSNumber) : JSNumber := MkNum (- mant n) (exp10 n).

(** [-? int frac? exp?] with [int] either [0] or a numeral without leading
    zero. *)
Definition number (s : string) : option (JSNumber * string) :=
  let '(neg, s1) := match s with
                    | String "-" r => (true, r)
                    | _ => (false, s)
                    end in
  '(iv, s2) ← match s1 with
              | String "0" r => Some (0, r)
              | _ => let '(v, n, r) := digits s1 0 0 in
                     if n =? 0 then None else Some (v, r)
              end;
  '(m, nfrac, s3) ← match s2 with
                    | String "." r =>
                        let '(v, n, r') := digits r iv 0 in
                        if n =? 0 then None else Some (v, n, r')
                    | _ => Some (iv, 0, s2)
                    end;
  '(x, s4) ← exponent m nfrac s3;
  Some (if neg then negate x else x, s4).

Fixpoint strip_prefix (word s : string) : option string :=
  match word, s with
  | EmptyString, _ => Some s
  | String a word', String b s' => if Ascii.eqb a b then strip_prefix word' s' else None
  | String _ _, EmptyString => None
  end.

Definition expect (word : string) (v : JSValue) (s : string) : option (JSValue * string) :=
  r ← strip_prefix word s; Some (v, r).

(** Property keys that are array indices are enumerated first, in numeric
    order; the other keys follow in creation order. *)
Definition array_index (k : string) : option Z :=
  let '(v, n, r) := digits k 0 0 in
  if String.eqb r "" && (0 <? n) && String.eqb (pretty v) k && (v <? 4294967295)
  then Some v else None.

Fixpoint insert_sorted (ps : list (string * JSValue)) (i : Z) (k : string) (v : JSValue)
  : list (string * JSValue) :=
  match ps with
  | [] => [(k, v)]
  | (k', v') :: rest =>
      match array_index k' with
      | Some i' => if i <? i' then (k, v) :: ps else (k', v') :: insert_sorted rest i k v
      | None => (k, v) :: ps
      end
  end.

Definition define_own (ps : list (string * JSValue)) (k : string) (v : JSValue)
  : list (string * JSValue) :=
  if has_own ps k then set_own ps k v
  else match array_index k with
       | Some i => insert_sorted ps i k v
       | None => ps ++ [(k, v)]
       end.

(** One JSON value at the head of [s] and the text after it.  [fuel] bounds
    the nesting and the number of elements; [JSON_parse_text] supplies twice
    the length of the text, which no text exhausts. *)
Fixpoint parse_value (fuel : nat) (s : string) : option (JSValue * string) :=
  match fuel with
  | O => None
  | S fuel' =>
      match skip_ws s with
      | EmptyString => None
      | String c rest as s' =>
          if Ascii.eqb c "n" then expect "null" JNull s'
          else if Ascii.eqb c "t" then expect "true" (JBool true) s'
          else if Ascii.eqb c "f" then expect "false" (JBool false) s'
          else if Ascii.eqb c dq then
            '(str, r) ← string_body rest ""; Some (JStr str, r)
          else if Ascii.eqb c "[" then
            match skip_ws rest with
            | String "]" r => Some (JArr [], r)
            | r => parse_elements fuel' r []
            end
          else if Ascii.eqb c "{" then
            match skip_ws rest with
            | String "}" r => Some (JObj [], r)
            | r => parse_members fuel' r []
            end
          else '(n, r) ← number s'; Some (JNum n, r)
      end
  end
with parse_elements (fuel : nat) (s : string) (acc : list JSValue) : option (JSValue * string) :=
  match fuel with
  | O => None
  | S fuel' =>
      '(v, r) ← parse_value fuel' s;
      match skip_ws r with
      | String "," r' => parse_elements fuel' r' (acc ++ [v])
      | String "]" r' => Some (JArr (acc ++ [v]), r')
      | _ => None
      end
  end
with parse_members (fuel : nat) (s : string) (acc : list (string * JSValue))
  : option (JSValue * string) :=
  match fuel with
  | O => None
  | S fuel' =>
      match skip_ws s with
      | String c rest =>
          if Ascii.eqb c dq then
            '(k, r) ← string_body rest "";
            match skip_ws r with
            | String ":" r1 =>
                '(v, r2) ← parse_value fuel' r1;
                match skip_ws r2 with
                | String "," r3 => parse_members fuel' r3 (define_own acc k v)
                | String "}" r3 => Some (JObj (define_own acc k v), r3)
                | _ => None
                end
            | _ => None
            end
          else None
      | EmptyString => None
      end
  end.

Definition syntax_error : JSError := MkError SyntaxError "Unexpected token in JSON".

Definition JSON_parse_text (s : string) : Completion JSValue :=
  match parse_value (2 * String.length s + 2) s with
  | Some (v, rest) =>
      match skip_ws rest with
      | EmptyString => Normal v
      | _ => Throw syntax_error
      end
  | None => Throw syntax_error
  end.

(** [JSON.parse(v)]: the argument is converted to a string first. *)
Definition JSON_parse (v : JSValue) : Completion JSValue :=
  s ← String_ v; JSON_parse_text s.

(** *** [Number(v)] *)

Inductive JSNumeric := Finite (n : JSNumber) | PlusInfinity | MinusInfinity | NaN.

Definition is_space (c : ascii) : bool :=
  let n := N_of_ascii c in ((n =? 32) || ((9 <=? n) && (n <=? 13)))%N.

Fixpoint trim_left (s : string) : string :=
  match s with
  | String c rest => if is_space c then trim_left rest else s
  | EmptyString => s
  end.

Definition trim (s : string) : string :=
  String.rev (trim_left (String.rev (trim_left s))).

(** Digits in base [base] at the head of [s]. *)
Fixpoint radix_digits (base : N) (s : string) (acc : Z) (count : Z) : Z * Z * string :=
  match s with
  | String c rest =>
      match hex_val c with
      | Some d => if (d <? base)%N
                  then radix_digits base rest (Z.of_N base * acc + Z.of_N d) (count + 1)
                  else (acc, count, s)
      | None => (acc, count, s)
      end
  | EmptyString => (acc, count, s)
  end.

(** [digits . digits? exp?], [. digits exp?] or [digits exp?] *)
Definition unsigned_decimal (s : string) : option (JSNumber * string) :=
  let '(iv, ni, r) := digits s 0 0 in
  match r with
  | String "." r1 =>
      let '(v, nf, r2) := digits r1 iv 0 in
      if (ni =? 0) && (nf =? 0) then None else exponent v nf r2
  | _ => if ni =? 0 then None else exponent iv 0 r
  end.

Definition whole {A} (r : option (A * string)) : option A :=
  '(a, rest) ← r; if String.eqb rest "" then Some a else None.

Definition StringToNumber (s : string) : JSNumeric :=
  let t := trim s in
  let radix (base : N) (r : string) :=
    let '(v, n, rest) := radix_digits base r 0 0 in
    if (0 <? n) && String.eqb rest "" then Finite (MkNum v 0) else NaN in
  match t with
  | EmptyString => Finite (MkNum 0 0)
  | String "0" (String "x" r) | String "0" (String "X" r) => radix 16%N r
  | String "0" (String "o" r) | String "0" (String "O" r) => radix 8%N r
  | String "0" (String "b" r) | String "0" (String "B" r) => radix 2%N r
  | _ =>
      let '(neg, u) := match t with
                       | String "-" r => (true, r)
                       | String "+" r => (false, r)
                       | _ => (false, t)
                       end in
      if String.eqb u "Infinity" then (if neg then MinusInfinity else PlusInfinity)
      else match whole (unsigned_decimal u) with
           | Some x => Finite (if neg then negate x else x)
           | None => NaN
           end
  end.

(** An array or object is first converted to a primitive; with no callable
    [valueOf] that yields one, this is its string conversion. *)
Definition ToNumber (v : JSValue) : Completion JSNumeric :=
  match v with
  | JUndefined => Normal NaN
  | JNull => Normal (Finite (MkNum 0 0))
  | JBool b => Normal (Finite (MkNum (if b then 1 else 0) 0))
  | JNum n => Normal (Finite n)
  | JBigInt z => Normal (Finite (MkNum z 0))
  | JStr s => Normal (StringToNumber s)
  | JArr _ | JObj _ | JCycle _ => s ← String_ v; Normal (StringToNumber s)
  end.

(** [x > 0] *)
Definition positive (x : JSNumeric) : bool :=
  match x with
  | Finite n => 0 <? mant n
  | PlusInfinity => true
  | MinusInfinity | NaN => false
  end.

(** *** Property reads *)

Definition undefined_read (k : string) : JSError :=
  MkError TypeError ("Cannot read properties of undefined (reading '" +:+ k +:+ "')").

(** [v.k] for a key that no prototype defines: reading from [undefined] or
    [null] throws, any other value answers with its own property or
    [undefined]. *)
Definition get (v : JSValue) (k : string) : Completion JSValue :=
  match v with
  | JUndefined | JNull => Throw (undefined_read k)
  | JObj ps => Normal (default JUndefined (own ps k))
  | _ => Normal JUndefined
  end.

(** The receiver of [s.substring(...)] and [s.length]: only a string has the
    method. *)
Definition as_string (v : JSValue) : Completion string :=
  match v with
  | JStr s => Normal s
  | JUndefined | JNull => Throw (undefined_read "substring")
  | _ => Throw (MkError TypeError "substring is not a function")
  end.

(** [new Error(v)]: the message is [v] converted to a string, empty when [v]
    is [undefined]. *)
Definition new_Error (v : JSValue) : Completion JSError :=
  match v with
  | JUndefined => Normal (MkError GenericError "")
  | _ => s ← String_ v; Normal (MkError GenericError s)
  end.

(** *** Strings: [includes], [endsWith], [replace] *)

Definition lf : ascii := "010"%char.
Definition cr : ascii := "013"%char.

(** [s.includes(word)] *)
Fixpoint includes (s word : string) : bool :=
  match strip_prefix word s with
  | Some _ => true
  | None => match s with
            | String _ rest => includes rest word
            | EmptyString => false
            end
  end.

(** [s.endsWith(c)] for a single character *)
Fixpoint endsWith (s : string) (c : ascii) : bool :=
  match s with
  | EmptyString => false
  | String a EmptyString => Ascii.eqb a c
  | String _ rest => endsWith rest c
  end.

(** The part of a regular expression language that the sources use. *)
Inductive Regex :=
| Lit (word : string)        (* literal characters *)
| Dot                        (* [.] *)
| Star (r : Regex)           (* [r*], greedy *)
| Opt (r : Regex)            (* [r?], greedy *)
| Seq (r1 r2 : Regex)
| Alt (r1 r2 : Regex)        (* [r1|r2] *)
| Group (r : Regex)          (* [(r)], capturing *)
| Eol.                       (* [$], without the flag [m] *)

(** Strings are held as UTF-8: the line separators U+2028 and U+2029, which
    [.] does not match either, are three bytes. *)
Definition line_terminator (s : string) : bool :=
  match s with
  | String c rest =>
      Ascii.eqb c lf || Ascii.eqb c cr
      || match c, rest with
         | "226"%char, String "128"%char (String d _) =>
             Ascii.eqb d "168" || Ascii.eqb d "169"
         | _, _ => false
         end
  | EmptyString => false
  end.

(** The first [length s - length s'] characters of [s]: what was read
    between the input [s] and the rest [s'] of it. *)
Definition consumed (s s' : string) : string :=
  substring 0 (String.length s - String.length s') s.

(** [r*], greedy, for the matcher [step] of [r]: another round of [step] is
    tried first, the continuation [k] when that fails; a round that reads
    nothing fails.  [n] bounds the rounds by the length of the input. *)
Fixpoint RepeatMatcher {R}
    (step : string → list string → (string → list string → option R) → option R)
    (k : string → list string → option R) (n : nat) (s : string) (caps : list string)
  : option R :=
  match n with
  | O => k s caps
  | S n' =>
      match step s caps
              (fun s' caps' =>
                 if (String.length s' <? String.length s)%nat
                 then RepeatMatcher step k n' s' caps' else None) with
      | Some res => Some res
      | None => k s caps
      end
  end.

(** A backtracking matcher: [k] is what remains to be matched after [r]; the
    result is the rest of the input after the whole match, and the captures of
    the groups in the order in which they close (no group of the sources is
    inside another one or optional). *)
Fixpoint matcher (r : Regex) (s : string) (caps : list string)
    (k : string → list string → option (string * list string))
  : option (string * list string) :=
  match r with
  | Lit word => s' ← strip_prefix word s; k s' caps
  | Dot => match s with
           | String _ s' => if line_terminator s then None else k s' caps
           | EmptyString => None
           end
  | Star r' => RepeatMatcher (matcher r') k (String.length s) s caps
  | Opt r' => RepeatMatcher (matcher r') k 1 s caps
  | Seq r1 r2 => matcher r1 s caps (fun s' caps' => matcher r2 s' caps' k)
  | Alt r1 r2 => match matcher r1 s caps k with
                 | Some res => Some res
                 | None => matcher r2 s caps k
                 end
  | Group r' => matcher r' s caps (fun s' caps' => k s' (caps' ++ [consumed s s']))
  | Eol => match s with
           | EmptyString => k s caps
           | _ => None
           end
  end.

(** A match: what precedes it, the matched text, the captures, what follows. *)
Record Match := MkMatch {
  before : string; matched : string; captures : list string; after : string
}.

(** The leftmost match of [r] in [s], [pre] being what was passed already. *)
Fixpoint exec_from (r : Regex) (pre s : string) : option Match :=
  match matcher r s [] (fun s' caps => Some (s', caps)) with
  | Some (s', caps) => Some (MkMatch pre (consumed s s') caps s')
  | None => match s with
            | String c rest => exec_from r (pre +:+ String c "") rest
            | EmptyString => None
            end
  end.

Definition exec (r : Regex) (s : string) : option Match := exec_from r "" s.

(** [GetSubstitution]: the replacement text with its [$] patterns filled in.
    With one digit too many for the number of groups, [$nn] is read as [$n]
    followed by a digit. *)
Fixpoint GetSubstitution (m : Match) (template : string) : string :=
  match template with
  | EmptyString => ""
  | String c t =>
      if negb (Ascii.eqb c "$") then String c (GetSubstitution m t)
      else match t with
           | EmptyString => "$"
           | String d t1 =>
               if Ascii.eqb d "$" then "$" +:+ GetSubstitution m t1
               else if Ascii.eqb d "&" then matched m +:+ GetSubstitution m t1
               else if Ascii.eqb d "`" then before m +:+ GetSubstitution m t1
               else if Ascii.eqb d "'" then after m +:+ GetSubstitution m t1
               else
                 let group (i : Z) :=
                   if (1 <=? i) && (i <=? Z.of_nat (List.length (captures m)))
                   then captures m !! Z.to_nat (i - 1) else None in
                 match digit_val d with
                 | None => "$" +:+ GetSubstitution m t
                 | Some n1 =>
                     let one_digit :=
                       match group n1 with
                       | Some text => text +:+ GetSubstitution m t1
                       | None => "$" +:+ String d (GetSubstitution m t1)
                       end in
                     match t1 with
                     | EmptyString => one_digit
                     | String d2 t2 =>
                         match digit_val d2 with
                         | None => one_digit
                         | Some n2 =>
                             if Z.of_nat (List.length (captures m)) <? 10 * n1 + n2
                             then one_digit
                             else match group (10 * n1 + n2) with
                                  | Some text => text +:+ GetSubstitution m t2
                                  | None => "$" +:+ String d (String d2 (GetSubstitution m t2))
                                  end
                         end
                     end
                 end
           end
  end.

(** [s.replace(r, template)] for a regular expression without the flag [g] *)
Definition replace (s : string) (r : Regex) (template : string) : string :=
  match exec r s with
  | Some m => before m +:+ GetSubstitution m template +:+ after m
  | None => s
  end.

(* ===================================================================== *)
(** ** The types of [utils/AOProcess.ts] *)
(* ===================================================================== *)

(** A tag value is declared [string]; [toString] below can hand back
    [undefined], which is [None]. *)
Record AOMessageTag := MkTag { name : string; value : option string }.

Record MessageInput := MkInput {
  process : string;
  data : option string;
  tags : list AOMessageTag;
  Owner : option JSValue
}.

(** An element of [Messages]. *)
Record Message := MkMessage {
  Tags : option (list AOMessageTag);
  Data : JSValue
}.

(** [MessageResult] and [DryRunResult].  [Messages] is [None] when the field
    is missing, [Error] is [JUndefined] when there is none. *)
Record MessageResult := MkResult {
  Output : JSValue;
  Messages : option (list Message);
  Spawns : list JSValue;
  Error : JSValue
}.

(** What [reduce] builds from [{}]: a [Record<string, string>]. *)
Abbreviation TagRecord := (gmap string (option string)).

(** [v === "lit"] for a tag value *)
Definition is_lit (v : option (option string)) (lit : string) : bool :=
  match v with
  | Some (Some s) => String.eqb s lit
  | _ => false
  end.

(** The value of a tag as a JavaScript value ([undefined] when absent). *)
Definition tag_value (v : option (option string)) : JSValue :=
  match v with
  | Some (Some s) => JStr s
  | _ => JUndefined
  end.

(* ===================================================================== *)
(** ** The outside world *)
(* ===================================================================== *)

Inductive LogLevel := debug | info | warn | error.

Inductive Event :=
| EvDryrun (input : MessageInput)                     (* aoconnect dryrun *)
| EvMessage (input : MessageInput)                    (* aoconnect message, signed *)
| EvResult (message process : string)                 (* aoconnect result *)
| EvRequestHB (processId : string) (tags : list (string * JSValue))
              (data : option JSValue)                 (* hb.ts requestHB *)
| EvAxiosGet (url : string) (query : list (string * string))
             (timeout : option Z)                     (* axios.get *)
| EvLog (level : LogLevel) (msg : string)
        (meta : list (string * JSValue))              (* winston logger *)
| EvConsole (text : string)                           (* console.log / console.error *)
| EvSleep (ms : Z).                                   (* setTimeout(resolve, ms) *)

(** A promise of the outside, settled. *)
Inductive Settled (A : Type) :=
| Fulfilled (a : A)
| Rejected (e : JSError).
Arguments Fulfilled {A} a.
Arguments Rejected {A} e.

Inductive Reply :=
| RResult (r : Settled MessageResult)   (* dryrun, result, requestHB *)
| RId (r : Settled string)              (* message: the message id *)
| RData (r : Settled JSValue).          (* axios.get: [response.data] *)

(** The replies still to come, and everything done so far. *)
Record World := MkWorld { script : list Reply; trace : list Event }.

(** How a piece of the program ends: it returns, it throws, or the process is
    gone ([process.exit]), which no [catch] intercepts. *)
Inductive Outcome (A : Type) :=
| Returned (a : A)
| Thrown (e : JSError)
| Exited (code : Z).
Arguments Returned {A} a.
Arguments Thrown {A} e.
Arguments Exited {A} code.

Definition M (A : Type) : Type := World → Outcome A * World.

#[global] Instance M_ret : MRet M := fun _ a w => (Returned a, w).
#[global] Instance M_bind : MBind M := fun _ _ f m w =>
  match m w with
  | (Returned a, w') => f a w'
  | (Thrown e, w') => (Thrown e, w')
  | (Exited n, w') => (Exited n, w')
  end.

Definition lift {A} (c : Completion A) : M A := fun w =>
  (match c with Normal a => Returned a | Throw e => Thrown e end, w).
Definition throw {A} (e : JSError) : M A := fun w => (Thrown e, w).
Definition exit {A} (code : Z) : M A := fun w => (Exited code, w).   (* process.exit *)

(** [try { body } catch (e) { handler }] *)
Definition tryM {A} (body : M A) (handler : JSError → M A) : M A := fun w =>
  match body w with
  | (Thrown e, w') => handler e w'
  | other => other
  end.

Definition emit (ev : Event) : M unit := fun w =>
  (Returned tt, MkWorld (script w) (trace w ++ [ev])).

Definition no_reply : JSError := MkError GenericError "connection failed".

Definition await {A} (p : Settled A) : Outcome A :=
  match p with
  | Fulfilled a => Returned a
  | Rejected e => Thrown e
  end.

(** A call to the outside is recorded and takes the next reply of the
    script; a call that does not find a reply of its kind there is
    rejected. *)
Definition call {A} (ev : Event) (pick : Reply → option (Settled A)) : M A := fun w =>
  let tr := trace w ++ [ev] in
  match script w with
  | r :: rest => (match pick r with
                  | Some p => await p
                  | None => Thrown no_reply
                  end, MkWorld rest tr)
  | [] => (Thrown no_reply, MkWorld [] tr)
  end.

Definition pick_result (r : Reply) := match r with RResult p => Some p | _ => None end.
Definition pick_id (r : Reply) := match r with RId p => Some p | _ => None end.
Definition pick_data (r : Reply) := match r with RData p => Some p | _ => None end.

Definition log (level : LogLevel) (msg : string) (meta : list (string * JSValue))
  : M unit := emit (EvLog level msg meta).
Definition console (text : string) : M unit := emit (EvConsole text).
(** [await new Promise((resolve) => setTimeout(resolve, ms))] *)
Definition sleep (ms : Z) : M unit := emit (EvSleep ms).

(** [messages?.[index]] *)
Definition at_index {A} (l : list A) (index : Z) : option A :=
  if index <? 0 then None else l !! Z.to_nat index.

(** *** The tag decoder shared by [AOProcess.ts] and [hb.ts] *)

(** [acc[tag.name] = tag.value] on an object that started as [{}]: the
    inherited setter [__proto__] ignores a value that is not an object, every
    other name becomes an own property. *)
Definition assign (acc : TagRecord) (tag : AOMessageTag) : TagRecord :=
  if String.eqb (name tag) "__proto__" then acc else <[name tag := value tag]> acc.

(** [tags.reduce((acc, tag) => { acc[tag.name] = tag.value; return acc }, {})] *)
Definition reduce (ts : list AOMessageTag) : TagRecord := foldl assign ∅ ts.

(* ===================================================================== *)
(** ** [utils/AOProcess.ts]: class [AOProcess] *)
(* ===================================================================== *)

Module AOProcess.

Record AOProcess := new { processId : string; isDevEnvironment : bool }.

(** [toString(value)] *)
Definition toString (v : JSValue) : Completion (option string) :=
  match v with
  | JStr s => Normal (Some s)
  | JNum n => Normal (Some (Number_toString n))
  | _ => try_catch (JSON_stringify v) (fun _ => s ← String_ v; Normal (Some s))
  end.

(** [obj2tags(obj)]: [obj] is given by its entries, in the order of
    [Object.entries]. *)
Fixpoint obj2tags (obj : list (string * JSValue)) : Completion (list AOMessageTag) :=
  match obj with
  | [] => Normal []
  | (key, v) :: rest =>
      s ← toString v;
      tl ← obj2tags rest;
      Normal (MkTag key s :: tl)
  end.

(** [message?.Messages?.[index]] *)
Definition messageAt (message : option MessageResult) (index : Z) : option Message :=
  r ← message; ms ← Messages r; at_index ms index.

(** [getTagsFromMessage(message, index = 0)]: [None] is [undefined]. *)
Definition getTagsFromMessage (message : option MessageResult) (index : Z)
  : option TagRecord :=
  m ← messageAt message index; ts ← Tags m; Some (reduce ts).

(** [getDataFromMessage(message, index = 0)] *)
Definition getDataFromMessage (message : option MessageResult) (index : Z)
  : Completion JSValue :=
  let data := match messageAt message index with
              | Some m => Data m
              | None => JUndefined
              end in
  try_catch (JSON_parse data) (fun _ => Normal data).

(** What [formatResult] returns: either all the messages, or the tags and the
    decoded data of the first one. *)
Inductive Formatted :=
| resMsgs (msgs : list Message)
| resTagsData (resTags : option (list AOMessageTag)) (resData : JSValue).

Definition formatResult (result : MessageResult) : Formatted :=
  match Messages result with
  | Some ms =>
      if 1 <? Z.of_nat (List.length ms) then resMsgs ms
      else match ms !! 0%nat with
           | Some m => resTagsData (Tags m)
                         (match JSON_parse (Data m) with Normal d => d | _ => Data m end)
           | None => resTagsData None JUndefined
           end
  | None => resTagsData None JUndefined
  end.

(** [`${tags.Action ?? ""} ${suffix}`] *)
Definition action_line (tags : list (string * JSValue)) (suffix : string)
  : Completion string :=
  a ← match own tags "Action" with
      | None | Some JUndefined | Some JNull => Normal ""
      | Some v => String_ v
      end;
  Normal (a +:+ " " +:+ suffix).

(** Only the text of a console line is recorded, without the objects and the
    timing printed after it. *)
Definition logDebugInfo (tags : list (string * JSValue)) (msgType : string)
    (data : JSValue) (result : MessageResult) : M unit :=
  line ← lift (action_line tags msgType); console line.

Definition logError (tags : list (string * JSValue)) (msgType : string) : M unit :=
  line ← lift (action_line tags (msgType +:+ " failed")); console line.

(** [handleResult(msgType, result, tags, data, checkStatus)] *)
Definition handleResult (self : AOProcess) (msgType : string) (result : MessageResult)
    (tags : list (string * JSValue)) (data : JSValue) (checkStatus : bool) : M unit :=
  let msgErr := Error result in
  (if truthy msgErr
   then s ← lift (toString msgErr); throw (MkError GenericError (default "" s))
   else mret tt);;
  let resultTags := getTagsFromMessage (Some result) 0 in
  (match resultTags with
   | Some rt =>
       if checkStatus && bool_decide (is_Some (rt !! "Status"))
                      && negb (is_lit (rt !! "Status") "200")
       then st ← lift (String_ (tag_value (rt !! "Status")));
            d ← lift (getDataFromMessage (Some result) 0);
            ds ← lift (String_ d);
            throw (MkError GenericError (st +:+ " " +:+ ds))
       else mret tt
   | None => mret tt
   end);;
  if isDevEnvironment self then logDebugInfo tags msgType data result else mret tt.

Definition dryrun (options : MessageInput) : M MessageResult :=
  call (EvDryrun options) pick_result.
Definition message (options : MessageInput) : M string :=
  call (EvMessage options) pick_id.
Definition fetchResult (message process : string) : M MessageResult :=
  call (EvResult message process) pick_result.

(** [execute(msgType, tags, data, checkStatus = true)] *)
Definition execute (self : AOProcess) (msgType : string) (tags : list (string * JSValue))
    (data : JSValue) (checkStatus : bool) : M MessageResult :=
  tryM
    (ts ← lift (obj2tags tags);
     d ← lift (toString data);
     let owner := default JUndefined (own tags "Owner") in
     let options := MkInput (processId self) d ts
                      (if truthy owner then Some owner else None) in
     msgResult ← (if String.eqb msgType "dryrun" then dryrun options
                  else messageId ← message options;
                       fetchResult messageId (processId self));
     handleResult self msgType msgResult tags data checkStatus;;
     (if isDevEnvironment self
      then console ("AO " +:+ msgType +:+ " completed")
      else mret tt);;
     mret msgResult)
    (fun e =>
       (if isDevEnvironment self
        then logError tags msgType;; console (err_message e)
        else mret tt);;
       throw e).

(** [sendMessage(tags, data = null, checkStatus = true)] *)
Definition sendMessage (self : AOProcess) (tags : list (string * JSValue))
    (data : JSValue) (checkStatus : bool) : M MessageResult :=
  execute self "message" tags data checkStatus.

(** [dryRun(tags, data = null, checkStatus = true)] *)
Definition dryRun (self : AOProcess) (tags : list (string * JSValue))
    (data : JSValue) (checkStatus : bool) : M MessageResult :=
  execute self "dryrun" tags data checkStatus.

End AOProcess.

(* ===================================================================== *)
(** ** Configuration read from the environment *)
(* ===================================================================== *)

Record Config := MkConfig {
  POOL_PROCESS_ID : string;
  HYPERBEAM_URL : string;
  POLL_INTERVAL : Z;
  NODE_ID : string
}.

(* ===================================================================== *)
(** ** [utils/hb.ts] *)
(* ===================================================================== *)

Module Hb.

(** [requestHB(processId, tags, data)] posts the message to the HyperBEAM
    node and unwraps the body of the answer; what it resolves to, or what it
    is rejected with, is the reply. *)
Definition requestHB (processId : string) (tags : list (string * JSValue))
    (data : option JSValue) : M MessageResult :=
  call (EvRequestHB processId tags data) pick_result.

(** The last [then] of [getHBCache]: the cached value, decoded when it is
    JSON. *)
Definition cached (res : JSValue) : Completion JSValue :=
  match res with
  | JNull | JUndefined => Throw (MkError GenericError "No response received")
  | _ => try_catch (JSON_parse res) (fun _ => Normal res)
  end.

(** [getHBCache(processId, cacheKey)] *)
Definition getHBCache (HB_NODE processId cacheKey : string) : M JSValue :=
  res ← call (EvAxiosGet (HB_NODE +:+ "/" +:+ processId +:+ "~process@1.0/now/" +:+ cacheKey)
                [] None) pick_data;
  lift (cached res).

Definition invalid_format : JSError := MkError GenericError "Invalid message format".
Definition out_of_bounds : JSError := MkError GenericError "Index out of bounds".

(** [extractMessage(msg, idx)] *)
Definition extractMessage (msg : option MessageResult) (idx : Z)
  : Completion (TagRecord * JSValue) :=
  match msg with
  | None => Throw invalid_format
  | Some r =>
      match Messages r with
      | None => Throw invalid_format
      | Some ms =>
          if (idx <? 0) || (Z.of_nat (List.length ms) <=? idx) then Throw out_of_bounds
          else match ms !! Z.to_nat idx with
               | Some m =>
                   match Tags m with
                   | Some ts => Normal (reduce ts, Data m)
                   | None => Throw (undefined_read "reduce")
                   end
               | None => Throw (undefined_read "Tags")
               end
      end
  end.

(** [tags.Error || data || "Unknown error"] *)
Definition error_text (tags : TagRecord) (data : JSValue) : JSValue :=
  if truthy (tag_value (tags !! "Error")) then tag_value (tags !! "Error")
  else if truthy data then data
  else JStr "Unknown error".

(** [handleApusMessage(msg)] *)
Definition handleApusMessage (msg : MessageResult) : Completion (option (list Message)) :=
  (if truthy (Error msg) then e ← new_Error (Error msg); Throw e else Normal tt);;
  '(tags, data) ← extractMessage (Some msg) 0;
  (if truthy (tag_value (tags !! "Code")) && negb (is_lit (tags !! "Code") "200")
   then e ← new_Error (error_text tags data); Throw e
   else Normal tt);;
  Normal (Messages msg).

End Hb.

(** *** The request that [requestHB] builds *)

Module HbRequest.

(** [data || ""] *)
Definition data_or_empty (data : option JSValue) : JSValue :=
  match data with
  | Some d => if truthy d then d else JStr ""
  | None => JStr ""
  end.

(** The object literal [params]: the properties are defined in the order in
    which they are written, the spread [...tags] in the order of the entries
    of [tags]; a key written again keeps its place and takes the new value. *)
Definition params (processId : string) (tags : list (string * JSValue))
    (data : option JSValue) : list (string * JSValue) :=
  foldl (fun acc kv => define_own acc kv.1 kv.2) []
    ([("type", JStr "Message");
      ("path", JStr ("/" +:+ processId +:+ "~process@1.0/push/serialize~json@1.0"));
      ("method", JStr "POST")]
     ++ tags
     ++ [("data", data_or_empty data);
         ("data-protocol", JStr "ao");
         ("variant", JStr "ao.N.1");
         ("target", JStr processId)]).

(** [typeof value === "object" ? JSON.stringify(value) : String(value)] *)
Definition as_text (v : JSValue) : Completion JSValue :=
  match v with
  | JNull | JArr _ | JObj _ | JCycle _ =>
      s ← JSON_stringify v;
      Normal match s with Some t => JStr t | None => JUndefined end
  | _ => s ← String_ v; Normal (JStr s)
  end.

(** [acc[key] = text] on the object that started as [{}] *)
Definition put (acc : list (string * JSValue)) (key : string) (text : JSValue)
  : list (string * JSValue) :=
  if String.eqb key "__proto__" then acc else define_own acc key text.

(** [Object.entries(params).filter((v) => !!v[1]).reduce(..., {})] *)
Definition params2 (params : list (string * JSValue))
  : Completion (list (string * JSValue)) :=
  foldl (fun acc kv => a ← acc; t ← as_text kv.2; Normal (put a kv.1 t)) (Normal [])
    (List.filter (fun kv => truthy kv.2) params).

(** What [requestHB(processId, tags, data)] hands to [ao.request] *)
Definition request (processId : string) (tags : list (string * JSValue))
    (data : option JSValue) : Completion (list (string * JSValue)) :=
  params2 (params processId tags data).

End HbRequest.

(** *** What [requestHB] makes of the response *)

Module HbResponse.

(** [v?.k] *)
Definition opt_get (v : JSValue) (k : string) : Completion JSValue :=
  match v with
  | JUndefined | JNull => Normal JUndefined
  | _ => get v k
  end.

(** [v.k] where [v] may be [null] *)
Definition read (v : JSValue) (k : string) : Completion JSValue :=
  match v with
  | JNull => Throw (MkError TypeError
                      ("Cannot read properties of null (reading '" +:+ k +:+ "')"))
  | _ => get v k
  end.

(** The first [then]: the body of the response, parsed. *)
Definition parsed (body : JSValue) : Completion JSValue :=
  if truthy body
  then try_catch (JSON_parse body)
         (fun _ => Throw (MkError GenericError "Could not parse response"))
  else Throw (MkError GenericError "No response received").

(** The second [then]: the output of a [hyper-aos] process, or the body of
    the [json] field; the error of either is thrown. *)
Definition output_of (resBody : JSValue) : Completion JSValue :=
  info ← opt_get resBody "info";
  if match info with JStr s => String.eqb s "hyper-aos" | _ => false end
  then
    err ← opt_get resBody "error";
    if truthy err then e ← new_Error err; Throw e
    else get resBody "output"
  else
    json ← opt_get resBody "json";
    err ← opt_get json "error";
    if truthy err then e ← new_Error err; Throw e
    else json ← read resBody "json"; opt_get json "body".

(** The last [then]: the output, decoded when it is JSON. *)
Definition decoded (output : JSValue) : Completion JSValue :=
  if truthy output
  then try_catch (JSON_parse output) (fun _ => Normal output)
  else Throw (MkError GenericError "No body in response").

(** What [requestHB] resolves to, or is rejected with, when [ao.request]
    answers with a response of body [body]. *)
Definition resolved (body : JSValue) : Completion JSValue :=
  resBody ← parsed body;
  output ← output_of resBody;
  decoded output.

End HbResponse.

(* ===================================================================== *)
(** ** [utils/request.ts] *)
(* ===================================================================== *)

Module Request.

Definition default_pool : string := "Zvk33TZcp2maje5ewY4tm4TN1479ncUaTmmqHihXwUA".

(** [process.env.POOL_PROCESS_ID || "Zvk3..."] *)
Definition PoolProcess (cfg : Config) : string :=
  if String.eqb (POOL_PROCESS_ID cfg) "" then default_pool else POOL_PROCESS_ID cfg.

(** [res => Number(res) > 0] *)
Definition above_zero (res : JSValue) : Completion bool :=
  n ← ToNumber res; Normal (positive n).

(** [hasPendingTask()] *)
Definition hasPendingTask (cfg : Config) : M bool :=
  res ← Hb.getHBCache (HYPERBEAM_URL cfg) (PoolProcess cfg) "pending_taskcount";
  lift (above_zero res).

Definition not_a_function : JSError := MkError TypeError "msg.Error is not a function".

(** The first [then] of [receiveTask]: from the reply to its messages.  In
    the branch of code 403 the call [msg.Error(...)] is a call of a value that
    the test above found falsy; it throws, and the [process.exit(1)] written
    after the [return] is never reached. *)
Definition select_messages (msg : MessageResult) : Completion (option (list Message)) :=
  (if truthy (Error msg) then e ← new_Error (Error msg); Throw e else Normal tt);;
  '(tags, data) ← Hb.extractMessage (Some msg) 0;
  if is_lit (tags !! "Code") "200" then Normal (Messages msg)
  else if is_lit (tags !! "Code") "403" then Throw not_a_function
  else if is_lit (tags !! "Code") "204"
       then Throw (MkError GenericError "No pending tasks available")
  else e ← new_Error (Hb.error_text tags data); Throw e.

(** The second [then]: [JSON.parse(messages[0].Data)] *)
Definition parse_first (messages : option (list Message)) : Completion JSValue :=
  match messages with
  | None => Throw (undefined_read "0")
  | Some ms => match ms !! 0%nat with
               | Some m => JSON_parse (Data m)
               | None => Throw (undefined_read "Data")
               end
  end.

(** [receiveTask(nodeID)] *)
Definition receiveTask (cfg : Config) (nodeID : string) : M JSValue :=
  msg ← Hb.requestHB (PoolProcess cfg)
          [("Action", JStr "Get-Pending-Task"); ("Nodeid", JStr nodeID)] None;
  messages ← lift (select_messages msg);
  lift (parse_first messages).

(** [sendTaskResponse(nodeID, ref, output)] *)
Definition sendTaskResponse (cfg : Config) (nodeID : string) (ref output : JSValue)
  : M MessageResult :=
  Hb.requestHB (PoolProcess cfg)
    [("Action", JStr "Task-Response"); ("X-Oracle-Node-Id", JStr nodeID);
     ("X-Reference", ref)]
    (Some (JObj [("output", output)])).

End Request.

(* ===================================================================== *)
(** ** The polling loop *)
(* ===================================================================== *)

Definition inference_url (cfg : Config) : string :=
  HYPERBEAM_URL cfg +:+ "/~wasi-nn@1.0/run_inference_http".

(** [prompt.substring(0, 50) + (prompt.length > 50 ? "..." : "")] *)
Definition excerpt (prompt : string) : JSValue :=
  JStr (substring 0 50 prompt +:+
        (if (50 <? String.length prompt)%nat then "..." else "")).

Definition starting (cfg : Config) : M unit :=
  log info "Starting ANPM Oracle"
    [("nodeId", JStr (NODE_ID cfg)); ("poolProcessId", JStr (POOL_PROCESS_ID cfg));
     ("hyperbeamUrl", JStr (HYPERBEAM_URL cfg))].

(** [main().catch(...)] *)
Definition fatal {A} (e : JSError) : M A :=
  log error "Fatal error:" [("error", JStr (err_message e))];;
  exit 1.

(** The [catch] of [runHyperBeamInference] *)
Definition inference_failed {A} (e : JSError) : M A :=
  log error "HyperBEAM inference failed" [("error", JStr (err_message e))];;
  throw (MkError GenericError ("HyperBEAM inference failed: " +:+ err_message e)).

(** The [catch] of the loop body.  Of the context objects handed to the
    logger, the stack and the fields of an HTTP response are left out. *)
Definition main_loop_error (cfg : Config) (e : JSError) : M unit :=
  log error "Error in main loop" [("error", JStr (err_message e))];;
  sleep (POLL_INTERVAL cfg).

(** [n] turns of [while (true) { turn }]: [Returned] is a loop that is still
    running after them, [Exited] a process that is gone. *)
Fixpoint turns (turn : M unit) (n : nat) : M unit :=
  match n with
  | O => mret tt
  | S k => turn;; turns turn k
  end.

(** *** The node id of [src/index.ts] *)

Module NodeId.

(** [buffer.toString("hex")] *)
Fixpoint hex (bytes : list Byte.byte) : string :=
  match bytes with
  | [] => ""
  | b :: rest =>
      let n := Byte.to_N b in
      String (hex_digit (n / 16)) (String (hex_digit (n mod 16)) (hex rest))
  end.

(** [generateNodeId()]: [randomBytes] is what [crypto.randomBytes(16)]
    returned. *)
Definition generateNodeId (hostname : string) (randomBytes : list Byte.byte) : string :=
  hostname +:+ "-" +:+ hex randomBytes.

(** [/NODE_ID=.*(\r?\n|$)/] *)
Definition assignment : Regex :=
  Seq (Lit "NODE_ID=")
    (Seq (Star Dot)
       (Group (Alt (Seq (Opt (Lit (String cr ""))) (Lit (String lf ""))) Eol))).

(** The new content of the [.env] file, from the content read ([""] when
    there is no file).  The failures of the file system, which the source
    logs and passes over, are not part of the model. *)
Definition saveNodeIdToEnv (envContent nodeId : string) : string :=
  if includes envContent "NODE_ID="
  then replace envContent assignment ("NODE_ID=" +:+ nodeId +:+ "$1")
  else envContent +:+ (if endsWith envContent lf then "" else String lf "")
       +:+ "NODE_ID=" +:+ nodeId +:+ String lf "".

(** [process.env.NODE_ID || ""], and a generated id when that is empty *)
Definition NODE_ID (env : option string) (hostname : string)
    (randomBytes : list Byte.byte) : string :=
  let configured := default "" env in
  if String.eqb configured "" then generateNodeId hostname randomBytes else configured.

End NodeId.

(** *** [src/index.ts], on top of [utils/request.ts] *)

Module Index.

(** [JSON.stringify({ n_gpu_layers: 48, ctx_size: 20480 })] *)
Definition default_config : JSValue :=
  match JSON_stringify (JObj [("n_gpu_layers", JInt 48); ("ctx_size", JInt 20480)]) with
  | Normal (Some s) => JStr s
  | _ => JUndefined
  end.

(** [runHyperBeamInference(prompt, config)] *)
Definition runHyperBeamInference (cfg : Config) (prompt : string) (config : JSValue)
  : M JSValue :=
  tryM
    (extra ← (if truthy config
              then s ← lift (String_ config); mret [("config", s)]
              else mret []);
     log info "Sending inference request to HyperBEAM" [("prompt", excerpt prompt)];;
     call (EvAxiosGet (inference_url cfg) (("prompt", prompt) :: extra) (Some 120000))
          pick_data)
    inference_failed.

(** The [try] block from the received task on *)
Definition process_task (cfg : Config) (task : JSValue) : M unit :=
  ref ← lift (get task "ref");
  ref_s ← lift (String_ ref);
  prompt_v ← lift (get task "prompt");
  prompt ← lift (as_string prompt_v);
  log info ("Received task " +:+ ref_s) [("prompt", excerpt prompt)];;
  log info ("Processing task " +:+ ref_s +:+ " with HyperBEAM") [];;
  config ← lift (get task "config");
  output ← runHyperBeamInference cfg prompt
             (if truthy config then config else default_config);
  log info ("Task " +:+ ref_s +:+ " completed, sending response...") [];;
  Request.sendTaskResponse cfg (NODE_ID cfg) ref output;;
  log info ("Task " +:+ ref_s +:+ " response sent successfully") [];;
  sleep (POLL_INTERVAL cfg).

(** The [try] block of the loop *)
Definition body (cfg : Config) : M unit :=
  log debug "Requesting pending task from Pool..." [];;
  has ← Request.hasPendingTask cfg;
  if negb has then
    log info "No pending tasks available, Skipping..." [];;
    sleep (POLL_INTERVAL cfg)
  else
    task ← Request.receiveTask cfg (NODE_ID cfg);
    process_task cfg task.

(** One turn of [while (true) { try { ... } catch (error) { ... } }] *)
Definition iteration (cfg : Config) : M unit :=
  tryM (body cfg) (main_loop_error cfg).

(** [main()], observed for [n] turns of its loop *)
Definition main (cfg : Config) (n : nat) : M unit :=
  if String.eqb (POOL_PROCESS_ID cfg) "" then
    log error "POOL_PROCESS_ID environment variable is not set" [];;
    exit 1
  else
    starting cfg;;
    turns (iteration cfg) n.

Definition start (cfg : Config) (n : nat) : M unit :=
  tryM (main cfg n) fatal.

End Index.

(** *** The loop written against the [AOProcess] class *)

Module AOIndex.

Import AOProcess.

(** [runHyperBeamInference(prompt, config)] *)
Definition runHyperBeamInference (cfg : Config) (prompt : string) (config : JSValue)
  : M JSValue :=
  tryM
    (extra ← (if truthy config
              then s ← lift (JSON_stringify config);
                   mret [("config", default "undefined" s)]
              else mret []);
     log info "Sending inference request to HyperBEAM" [("prompt", excerpt prompt)];;
     call (EvAxiosGet (inference_url cfg) (("prompt", prompt) :: extra) (Some 120000))
          pick_data)
    inference_failed.

(** [getTagsFromMessage(r) || {}] *)
Definition tagsOrEmpty (r : MessageResult) : TagRecord :=
  default ∅ (getTagsFromMessage (Some r) 0).

(** The branch of code 200 *)
Definition process_task (cfg : Config) (poolProcess : AOProcess) (result : MessageResult)
  : M unit :=
  taskData ← lift (getDataFromMessage (Some result) 0);
  if truthy taskData then
    ref ← lift (get taskData "ref");
    ref_s ← lift (String_ ref);
    prompt_v ← lift (get taskData "prompt");
    prompt ← lift (as_string prompt_v);
    log info ("Received task " +:+ ref_s) [("prompt", excerpt prompt)];;
    log info ("Processing task " +:+ ref_s +:+ " with HyperBEAM") [];;
    config ← lift (get taskData "config");
    output ← runHyperBeamInference cfg prompt config;
    log info ("Task " +:+ ref_s +:+ " completed, sending response...") [];;
    sendMessage poolProcess
      [("Action", JStr "Task-Response"); ("X-Oracle-Node-Id", JStr (NODE_ID cfg));
       ("X-Reference", ref)]
      (JObj [("output", output)]) true;;
    log info ("Task " +:+ ref_s +:+ " response sent successfully") []
  else mret tt.

(** The [try] block of the loop *)
Definition body (cfg : Config) (poolProcess : AOProcess) : M unit :=
  log debug "Requesting pending task from Pool..." [];;
  hasPendingTaskResult ← dryRun poolProcess [("Action", JStr "Has-Pending-Task")] JNull true;
  if is_lit (tagsOrEmpty hasPendingTaskResult !! "Code") "204" then
    log info "No pending tasks available, Skipping..." [];;
    sleep (POLL_INTERVAL cfg)
  else
    result ← sendMessage poolProcess
               [("Action", JStr "Get-Pending-Task"); ("NodeID", JStr (NODE_ID cfg))]
               JNull true;
    let resultTags := tagsOrEmpty result in
    (if is_lit (resultTags !! "Code") "200" then process_task cfg poolProcess result
     else if is_lit (resultTags !! "Code") "204" then
       log info "No pending tasks available" []
     else if is_lit (resultTags !! "Code") "403" then
       log error "Oracle not authorized. Make sure this Node ID is registered in the Pool" [];;
       exit 1
     else log warn "Unexpected response from Pool"
            [("code", tag_value (resultTags !! "Code"))]);;
    sleep (POLL_INTERVAL cfg).

Definition iteration (cfg : Config) (poolProcess : AOProcess) : M unit :=
  tryM (body cfg poolProcess) (main_loop_error cfg).

(** [const poolProcess = new AOProcess(POOL_PROCESS_ID, false)] *)
Definition poolProcess (cfg : Config) : AOProcess :=
  new (POOL_PROCESS_ID cfg) false.

(** [main()], observed for [n] turns of its loop *)
Definition main (cfg : Config) (n : nat) : M unit :=
  if String.eqb (POOL_PROCESS_ID cfg) "" then
    log error "POOL_PROCESS_ID environment variable is not set" [];;
    exit 1
  else
    starting cfg;;
    turns (iteration cfg (poolProcess cfg)) n.

Definition start (cfg : Config) (n : nat) : M unit :=
  tryM (main cfg n) fatal.

End AOIndex.

(* ===================================================================== *)
(** ** Vocabulary of the statements *)
(* ===================================================================== *)

(** The value of the last tag named [k]. *)
Fixpoint last_value (ts : list AOMessageTag) (k : string) : option (option string) :=
  match ts with
  | [] => None
  | t :: rest =>
      match last_value rest k with
      | Some v => Some v
      | None => if String.eqb (name t) k then Some (value t) else None
      end
  end.

(** Values whose conversion to a string is defined: no object with an own
    property [toString] is reached through arrays. *)
Fixpoint coercible (v : JSValue) : bool :=
  match v with
  | JObj ps => negb (has_own ps "toString")
  | JArr es => forallb coercible es
  | _ => true
  end.

(** A result whose only message carries the tags [ts]. *)
Definition carrying (ts : list AOMessageTag) : MessageResult :=
  MkResult JUndefined (Some [MkMessage (Some ts) JUndefined]) [] JUndefined.

(** Encoding a mapping and decoding the tags again. *)
Definition roundtrip (m : list (string * JSValue)) : Completion (option TagRecord) :=
  ts ← AOProcess.obj2tags m;
  Normal (AOProcess.getTagsFromMessage (Some (carrying ts)) 0).

(** A decoded record and a mapping, both as finite maps to values. *)
Definition as_values (r : TagRecord) : gmap string JSValue :=
  (fun v => match v with Some s => JStr s | None => JUndefined end) <$> r.
Definition as_record (m : list (string * JSValue)) : gmap string JSValue :=
  list_to_map m.

(** What [toString] makes of a value, as a value. *)
Definition stringified (v : JSValue) : JSValue :=
  match AOProcess.toString v with
  | Normal (Some s) => JStr s
  | _ => JUndefined
  end.

(** The tag [toString] makes for an entry. *)
Definition tag_of (kv : string * JSValue) : AOMessageTag :=
  MkTag kv.1 (match AOProcess.toString kv.2 with Normal o => o | Throw _ => None end).

(** The raw [Data] of the message at [index], [undefined] without one. *)
Definition raw_data (message : option MessageResult) (index : Z) : JSValue :=
  match AOProcess.messageAt message index with
  | Some m => Data m
  | None => JUndefined
  end.

(** Request tags as they are declared: a [Record<string, string>]. *)
Definition declared_strings (tags : list (string * JSValue)) : Prop :=
  Forall (fun kv => is_string kv.2 = true) tags.

(** The script answers a call of kind [msgType] with [result]. *)
Definition delivered (msgType : string) (result : MessageResult) (w : World) : Prop :=
  if String.eqb msgType "dryrun"
  then ∃ rest, script w = RResult (Fulfilled result) :: rest
  else ∃ id rest, script w = RId (Fulfilled id) :: RResult (Fulfilled result) :: rest.

(** The tag [key] of the first message. *)
Definition first_tag (key : string) (result : MessageResult) : option (option string) :=
  ms ← Messages result; m ← ms !! 0%nat; ts ← Tags m; last_value ts key.

(** The [Status] among the tags of the first message. *)
Definition status_of_first (result : MessageResult) : option (option string) :=
  first_tag "Status" result.

(** The [Data] of the first message. *)
Definition first_data (result : MessageResult) : option JSValue :=
  ms ← Messages result; m ← ms !! 0%nat; Some (Data m).

(** A result that [execute] hands on with [checkStatus] set. *)
Definition accepted (result : MessageResult) : Prop :=
  truthy (Error result) = false
  ∧ (status_of_first result = None ∨ status_of_first result = Some (Some "200")).

(** The cached count of pending tasks says that there is work. *)
Definition reports_work (count : JSValue) : Prop :=
  (Hb.cached count ≫= Request.above_zero) = Normal true.

Definition is_call (ev : Event) : bool :=
  match ev with
  | EvLog _ _ _ | EvConsole _ | EvSleep _ => false
  | _ => true
  end.

(** The calls to the network in a trace, in order. *)
Definition calls_of (tr : list Event) : list Event := List.filter is_call tr.

(** The calls of [utils/request.ts] and of the inference client. *)
Definition check_call (cfg : Config) : Event :=
  EvAxiosGet (HYPERBEAM_URL cfg +:+ "/" +:+ Request.PoolProcess cfg
              +:+ "~process@1.0/now/" +:+ "pending_taskcount") [] None.
Definition fetch_call (cfg : Config) : Event :=
  EvRequestHB (Request.PoolProcess cfg)
    [("Action", JStr "Get-Pending-Task"); ("Nodeid", JStr (NODE_ID cfg))] None.
Definition infer_call (cfg : Config) (query : list (string * string)) : Event :=
  EvAxiosGet (inference_url cfg) query (Some 120000).
Definition submit_call (cfg : Config) (ref output : JSValue) : Event :=
  EvRequestHB (Request.PoolProcess cfg)
    [("Action", JStr "Task-Response"); ("X-Oracle-Node-Id", JStr (NODE_ID cfg));
     ("X-Reference", ref)]
    (Some (JObj [("output", output)])).

(** The calls of the [AOProcess] loop. *)
Definition ao_check (cfg : Config) : Event :=
  EvDryrun (MkInput (POOL_PROCESS_ID cfg) (Some "null")
              [MkTag "Action" (Some "Has-Pending-Task")] None).
Definition ao_fetch (cfg : Config) : Event :=
  EvMessage (MkInput (POOL_PROCESS_ID cfg) (Some "null")
               [MkTag "Action" (Some "Get-Pending-Task");
                MkTag "NodeID" (Some (NODE_ID cfg))] None).
Definition ao_submit (cfg : Config) (ref : string) (body : option string) : Event :=
  EvMessage (MkInput (POOL_PROCESS_ID cfg) body
               [MkTag "Action" (Some "Task-Response");
                MkTag "X-Oracle-Node-Id" (Some (NODE_ID cfg));
                MkTag "X-Reference" (Some ref)] None).

(** The payload [{"ref":"t1","prompt":"hi"}] and the task it denotes. *)
Definition payload_t1 : string :=
  "{" +:+ quoted "ref" +:+ ":" +:+ quoted "t1" +:+ ","
      +:+ quoted "prompt" +:+ ":" +:+ quoted "hi" +:+ "}".
Definition task_t1 : JSValue := JObj [("ref", JStr "t1"); ("prompt", JStr "hi")].

(** A reply whose only message has the tag [Code] and the data [d]. *)
Definition coded (code : string) (d : JSValue) : MessageResult :=
  MkResult JUndefined (Some [MkMessage (Some [MkTag "Code" (Some code)]) d]) [] JUndefined.

Definition cfg1 : Config := MkConfig "pool-1" "http://localhost:10000" 1000 "node-1".

(** Two messages: the first without [Status], the second with [Status] 500. *)
Definition late_failure : MessageResult :=
  MkResult JUndefined
    (Some [MkMessage (Some [MkTag "Code" (Some "200")]) (JStr "first");
           MkMessage (Some [MkTag "Status" (Some "500")]) (JStr "second")])
    [] JUndefined.

(** A result with an error and a first message of [Status] 500. *)
Definition failed_twice : MessageResult :=
  MkResult JUndefined
    (Some [MkMessage (Some [MkTag "Status" (Some "500")]) (JStr "busy")])
    [] (JStr "out of gas").

(** The waits of a trace, in order. *)
Definition waits_of (tr : list Event) : list Z :=
  omap (fun ev => match ev with EvSleep ms => Some ms | _ => None end) tr.

Definition not_sleep (ev : Event) : Prop :=
  match ev with EvSleep _ => False | _ => True end.

(** [m] neither waits nor ends the process. *)
Definition busy {A} (m : M A) : Prop :=
  ∀ w, ∃ evs, trace (m w).2 = trace w ++ evs ∧ Forall not_sleep evs
              ∧ ∀ n, (m w).1 ≠ Exited n.

(** [m] does not end the process; when it returns, it has waited once, for
    [p], as the last thing it did; when it throws, it has not waited. *)
Definition waits_at_end {A} (p : Z) (m : M A) : Prop :=
  ∀ w, ∃ evs, Forall not_sleep evs ∧
    match (m w).1 with
    | Returned _ => trace (m w).2 = trace w ++ evs ++ [EvSleep p]
    | Thrown _ => trace (m w).2 = trace w ++ evs
    | Exited _ => False
    end.

(** The same, for a piece that may also end the process, with exit code 1 and
    without a wait. *)
Definition waits_or_exits {A} (p : Z) (m : M A) : Prop :=
  ∀ w, ∃ evs, Forall not_sleep evs ∧
    match (m w).1 with
    | Returned _ => trace (m w).2 = trace w ++ evs ++ [EvSleep p]
    | Thrown _ => trace (m w).2 = trace w ++ evs
    | Exited n => n = 1 ∧ trace (m w).2 = trace w ++ evs
    end.

(** The query of the inference call for the task t1 when the task has no
    [config] of its own. *)
Definition default_query : list (string * string) :=
  [("prompt", "hi");
   ("config", match Index.default_config with JStr s => s | _ => "" end)].

(** What the loop does up to the fetch, and what its [catch] does. *)
Definition fetching (cfg : Config) : list Event :=
  [EvLog debug "Requesting pending task from Pool..." []; check_call cfg; fetch_call cfg].
Definition caught (cfg : Config) (e : JSError) : list Event :=
  [EvLog error "Error in main loop" [("error", JStr (err_message e))];
   EvSleep (POLL_INTERVAL cfg)].

(** The message [execute] builds from tags and encoded data. *)
Definition owner_of (tags : list (string * JSValue)) : option JSValue :=
  let owner := default JUndefined (own tags "Owner") in
  if truthy owner then Some owner else None.
Definition input_of (p : string) (tags : list (string * JSValue)) (d : option string)
  : MessageInput :=
  MkInput p d (map tag_of tags) (owner_of tags).

(** The same for the [AOProcess] loop: up to the fetched result, the [if] on
    its code, and the steps around the inference of the task t1. *)
Definition ao_fetching (cfg : Config) (id : string) : list Event :=
  [EvLog debug "Requesting pending task from Pool..." []; ao_check cfg; ao_fetch cfg;
   EvResult id (POOL_PROCESS_ID cfg)].

Definition dispatch (cfg : Config) (poolProcess : AOProcess.AOProcess)
    (result : MessageResult) : M unit :=
  let code := first_tag "Code" result in
  if is_lit code "200" then AOIndex.process_task cfg poolProcess result
  else if is_lit code "204" then log info "No pending tasks available" []
  else if is_lit code "403" then
    log error "Oracle not authorized. Make sure this Node ID is registered in the Pool" [];;
    exit 1
  else log warn "Unexpected response from Pool" [("code", tag_value code)].

Definition submit_tags (cfg : Config) : list (string * JSValue) :=
  [("Action", JStr "Task-Response"); ("X-Oracle-Node-Id", JStr (NODE_ID cfg));
   ("X-Reference", JStr "t1")].

Definition ao_inferring (cfg : Config) : list Event :=
  [EvLog info "Received task t1" [("prompt", JStr "hi")];
   EvLog info "Processing task t1 with HyperBEAM" [];
   EvLog info "Sending inference request to HyperBEAM" [("prompt", JStr "hi")];
   infer_call cfg [("prompt", "hi")]].

Definition ao_submitting (cfg : Config) (out : JSValue) : M unit :=
  log info "Task t1 completed, sending response..." [];;
  AOProcess.sendMessage (AOIndex.poolProcess cfg) (submit_tags cfg)
    (JObj [("output", out)]) true;;
  log info "Task t1 response sent successfully" [].

(** [m] does not read the trace and only adds to it: its run from any trace
    is its run from the empty one, moved. *)
Definition extend {A} (tr : list Event) (r : Outcome A * World) : Outcome A * World :=
  (r.1, MkWorld (script r.2) (tr ++ trace r.2)).
Definition framed {A} (m : M A) : Prop :=
  ∀ s tr, m (MkWorld s tr) = extend tr (m (MkWorld s [])).

(** [pre] is a prefix of the trace after [m]. *)
Definition reaches {A} (pre : list Event) (m : M A) (w : World) : Prop :=
  ∃ more, trace (m w).2 = pre ++ more.

(** A structure that contains itself, with and without an own [toString]. *)
Definition self_containing : JSValue := JObj [("self", JCycle 0)].
Definition self_containing_opaque : JSValue :=
  JObj [("toString", JInt 1); ("self", JCycle 0)].

Definition a1_text : string := "{" +:+ quoted "a" +:+ ":1}".

(** *** Calls, console lines and the parts of [execute] *)

(** [m] makes no call to the outside, takes no reply and does not end the
    process. *)
Definition quiet {A} (m : M A) : Prop :=
  ∀ w, ∃ evs, (m w).2 = MkWorld (script w) (trace w ++ evs) ∧ calls_of evs = []
              ∧ ∀ n, (m w).1 ≠ Exited n.

(** What [execute] does once the result is there, and what its [catch] does. *)
Definition settle (self : AOProcess.AOProcess) (msgType : string)
    (tags : list (string * JSValue)) (data : JSValue) (checkStatus : bool)
    (msgResult : MessageResult) : M MessageResult :=
  AOProcess.handleResult self msgType msgResult tags data checkStatus;;
  (if AOProcess.isDevEnvironment self
   then console ("AO " +:+ msgType +:+ " completed")
   else mret tt);;
  mret msgResult.

Definition rethrow (self : AOProcess.AOProcess) (msgType : string)
    (tags : list (string * JSValue)) (e : JSError) : M MessageResult :=
  (if AOProcess.isDevEnvironment self
   then AOProcess.logError tags msgType;; console (err_message e)
   else mret tt);;
  throw e.

(** A trace without its console lines. *)
Definition without_console (tr : list Event) : list Event :=
  List.filter (fun ev => match ev with EvConsole _ => false | _ => true end) tr.

(** [m1] and [m2] do the same, console lines apart. *)
Definition same_but_console {A} (m1 m2 : M A) : Prop :=
  ∀ w1 w2, script w1 = script w2 →
           without_console (trace w1) = without_console (trace w2) →
           (m1 w1).1 = (m2 w2).1
           ∧ script (m1 w1).2 = script (m2 w2).2
           ∧ without_console (trace (m1 w1).2) = without_console (trace (m2 w2).2).

(** *** Tasks and replies *)

(** The query [q] begins with the prompt of [task]. *)
Definition asks_for (task : JSValue) (q : list (string * string)) : Prop :=
  ∃ prompt extra,
    get task "prompt" = Normal (JStr prompt) ∧ q = ("prompt", prompt) :: extra.

(** The world after a fetch for [nodeID] answered by the first reply. *)
Definition fetched_by (cfg : Config) (nodeID : string) (rest : list Reply)
    (tr : list Event) : World :=
  MkWorld rest (tr ++ [EvRequestHB (Request.PoolProcess cfg)
                         [("Action", JStr "Get-Pending-Task"); ("Nodeid", JStr nodeID)]
                         None]).

(** No tag [Error] with a text. *)
Definition no_error_tag (ts : list AOMessageTag) : Prop :=
  ∀ s, last_value ts "Error" = Some (Some s) → s = "".

(** A reply of an unknown code that says what went wrong. *)
Definition refused : MessageResult :=
  MkResult JUndefined
    (Some [MkMessage (Some [MkTag "Code" (Some "500"); MkTag "Error" (Some "pool is closed")])
             (JStr "details")])
    [] JUndefined.


(** *** JSON texts *)

(** Where a JSON number ends: at the end of the text or at a character that
    continues neither its digits, nor a fraction, nor an exponent. *)
Definition ends_number (rest : string) : bool :=
  match rest with
  | EmptyString => true
  | String c _ =>
      match digit_val c with
      | Some _ => false
      | None => negb (Ascii.eqb c "." || Ascii.eqb c "e" || Ascii.eqb c "E")
      end
  end.

(** Whether a key is an array index. *)
Definition is_index (k : string) : bool :=
  match array_index k with Some _ => true | None => false end.

(** Values that a JSON text stands for: no [undefined], BigInt or back
    reference; numbers are integers below [10^21]; the keys of an object are
    distinct and none of them is an array index. *)
Fixpoint plain (v : JSValue) : bool :=
  match v with
  | JNull | JBool _ | JStr _ => true
  | JNum n => (exp10 n =? 0) && (- 10 ^ 21 <? mant n) && (mant n <? 10 ^ 21)
  | JArr es => forallb plain es
  | JObj ps => forallb (fun kv => plain kv.2 && negb (is_index kv.1)) ps
               && bool_decide (NoDup ps.*1)
  | JUndefined | JBigInt _ | JCycle _ => false
  end.

(** The texts [JSON.stringify] joins for an array and for an object. *)
Fixpoint element_texts (es : list JSValue) : Completion (list string) :=
  match es with
  | [] => Normal []
  | x :: rest =>
      s ← JSON_stringify x;
      r ← element_texts rest;
      Normal (default "null" s :: r)
  end.

Fixpoint member_texts (ps : list (string * JSValue)) : Completion (list string) :=
  match ps with
  | [] => Normal []
  | (k, x) :: rest =>
      s ← JSON_stringify x;
      r ← member_texts rest;
      Normal (match s with
              | Some t => (QuoteJSONString k +:+ ":" +:+ t) :: r
              | None => r
              end)
  end.

(** The first character of the text of a value: not white space, and not a
    closing bracket. *)
Definition starts_value (s : string) : bool :=
  match s with
  | EmptyString => false
  | String c _ => negb (is_ws c) && negb (Ascii.eqb c "]") && negb (Ascii.eqb c "}")
  end.

(** What is asked of the text [s] of a value [v]. *)
Definition reads_back (v : JSValue) (s : string) : Prop :=
  starts_value s = true
  ∧ ∀ fuel rest, (2 * String.length s ≤ fuel)%nat → ends_number rest = true →
                 parse_value fuel (s +:+ rest) = Some (v, rest).

(** The text of a member and what it stands for. *)
Definition member_reads_back (kv : string * JSValue) (p : string) : Prop :=
  ∃ t, p = QuoteJSONString kv.1 +:+ ":" +:+ t ∧ reads_back kv.2 t
       ∧ is_index kv.1 = false.

(** *** Requests, responses and the [.env] file *)

(** The value of the last entry named [k]. *)
Fixpoint last_entry {A} (kvs : list (string * A)) (k : string) : option A :=
  match kvs with
  | [] => None
  | (k', v) :: rest =>
      match last_entry rest k with
      | Some w => Some w
      | None => if String.eqb k' k then Some v else None
      end
  end.

(** The text that [params2] keeps for a value. *)
Definition text_of (v : JSValue) : option JSValue :=
  match HbRequest.as_text v with Normal t => Some t | Throw _ => None end.

(** The two envelopes of a response: that of a [hyper-aos] process, and that
    of the others. *)
Definition hyper_aos (fields : list (string * JSValue)) : JSValue :=
  JObj (("info", JStr "hyper-aos") :: fields).
Definition json_of (fields : list (string * JSValue)) : JSValue :=
  JObj [("json", JObj fields)].

(** What a call of [requestHB] hands to [ao.request]. *)
Definition wire (ev : Event) : Completion (list (string * JSValue)) :=
  match ev with
  | EvRequestHB processId tags data => HbRequest.request processId tags data
  | _ => Normal []
  end.

(** A text without a line terminator. *)
Fixpoint one_line (s : string) : bool :=
  match s with
  | EmptyString => true
  | String _ rest => negb (line_terminator s) && one_line rest
  end.

(** The end of a line as the pattern takes it: a line feed, a carriage return
    with a line feed, or the end of the text. *)
Definition crlf : string := String cr (String lf "").
Definition line_end (eol post : string) : Prop :=
  eol = String lf "" ∨ eol = crlf ∨ (eol = "" ∧ post = "").

(** The continuation that ends a match. *)
Definition final (s : string) (caps : list string) : option (string * list string) :=
  Some (s, caps).

(** The end of the pattern, [(\r?\n|$)] *)
Definition ending : Regex :=
  Group (Alt (Seq (Opt (Lit (String cr ""))) (Lit (String lf ""))) Eol).

(* ===================================================================== *)
(** ** Properties of the result decoder *)
(* ===================================================================== *)

Lemma foldl_assign_lookup (ts : list AOMessageTag) (acc : TagRecord) (k : string) :
  foldl assign acc ts !! k =
    if String.eqb k "__proto__" then acc !! k
    else match last_value ts k with
         | Some v => Some v
         | None => acc !! k
         end.
Proof.
  revert acc. induction ts as [|t ts IH]; intros acc; simpl.
  - by destruct (String.eqb k "__proto__").
  - rewrite IH. destruct (String.eqb k "__proto__") eqn:Hk.
    + apply String.eqb_eq in Hk as ->. unfold assign.
      destruct (String.eqb (name t) "__proto__") eqn:Hn; [done|].
      apply String.eqb_neq in Hn. by rewrite lookup_insert_ne.
    + destruct (last_value ts k); [done|]. unfold assign.
      destruct (String.eqb (name t) "__proto__") eqn:Hn.
      * apply String.eqb_eq in Hn. rewrite Hn, String.eqb_sym, Hk. done.
      * destruct (String.eqb (name t) k) eqn:Hnk.
        -- apply String.eqb_eq in Hnk as ->. by rewrite lookup_insert_eq.
        -- apply String.eqb_neq in Hnk. by rewrite lookup_insert_ne.
Qed.

(** The decoded record holds, for every name but [__proto__], the value of
    the last tag of that name. *)
Lemma reduce_lookup (ts : list AOMessageTag) (k : string) :
  reduce ts !! k = if String.eqb k "__proto__" then None else last_value ts k.
Proof.
  unfold reduce. rewrite foldl_assign_lookup, lookup_empty.
  destruct (String.eqb k "__proto__"); [done|]. by destruct (last_value ts k).
Qed.

Lemma at_index_None {A} (l : list A) (idx : Z) :
  at_index l idx = None ↔ (idx <? 0) || (Z.of_nat (List.length l) <=? idx) = true.
Proof.
  unfold at_index. destruct (idx <? 0) eqn:Hneg; simpl; [done|].
  apply Z.ltb_ge in Hneg. rewrite lookup_ge_None, Z.leb_le.
  rewrite <- (Z2Nat.id idx) at 2 by done. rewrite <- Nat2Z.inj_le. done.
Qed.

(** C9.  [extractMessage(msg, idx)] hands back the tags of the message at
    [idx] decoded into a record (last tag of a name wins) together with its
    data.  It fails with "Index out of bounds" exactly when [Messages] is
    there and has no message at [idx], and with "Invalid message format"
    exactly when [msg] or its [Messages] field is missing. *)
Theorem extractMessage_decodes_or_fails (msg : option MessageResult) (idx : Z) :
  (Hb.extractMessage msg idx = Throw Hb.invalid_format
     ↔ msg = None ∨ ∃ r, msg = Some r ∧ Messages r = None)
  ∧ (Hb.extractMessage msg idx = Throw Hb.out_of_bounds
     ↔ ∃ r ms, msg = Some r ∧ Messages r = Some ms ∧ at_index ms idx = None)
  ∧ (∀ r ms m ts,
       msg = Some r → Messages r = Some ms → at_index ms idx = Some m →
       Tags m = Some ts →
       Hb.extractMessage msg idx = Normal (reduce ts, Data m)
       ∧ ∀ k, k ≠ "__proto__" → reduce ts !! k = last_value ts k).
Proof.
  split; [|split].
  - destruct msg as [r|]; simpl; [|by split; [left|]].
    destruct (Messages r) as [ms|] eqn:Hms.
    + split.
      * intros H. exfalso. revert H.
        destruct ((idx <? 0) || (Z.of_nat (List.length ms) <=? idx)); [done|].
        destruct (ms !! Z.to_nat idx) as [m|]; [|done]. by destruct (Tags m).
      * intros [?|(r' & [= <-] & ?)]; congruence.
    + split; [|done]. intros _. right. by exists r.
  - destruct msg as [r|]; simpl; [|split; [done|by intros (? & ? & ? & _)]].
    destruct (Messages r) as [ms|] eqn:Hms.
    + destruct ((idx <? 0) || (Z.of_nat (List.length ms) <=? idx)) eqn:Hb.
      * split; [|done]. intros _. exists r, ms. split; [done|]. split; [done|]. by apply at_index_None.
      * split.
        -- destruct (ms !! Z.to_nat idx) as [m|]; [|done]. by destruct (Tags m).
        -- intros (r' & ms' & [= <-] & Hms' & Hat). rewrite Hms in Hms'.
           injection Hms' as <-. apply at_index_None in Hat. congruence.
    + split; [done|]. intros (r' & ms' & [= <-] & ? & _). congruence.
  - intros r ms m ts -> Hms Hat Hts. split.
    + simpl. rewrite Hms.
      destruct ((idx <? 0) || (Z.of_nat (List.length ms) <=? idx)) eqn:Hb.
      * apply at_index_None in Hb. congruence.
      * unfold at_index in Hat. apply orb_false_iff in Hb as [Hneg _].
        rewrite Hneg in Hat. by rewrite Hat, Hts.
    + intros k Hk. rewrite reduce_lookup.
      apply String.eqb_neq in Hk. by rewrite Hk.
Qed.

Lemma extractMessage_decodes_or_fails_witness :
  Hb.extractMessage (Some late_failure) 1
  = Normal (reduce [MkTag "Status" (Some "500")], JStr "second")
  ∧ reduce [MkTag "Status" (Some "500")] !! "Status" = Some (Some "500").
Proof.
  destruct (extractMessage_decodes_or_fails (Some late_failure) 1) as (_ & _ & H).
  destruct (H late_failure
              [MkMessage (Some [MkTag "Code" (Some "200")]) (JStr "first");
               MkMessage (Some [MkTag "Status" (Some "500")]) (JStr "second")]
              (MkMessage (Some [MkTag "Status" (Some "500")]) (JStr "second"))
              [MkTag "Status" (Some "500")]) as [H1 H2]; try reflexivity.
  split; [exact H1|]. rewrite H2; [reflexivity|discriminate].
Defined.

(* ===================================================================== *)
(** ** Properties of the tag codec *)
(* ===================================================================== *)

Lemma join_returns (es : list JSValue) :
  Forall (fun v => coercible v = true → returns (String_ v)) es →
  forallb coercible es = true → returns (join String_ es).
Proof.
  induction 1 as [|x rest Hx _ IH]; simpl; [by eexists|].
  intros [Hcx Hrest]%andb_prop.
  assert (returns match x with
                  | JUndefined | JNull => Normal ""
                  | _ => String_ x
                  end) as [s Hs].
  { destruct x; try (by eexists); by apply Hx. }
  destruct rest as [|y rest']; [by exists s|].
  destruct (IH Hrest) as [r Hr]. rewrite Hs. simpl in *. rewrite Hr. by eexists.
Qed.

Lemma String_returns (v : JSValue) : coercible v = true → returns (String_ v).
Proof.
  induction v as [| | | | | |es IH|ps _|] using JSValue_nested_ind;
    simpl; intros Hc; try (by eexists).
  - by apply join_returns.
  - apply negb_true_iff in Hc. rewrite Hc. by eexists.
Qed.

Lemma toString_returns_iff (v : JSValue) :
  returns (AOProcess.toString v) ↔
  is_string v = true ∨ is_number v = true ∨ returns (JSON_stringify v) ∨ returns (String_ v).
Proof.
  destruct (is_string v) eqn:Hs.
  { destruct v; try discriminate. split; [by left | by eexists]. }
  destruct (is_number v) eqn:Hn.
  { destruct v; try discriminate. split; [by right; left | by eexists]. }
  assert (AOProcess.toString v =
          try_catch (JSON_stringify v) (fun _ => s ← String_ v; Normal (Some s))) as ->
    by (by destruct v).
  unfold returns. destruct (JSON_stringify v) as [r|e]; simpl.
  - split; [intros _; right; right; left; by eexists | intros _; by eexists].
  - destruct (String_ v) as [t|e']; simpl.
    + split; [intros _; do 3 right; by eexists | intros _; by eexists].
    + split; [by intros [? ?] | intros [?|[?|[[? ?]|[? ?]]]]; done].
Qed.

(** C7, as the code has it.  [toString] hands a string back unchanged and a
    number in its decimal form; any other value is serialized as JSON and,
    when that throws, converted with [String].  So it returns exactly when
    one of the two succeeds: on every primitive, and on every array or object
    whose string conversion is defined, whether it contains itself or not. *)
Theorem toString_returns_when_coercible :
  (∀ s, AOProcess.toString (JStr s) = Normal (Some s))
  ∧ (∀ n, AOProcess.toString (JNum n) = Normal (Some (Number_toString n)))
  ∧ (∀ v, is_string v = false → is_number v = false →
          AOProcess.toString v =
            match JSON_stringify v with
            | Normal r => Normal r
            | Throw _ => s ← String_ v; Normal (Some s)
            end)
  ∧ (∀ v, returns (AOProcess.toString v) ↔
          is_string v = true ∨ is_number v = true
          ∨ returns (JSON_stringify v) ∨ returns (String_ v))
  ∧ (∀ v, coercible v = true → returns (AOProcess.toString v))
  ∧ (∀ v, is_primitive v = true → returns (AOProcess.toString v)).
Proof.
  repeat split; try done.
  - intros v Hs Hn. by destruct v.
  - by apply toString_returns_iff.
  - by apply toString_returns_iff.
  - intros v Hc. apply toString_returns_iff. do 3 right. by apply String_returns.
  - intros v Hp. apply toString_returns_iff. do 3 right. apply String_returns.
    by destruct v.
Qed.

Lemma toString_returns_when_coercible_witness :
  coercible self_containing = true
  ∧ AOProcess.toString self_containing = Normal (Some "[object Object]").
Proof.
  split; [reflexivity|].
  destruct toString_returns_when_coercible as (_ & _ & _ & _ & H & _).
  destruct (H self_containing eq_refl) as [a Ha]. rewrite Ha.
  vm_compute in Ha. injection Ha as <-. reflexivity.
Defined.

(** C7 fails as stated: on a structure that contains itself and has an own
    property [toString], serialization and string conversion both throw, and
    so does [toString]. *)
Lemma toString_throws_on_opaque_cycle :
  AOProcess.toString self_containing_opaque = Throw cannot_convert
  ∧ ¬ returns (AOProcess.toString self_containing_opaque).
Proof. split; [reflexivity|]. by intros [a Ha]. Qed.

Lemma toString_primitive (v : JSValue) :
  is_primitive v = true → returns (AOProcess.toString v).
Proof.
  intros Hp. apply toString_returns_iff. do 3 right. apply String_returns.
  by destruct v.
Qed.

Lemma obj2tags_primitive (m : list (string * JSValue)) :
  Forall (fun kv => is_primitive kv.2 = true) m →
  AOProcess.obj2tags m = Normal (map tag_of m).
Proof.
  induction 1 as [|[k v] rest Hv _ IH]; simpl; [done|].
  destruct (toString_primitive v Hv) as [o Ho].
  unfold tag_of at 1. simpl. rewrite Ho. simpl. by rewrite IH.
Qed.

Lemma last_value_tag_of (m : list (string * JSValue)) (k : string) :
  NoDup m.*1 →
  last_value (map tag_of m) k = value ∘ tag_of ∘ pair k <$> (list_to_map m : gmap _ _) !! k.
Proof.
  induction m as [|[k' v] rest IH]; simpl; [done|].
  intros [Hnotin Hnd]%NoDup_cons. rewrite (IH Hnd).
  destruct (decide (k' = k)) as [->|Hne].
  - rewrite lookup_insert_eq.
    rewrite (not_elem_of_list_to_map_1 _ _ Hnotin). simpl.
    by rewrite String.eqb_refl.
  - rewrite lookup_insert_ne by done.
    destruct (list_to_map rest !! k); simpl; [done|].
    apply String.eqb_neq in Hne. by rewrite Hne.
Qed.

Lemma getTags_carrying (ts : list AOMessageTag) :
  AOProcess.getTagsFromMessage (Some (carrying ts)) 0 = Some (reduce ts).
Proof. reflexivity. Qed.

(** C5, as the code has it.  For a mapping of string keys (none of them
    [__proto__]) to primitive values, decoding the encoded tags gives every
    key the string form of its value; the mapping itself comes back when its
    values are strings. *)
Theorem decode_encode_stringifies (m : list (string * JSValue)) :
  NoDup m.*1 →
  "__proto__" ∉ m.*1 →
  Forall (fun kv => is_primitive kv.2 = true) m →
  ∃ r, roundtrip m = Normal (Some r)
       ∧ as_values r = stringified <$> as_record m
       ∧ (Forall (fun kv => is_string kv.2 = true) m → as_values r = as_record m).
Proof.
  intros Hnd Hproto Hprim. exists (reduce (map tag_of m)).
  assert (as_values (reduce (map tag_of m)) = stringified <$> as_record m) as Heq.
  { apply map_eq. intros k. unfold as_values, as_record.
    rewrite !lookup_fmap, reduce_lookup.
    destruct (String.eqb k "__proto__") eqn:Hk.
    - apply String.eqb_eq in Hk as ->.
      by rewrite (not_elem_of_list_to_map_1 _ _ Hproto).
    - rewrite (last_value_tag_of _ _ Hnd).
      destruct (list_to_map m !! k) as [v|]; simpl; [|done].
      unfold stringified. by destruct (AOProcess.toString v) as [[?|]|]. }
  split; [|split; [done|]].
  - unfold roundtrip. rewrite (obj2tags_primitive _ Hprim). simpl.
    by rewrite getTags_carrying.
  - intros Hstr. rewrite Heq. apply map_eq. intros k. rewrite lookup_fmap.
    unfold as_record.
    destruct (list_to_map m !! k) as [v|] eqn:Hv; simpl; [|done].
    apply elem_of_list_to_map_2 in Hv.
    rewrite Forall_forall in Hstr. specialize (Hstr _ Hv). simpl in Hstr.
    by destruct v.
Qed.

Lemma decode_encode_stringifies_witness :
  ∃ r, roundtrip [("Action", JStr "Task-Response"); ("X-Reference", JStr "t1")]
         = Normal (Some r)
       ∧ as_values r
         = as_record [("Action", JStr "Task-Response"); ("X-Reference", JStr "t1")].
Proof.
  destruct (decode_encode_stringifies
              [("Action", JStr "Task-Response"); ("X-Reference", JStr "t1")])
    as (r & Hr & _ & Hs).
  - apply (bool_decide_unpack _). vm_compute. reflexivity.
  - apply (bool_decide_unpack _). vm_compute. reflexivity.
  - repeat constructor.
  - exists r. split; [done|]. apply Hs. repeat constructor.
Defined.

(** C5 fails as stated: a number is a primitive value, and it comes back as
    a string. *)
Lemma decode_encode_changes_number :
  is_primitive (JInt 1) = true
  ∧ roundtrip [("a", JInt 1)] = Normal (Some {["a" := Some "1"]})
  ∧ as_values {["a" := Some "1"]} ≠ as_record [("a", JInt 1)].
Proof.
  split; [done|]. split; [reflexivity|].
  intros H. apply (f_equal (fun x => x !! "a")) in H.
  unfold as_values, as_record in H. rewrite lookup_fmap in H.
  rewrite lookup_singleton_eq in H. simpl in H.
  rewrite lookup_insert_eq in H. discriminate.
Qed.

(* ===================================================================== *)
(** ** Properties of [getDataFromMessage] *)
(* ===================================================================== *)

(** C8.  [getDataFromMessage] never throws: it returns the data of the
    selected message parsed as JSON, and the raw data unchanged when parsing
    fails.  The text of [{a:1}] gives that object, [plain] gives [plain]. *)
Theorem getDataFromMessage_parses_or_keeps_raw :
  (∀ message index, returns (AOProcess.getDataFromMessage message index))
  ∧ (∀ message index,
       AOProcess.getDataFromMessage message index =
         Normal match JSON_parse (raw_data message index) with
                | Normal v => v
                | Throw _ => raw_data message index
                end)
  ∧ (∀ out tags rest spawns err,
       AOProcess.getDataFromMessage
         (Some (MkResult out (Some (MkMessage tags (JStr a1_text) :: rest)) spawns err)) 0
       = Normal (JObj [("a", JInt 1)]))
  ∧ (∀ out tags rest spawns err,
       AOProcess.getDataFromMessage
         (Some (MkResult out (Some (MkMessage tags (JStr "plain") :: rest)) spawns err)) 0
       = Normal (JStr "plain")).
Proof.
  assert (∀ message index,
            AOProcess.getDataFromMessage message index =
              Normal match JSON_parse (raw_data message index) with
                     | Normal v => v
                     | Throw _ => raw_data message index
                     end) as Hform.
  { intros message index. unfold AOProcess.getDataFromMessage, raw_data.
    by destruct (JSON_parse _). }
  repeat split; try done.
  intros message index. rewrite Hform. by eexists.
Qed.

(* ===================================================================== *)
(** ** Properties of the process client *)
(* ===================================================================== *)

Lemma declared_strings_primitive (tags : list (string * JSValue)) :
  declared_strings tags → Forall (fun kv => is_primitive kv.2 = true) tags.
Proof.
  intros H. eapply Forall_impl; [exact H|].
  intros [k v] Hs. simpl in *. by destruct v.
Qed.

Lemma own_elem {A} (ps : list (string * A)) (k : string) (v : A) :
  own ps k = Some v → (k, v) ∈ ps.
Proof.
  induction ps as [|[k' v'] rest IH]; simpl; [done|].
  destruct (String.eqb k' k) eqn:Hk.
  - apply String.eqb_eq in Hk as ->. intros [= ->]. by left.
  - intros H. right. by apply IH.
Qed.

Lemma action_line_returns (tags : list (string * JSValue)) (suffix : string) :
  declared_strings tags → returns (AOProcess.action_line tags suffix).
Proof.
  intros Hd. unfold AOProcess.action_line.
  destruct (own tags "Action") as [v|] eqn:Hv; [|by eexists].
  apply own_elem in Hv. unfold declared_strings in Hd.
  rewrite Forall_forall in Hd. specialize (Hd _ Hv). simpl in Hd.
  destruct v; try discriminate. by eexists.
Qed.

(** What [handleResult] does when the error field is set. *)
Lemma handleResult_error (self : AOProcess.AOProcess) (msgType : string)
    (result : MessageResult) (tags : list (string * JSValue)) (data : JSValue)
    (checkStatus : bool) (w : World) :
  truthy (Error result) = true →
  AOProcess.handleResult self msgType result tags data checkStatus w =
    (match AOProcess.toString (Error result) with
     | Normal s => Thrown (MkError GenericError (default "" s))
     | Throw e => Thrown e
     end, w).
Proof.
  intros Ht. unfold AOProcess.handleResult. rewrite Ht.
  unfold mbind, M_bind, lift, throw.
  by destruct (AOProcess.toString (Error result)).
Qed.

(** The part of [execute] up to the reply. *)
Lemma execute_delivered (self : AOProcess.AOProcess) (msgType : string)
    (tags : list (string * JSValue)) (data : JSValue) (checkStatus : bool)
    (result : MessageResult) (w : World) :
  declared_strings tags →
  returns (AOProcess.toString data) →
  delivered msgType result w →
  ∃ w1, AOProcess.execute self msgType tags data checkStatus w =
    match AOProcess.handleResult self msgType result tags data checkStatus w1 with
    | (Returned _, w2) =>
        if AOProcess.isDevEnvironment self
        then (Returned result, MkWorld (script w2)
                (trace w2 ++ [EvConsole ("AO " +:+ msgType +:+ " completed")]))
        else (Returned result, w2)
    | (Thrown e, w2) =>
        if AOProcess.isDevEnvironment self
        then ((AOProcess.logError tags msgType;; console (err_message e));; throw e) w2
        else (Thrown e, w2)
    | (Exited n, w2) => (Exited n, w2)
    end.
Proof.
  intros Hd [d Hdata] Hdel.
  pose proof (obj2tags_primitive _ (declared_strings_primitive _ Hd)) as Hts.
  unfold AOProcess.execute, tryM, delivered in *.
  unfold mbind at 1, M_bind at 1. unfold lift at 1. rewrite Hts.
  unfold mbind at 1, M_bind at 1. unfold lift at 1. rewrite Hdata.
  destruct (String.eqb msgType "dryrun").
  - destruct Hdel as [rest Hs]. eexists.
    unfold mbind at 1, M_bind at 1. unfold AOProcess.dryrun, call. rewrite Hs. simpl.
    unfold mbind at 1, M_bind at 1.
    lazymatch goal with
    | |- context [AOProcess.handleResult _ _ _ _ _ _ (MkWorld ?a ?b)] =>
        instantiate (1 := MkWorld a b)
    end.
    destruct (AOProcess.handleResult _ _ _ _ _ _ _) as [[[]|e|n] w2];
      destruct (AOProcess.isDevEnvironment self); reflexivity.
  - destruct Hdel as (id & rest & Hs). eexists.
    unfold mbind at 1, M_bind at 1. unfold mbind at 1, M_bind at 1.
    unfold AOProcess.message, AOProcess.fetchResult, call. rewrite Hs. simpl.
    unfold mbind at 1, M_bind at 1.
    lazymatch goal with
    | |- context [AOProcess.handleResult _ _ _ _ _ _ (MkWorld ?a ?b)] =>
        instantiate (1 := MkWorld a b)
    end.
    destruct (AOProcess.handleResult _ _ _ _ _ _ _) as [[[]|e|n] w2];
      destruct (AOProcess.isDevEnvironment self); reflexivity.
Qed.

(** C2.  When the result carries a non-empty error, [handleResult] throws an
    error with that message before it looks at any tag, and [execute] fails
    with it, whatever [checkStatus] is and whatever the messages carry. *)
Theorem error_field_fails_execute (self : AOProcess.AOProcess) (msgType : string)
    (tags : list (string * JSValue)) (data : JSValue) (checkStatus : bool)
    (result : MessageResult) (s : string) (w : World) :
  Error result = JStr s → s ≠ "" →
  AOProcess.handleResult self msgType result tags data checkStatus w
    = (Thrown (MkError GenericError s), w)
  ∧ (declared_strings tags → returns (AOProcess.toString data) →
     delivered msgType result w →
     (AOProcess.execute self msgType tags data checkStatus w).1
       = Thrown (MkError GenericError s)).
Proof.
  intros Herr Hs.
  assert (truthy (Error result) = true) as Ht.
  { rewrite Herr. simpl. apply negb_true_iff. by apply String.eqb_neq. }
  assert (∀ w', AOProcess.handleResult self msgType result tags data checkStatus w'
                = (Thrown (MkError GenericError s), w')) as Hh.
  { intros w'. rewrite handleResult_error by done. by rewrite Herr. }
  split; [apply Hh|].
  intros Hd Hdata Hdel.
  destruct (execute_delivered self msgType tags data checkStatus result w Hd Hdata Hdel)
    as [w1 ->].
  rewrite Hh. destruct (AOProcess.isDevEnvironment self); [|done].
  destruct (action_line_returns tags (msgType +:+ " failed") Hd) as [line Hl].
  unfold AOProcess.logError, mbind, M_bind, lift. rewrite Hl. reflexivity.
Qed.

Lemma error_field_fails_execute_witness :
  (AOProcess.execute (AOProcess.new "pool" false) "dryrun"
     [("Action", JStr "Has-Pending-Task")] JNull false
     (MkWorld [RResult (Fulfilled failed_twice)] [])).1
  = Thrown (MkError GenericError "out of gas").
Proof.
  apply (error_field_fails_execute (AOProcess.new "pool" false) "dryrun"
           [("Action", JStr "Has-Pending-Task")] JNull false failed_twice
           "out of gas" (MkWorld [RResult (Fulfilled failed_twice)] [])).
  - reflexivity.
  - discriminate.
  - repeat constructor.
  - by eexists.
  - simpl. by eexists.
Defined.

Lemma getTags_first (result : MessageResult) :
  (rt ← AOProcess.getTagsFromMessage (Some result) 0; rt !! "Status")
  = status_of_first result.
Proof.
  unfold AOProcess.getTagsFromMessage, AOProcess.messageAt, status_of_first, first_tag,
    at_index.
  change (Z.to_nat 0) with 0%nat.
  simpl. destruct (Messages result) as [ms|]; simpl; [|done].
  destruct (ms !! 0%nat) as [m|]; simpl; [|done].
  destruct (Tags m) as [ts|]; simpl; [|done].
  by rewrite reduce_lookup.
Qed.

(** What [handleResult] does with a result that has no error and whose first
    message has no [Status] other than 200. *)
Lemma handleResult_passes (self : AOProcess.AOProcess) (msgType : string)
    (result : MessageResult) (tags : list (string * JSValue)) (data : JSValue)
    (checkStatus : bool) (w : World) :
  truthy (Error result) = false →
  status_of_first result = None ∨ status_of_first result = Some (Some "200") →
  AOProcess.handleResult self msgType result tags data checkStatus w =
    if AOProcess.isDevEnvironment self
    then AOProcess.logDebugInfo tags msgType data result w
    else (Returned tt, w).
Proof.
  intros Ht Hst. unfold AOProcess.handleResult. rewrite Ht.
  rewrite <- getTags_first in Hst.
  unfold mbind at 1 2, M_bind at 1 2, mret at 1, M_ret at 1.
  destruct (AOProcess.getTagsFromMessage (Some result) 0) as [rt|]; simpl in Hst.
  - assert (checkStatus && bool_decide (is_Some (rt !! "Status"))
            && negb (is_lit (rt !! "Status") "200") = false) as ->.
    { destruct Hst as [->| ->]; [|by destruct checkStatus, (bool_decide _)].
      rewrite bool_decide_eq_false_2; [by destruct checkStatus|]. by intros [? ?]. }
    by destruct (AOProcess.isDevEnvironment self).
  - by destruct (AOProcess.isDevEnvironment self).
Qed.

(** C10.  The status check of [handleResult] reads the tags of the message
    at index 0 only: when the result has no error and its first message has
    no [Status] tag, or [Status] 200, the check passes and [execute] returns
    the result, whatever the later messages carry. *)
Theorem status_check_reads_first_message_only (self : AOProcess.AOProcess)
    (msgType : string) (tags : list (string * JSValue)) (data : JSValue)
    (checkStatus : bool) (result : MessageResult) (w : World) :
  truthy (Error result) = false →
  status_of_first result = None ∨ status_of_first result = Some (Some "200") →
  declared_strings tags →
  (∃ w', AOProcess.handleResult self msgType result tags data checkStatus w
         = (Returned tt, w'))
  ∧ (returns (AOProcess.toString data) → delivered msgType result w →
     (AOProcess.execute self msgType tags data checkStatus w).1 = Returned result).
Proof.
  intros Ht Hst Hd.
  assert (∀ w0, ∃ w', AOProcess.handleResult self msgType result tags data checkStatus w0
                      = (Returned tt, w')) as Hh.
  { intros w0. rewrite handleResult_passes by done.
    destruct (AOProcess.isDevEnvironment self); [|by eexists].
    destruct (action_line_returns tags msgType Hd) as [line Hl].
    unfold AOProcess.logDebugInfo, mbind, M_bind, lift. rewrite Hl. by eexists. }
  split; [apply Hh|].
  intros Hdata Hdel.
  destruct (execute_delivered self msgType tags data checkStatus result w Hd Hdata Hdel)
    as [w1 ->].
  destruct (Hh w1) as [w' ->]. by destruct (AOProcess.isDevEnvironment self).
Qed.

Lemma status_check_reads_first_message_only_witness :
  (AOProcess.execute (AOProcess.new "pool" false) "message"
     [("Action", JStr "Get-Pending-Task")] JNull true
     (MkWorld [RId (Fulfilled "id-1"); RResult (Fulfilled late_failure)] [])).1
  = Returned late_failure.
Proof.
  apply (status_check_reads_first_message_only (AOProcess.new "pool" false) "message"
           [("Action", JStr "Get-Pending-Task")] JNull true late_failure
           (MkWorld [RId (Fulfilled "id-1"); RResult (Fulfilled late_failure)] [])).
  - reflexivity.
  - left. reflexivity.
  - repeat constructor.
  - by eexists.
  - simpl. by do 2 eexists.
Defined.

(* ===================================================================== *)
(** ** Properties of the polling loop *)
(* ===================================================================== *)

(** Unfolding of the monad and of the primitives of the world *)
Ltac plumb :=
  cbv beta iota zeta delta [mbind mret M_bind M_ret Completion_bind Completion_ret
                       call lift throw exit tryM emit log console sleep await
                       script trace pick_data pick_result pick_id].

Create HintDb busy.

Lemma busy_ret {A} (a : A) : busy (mret a).
Proof. intros w. exists []. by rewrite app_nil_r. Qed.

Lemma busy_lift {A} (c : Completion A) : busy (lift c).
Proof. intros w. exists []. rewrite app_nil_r. by destruct c. Qed.

Lemma busy_throw {A} (e : JSError) : busy (@throw A e).
Proof. intros w. exists []. by rewrite app_nil_r. Qed.

Lemma busy_emit (ev : Event) : not_sleep ev → busy (emit ev).
Proof. intros H w. exists [ev]. repeat split; [by constructor | done]. Qed.

Lemma busy_log (level : LogLevel) (msg : string) (meta : list (string * JSValue)) :
  busy (log level msg meta).
Proof. by apply busy_emit. Qed.

Lemma busy_console (text : string) : busy (console text).
Proof. by apply busy_emit. Qed.

Lemma busy_call {A} (ev : Event) (pick : Reply → option (Settled A)) :
  not_sleep ev → busy (call ev pick).
Proof.
  intros H w. exists [ev]. unfold call.
  destruct (script w) as [|r rest]; simpl; [by repeat split; [constructor|]|].
  repeat split; [by constructor|]. destruct (pick r) as [[a|e]|]; done.
Qed.

Lemma busy_bind {A B} (m : M A) (k : A → M B) :
  busy m → (∀ a, busy (k a)) → busy (m ≫= k).
Proof.
  intros Hm Hk w. destruct (Hm w) as (evs & Htr & Hns & Hne).
  unfold mbind, M_bind. destruct (m w) as [[a|e|n] w1]; simpl in *.
  - destruct (Hk a w1) as (evs' & Htr' & Hns' & Hne').
    exists (evs ++ evs'). rewrite Htr', Htr, app_assoc.
    repeat split; [by apply Forall_app | done].
  - exists evs. by repeat split.
  - by destruct (Hne n).
Qed.

Lemma busy_tryM {A} (body : M A) (handler : JSError → M A) :
  busy body → (∀ e, busy (handler e)) → busy (tryM body handler).
Proof.
  intros Hm Hk w. destruct (Hm w) as (evs & Htr & Hns & Hne).
  unfold tryM. destruct (body w) as [[a|e|n] w1]; simpl in *.
  - exists evs. by repeat split.
  - destruct (Hk e w1) as (evs' & Htr' & Hns' & Hne').
    exists (evs ++ evs'). rewrite Htr', Htr, app_assoc.
    repeat split; [by apply Forall_app | done].
  - by destruct (Hne n).
Qed.

#[global] Hint Resolve busy_ret busy_lift busy_throw busy_log busy_console : busy.

Ltac busy :=
  repeat first
    [ apply busy_bind; [|intros]
    | apply busy_tryM; [|intros]
    | apply busy_call; exact I
    | solve [auto with busy]
    | match goal with
      | |- busy (if ?b then _ else _) => destruct b
      | |- busy (match ?x with _ => _ end) => destruct x
      end ].

Lemma waits_sleep (p : Z) : waits_at_end p (sleep p).
Proof. intros w. exists []. by split. Qed.

Lemma waits_bind {A B} (p : Z) (m : M A) (k : A → M B) :
  busy m → (∀ a, waits_at_end p (k a)) → waits_at_end p (m ≫= k).
Proof.
  intros Hm Hk w. destruct (Hm w) as (evs & Htr & Hns & Hne).
  unfold mbind, M_bind. destruct (m w) as [[a|e|n] w1]; simpl in *.
  - destruct (Hk a w1) as (evs' & Hns' & Hout).
    exists (evs ++ evs'). split; [by apply Forall_app|].
    destruct (k a w1) as [[b|e|n] w2]; simpl in *; [| |done];
      by rewrite Hout, Htr, <- !app_assoc.
  - exists evs. by split.
  - by destruct (Hne n).
Qed.

Lemma busy_hasPendingTask (cfg : Config) : busy (Request.hasPendingTask cfg).
Proof. unfold Request.hasPendingTask, Hb.getHBCache. busy. Qed.

Lemma busy_receiveTask (cfg : Config) (nodeID : string) :
  busy (Request.receiveTask cfg nodeID).
Proof. unfold Request.receiveTask, Hb.requestHB. busy. Qed.

Lemma busy_sendTaskResponse (cfg : Config) (nodeID : string) (ref output : JSValue) :
  busy (Request.sendTaskResponse cfg nodeID ref output).
Proof. unfold Request.sendTaskResponse, Hb.requestHB. busy. Qed.

Lemma busy_inference (cfg : Config) (prompt : string) (config : JSValue) :
  busy (Index.runHyperBeamInference cfg prompt config).
Proof. unfold Index.runHyperBeamInference, inference_failed. busy. Qed.

#[global] Hint Resolve busy_hasPendingTask busy_receiveTask busy_sendTaskResponse
  busy_inference : busy.

Lemma body_waits_at_end (cfg : Config) :
  waits_at_end (POLL_INTERVAL cfg) (Index.body cfg).
Proof.
  unfold Index.body.
  apply waits_bind; [busy|intros _].
  apply waits_bind; [busy|intros has].
  destruct (negb has).
  - apply waits_bind; [busy|intros _]. apply waits_sleep.
  - unfold Index.process_task.
    repeat (apply waits_bind; [busy|intros ?]). apply waits_sleep.
Qed.

Lemma iteration_waits_once (cfg : Config) (w : World) :
  ∃ evs w', Index.iteration cfg w = (Returned tt, w')
            ∧ trace w' = trace w ++ evs ++ [EvSleep (POLL_INTERVAL cfg)]
            ∧ Forall not_sleep evs.
Proof.
  destruct (body_waits_at_end cfg w) as (evs & Hns & Hout).
  unfold Index.iteration, tryM.
  destruct (Index.body cfg w) as [[[]|e|n] w1]; simpl in *; [| |done].
  - by exists evs, w1.
  - eexists (evs ++ [_]), _. unfold main_loop_error.
    split; [reflexivity|]. simpl. rewrite Hout, <- !app_assoc.
    split; [done|]. apply Forall_app. split; [done|]. by repeat constructor.
Qed.

Lemma waits_of_app (tr1 tr2 : list Event) :
  waits_of (tr1 ++ tr2) = waits_of tr1 ++ waits_of tr2.
Proof. apply omap_app. Qed.

Lemma waits_of_busy (evs : list Event) : Forall not_sleep evs → waits_of evs = [].
Proof.
  induction 1 as [|ev evs Hev _ IH]; [done|]. unfold waits_of in *. simpl.
  destruct ev; try done.
Qed.

(** C6.  A turn of the loop of [src/index.ts] always returns: whatever is
    thrown inside the [try] is caught and logged, and nothing ends the
    process.  On every path, the caught one included, the turn ends with one
    wait of [POLL_INTERVAL] and has no other wait, so the waits of any number
    of turns are that many times the same interval. *)
Theorem every_turn_ends_with_the_same_wait (cfg : Config) (w : World) :
  (∃ evs w', Index.iteration cfg w = (Returned tt, w')
             ∧ trace w' = trace w ++ evs ++ [EvSleep (POLL_INTERVAL cfg)]
             ∧ Forall not_sleep evs)
  ∧ (∀ e w1, Index.body cfg w = (Thrown e, w1) →
             Index.iteration cfg w
             = (Returned tt, MkWorld (script w1) (trace w1 ++ caught cfg e)))
  ∧ (∀ n, ∃ w', turns (Index.iteration cfg) n w = (Returned tt, w')
                ∧ waits_of (trace w')
                  = waits_of (trace w) ++ replicate n (POLL_INTERVAL cfg)).
Proof.
  split; [apply iteration_waits_once|]. split.
  - intros e w1 Hbody. unfold Index.iteration, tryM. rewrite Hbody.
    unfold main_loop_error, caught. plumb. by rewrite <- app_assoc.
  - intros n. revert w. induction n as [|n IH]; intros w; simpl.
    + exists w. by rewrite app_nil_r.
    + destruct (iteration_waits_once cfg w) as (evs & w1 & Hit & Htr & Hns).
      destruct (IH w1) as (w' & Hturns & Hw).
      exists w'. unfold mbind, M_bind. rewrite Hit. split; [done|].
      rewrite Hw, Htr, !waits_of_app, (waits_of_busy _ Hns). simpl.
      by rewrite <- app_assoc.
Qed.

Lemma every_turn_ends_with_the_same_wait_witness :
  Index.iteration cfg1 (MkWorld [RData (Rejected no_reply)] [])
  = (Returned tt,
     MkWorld [] ([EvLog debug "Requesting pending task from Pool..." []; check_call cfg1]
                 ++ caught cfg1 no_reply)).
Proof.
  destruct (every_turn_ends_with_the_same_wait cfg1
              (MkWorld [RData (Rejected no_reply)] [])) as (_ & H & _).
  apply (H no_reply
           (MkWorld [] [EvLog debug "Requesting pending task from Pool..." [];
                        check_call cfg1])).
  reflexivity.
Defined.

(** *** The loop written against [AOProcess] waits the same way *)

Lemma waits_or_exits_sleep (p : Z) : waits_or_exits p (sleep p).
Proof. intros w. exists []. by split. Qed.

Lemma waits_or_exits_bind {A B} (p : Z) (m : M A) (k : A → M B) :
  busy m → (∀ a, waits_or_exits p (k a)) → waits_or_exits p (m ≫= k).
Proof.
  intros Hm Hk w. destruct (Hm w) as (evs & Htr & Hns & Hne).
  unfold mbind, M_bind. destruct (m w) as [[a|e|n] w1]; simpl in *.
  - destruct (Hk a w1) as (evs' & Hns' & Hout).
    exists (evs ++ evs'). split; [by apply Forall_app|].
    destruct (k a w1) as [[b|e|n] w2]; simpl in *.
    + by rewrite Hout, Htr, <- !app_assoc.
    + by rewrite Hout, Htr, <- !app_assoc.
    + destruct Hout as [-> Hout]. split; [done|]. by rewrite Hout, Htr, <- !app_assoc.
  - exists evs. by split.
  - by destruct (Hne n).
Qed.

Lemma busy_handleResult (self : AOProcess.AOProcess) (msgType : string)
    (result : MessageResult) (tags : list (string * JSValue)) (data : JSValue)
    (checkStatus : bool) :
  busy (AOProcess.handleResult self msgType result tags data checkStatus).
Proof. unfold AOProcess.handleResult, AOProcess.logDebugInfo. busy. Qed.

#[global] Hint Resolve busy_handleResult : busy.

Lemma busy_execute (self : AOProcess.AOProcess) (msgType : string)
    (tags : list (string * JSValue)) (data : JSValue) (checkStatus : bool) :
  busy (AOProcess.execute self msgType tags data checkStatus).
Proof.
  unfold AOProcess.execute, AOProcess.dryrun, AOProcess.message, AOProcess.fetchResult,
    AOProcess.logError. busy.
Qed.

Lemma busy_sendMessage (self : AOProcess.AOProcess) (tags : list (string * JSValue))
    (data : JSValue) (checkStatus : bool) :
  busy (AOProcess.sendMessage self tags data checkStatus).
Proof. apply busy_execute. Qed.

Lemma busy_dryRun (self : AOProcess.AOProcess) (tags : list (string * JSValue))
    (data : JSValue) (checkStatus : bool) :
  busy (AOProcess.dryRun self tags data checkStatus).
Proof. apply busy_execute. Qed.

#[global] Hint Resolve busy_execute busy_sendMessage busy_dryRun : busy.

Lemma busy_ao_process_task (cfg : Config) (pool : AOProcess.AOProcess)
    (result : MessageResult) :
  busy (AOIndex.process_task cfg pool result).
Proof.
  unfold AOIndex.process_task, AOIndex.runHyperBeamInference, inference_failed. busy.
Qed.

#[global] Hint Resolve busy_ao_process_task : busy.

Lemma ao_body_waits_or_exits (cfg : Config) (pool : AOProcess.AOProcess) :
  waits_or_exits (POLL_INTERVAL cfg) (AOIndex.body cfg pool).
Proof.
  unfold AOIndex.body.
  apply waits_or_exits_bind; [busy|intros _].
  apply waits_or_exits_bind; [busy|intros chk].
  destruct (is_lit _ "204").
  - apply waits_or_exits_bind; [busy|intros _]. apply waits_or_exits_sleep.
  - apply waits_or_exits_bind; [busy|intros result]. cbv zeta.
    destruct (is_lit _ "200"); [apply waits_or_exits_bind; [busy|intros _];
                                apply waits_or_exits_sleep|].
    destruct (is_lit _ "204"); [apply waits_or_exits_bind; [busy|intros _];
                                apply waits_or_exits_sleep|].
    destruct (is_lit _ "403"); [|apply waits_or_exits_bind; [busy|intros _];
                                apply waits_or_exits_sleep].
    intros w.
    exists [EvLog error
              "Oracle not authorized. Make sure this Node ID is registered in the Pool" []].
    split; [by repeat constructor|]. by split.
Qed.

(** A turn of the [AOProcess] loop either returns after one wait of
    [POLL_INTERVAL], or ends the process with exit code 1 without a wait. *)
Lemma ao_turn_waits_or_exits (cfg : Config) (pool : AOProcess.AOProcess) (w : World) :
  ∃ evs w', Forall not_sleep evs ∧
    ((AOIndex.iteration cfg pool w = (Returned tt, w')
      ∧ trace w' = trace w ++ evs ++ [EvSleep (POLL_INTERVAL cfg)])
     ∨ (AOIndex.iteration cfg pool w = (Exited 1, w')
        ∧ trace w' = trace w ++ evs)).
Proof.
  destruct (ao_body_waits_or_exits cfg pool w) as (evs & Hns & Hout).
  unfold AOIndex.iteration, tryM.
  destruct (AOIndex.body cfg pool w) as [[[]|e|n] w1]; simpl in *.
  - exists evs, w1. split; [done|]. by left.
  - exists (evs ++ [EvLog error "Error in main loop" [("error", JStr (err_message e))]]).
    eexists. split; [apply Forall_app; split; [done|by repeat constructor]|].
    left. unfold main_loop_error. split; [reflexivity|]. simpl.
    by rewrite Hout, <- !app_assoc.
  - destruct Hout as [-> Hout]. exists evs, w1. split; [done|]. by right.
Qed.

(** *** Runs of the two loops *)

Lemma hasPendingTask_run (cfg : Config) (count : JSValue) (rest : list Reply)
    (tr : list Event) :
  Request.hasPendingTask cfg (MkWorld (RData (Fulfilled count) :: rest) tr) =
    (match Hb.cached count ≫= Request.above_zero with
     | Normal b => Returned b
     | Throw e => Thrown e
     end, MkWorld rest (tr ++ [check_call cfg])).
Proof.
  unfold Request.hasPendingTask, Hb.getHBCache. plumb.
  destruct (Hb.cached count) as [v|e]; [|reflexivity]. plumb.
  destruct (Request.above_zero v); reflexivity.
Qed.

Lemma extractMessage_at (r : MessageResult) (ms : list Message) (idx : Z)
    (m : Message) (ts : list AOMessageTag) :
  Messages r = Some ms → at_index ms idx = Some m → Tags m = Some ts →
  Hb.extractMessage (Some r) idx = Normal (reduce ts, Data m).
Proof.
  intros Hms Hat Hts. unfold Hb.extractMessage. rewrite Hms.
  destruct ((idx <? 0) || (Z.of_nat (List.length ms) <=? idx)) eqn:Hb.
  - apply at_index_None in Hb. congruence.
  - unfold at_index in Hat. apply orb_false_iff in Hb as [Hneg _].
    rewrite Hneg in Hat. by rewrite Hat, Hts.
Qed.

Lemma extractMessage_first (msg : MessageResult) (key : string) (v : option string) :
  first_tag key msg = Some v → key ≠ "__proto__" →
  ∃ tags d, Hb.extractMessage (Some msg) 0 = Normal (tags, d)
            ∧ tags !! key = Some v ∧ first_data msg = Some d.
Proof.
  unfold first_tag, first_data. intros H Hk.
  destruct (Messages msg) as [ms|] eqn:Hms; simpl in *; [|done].
  destruct (ms !! 0%nat) as [m|] eqn:Hm; simpl in *; [|done].
  destruct (Tags m) as [ts|] eqn:Hts; simpl in *; [|done].
  exists (reduce ts), (Data m). split; [|split; [|done]].
  - by apply (extractMessage_at msg ms 0 m ts).
  - rewrite reduce_lookup. apply String.eqb_neq in Hk. by rewrite Hk.
Qed.

Lemma receiveTask_run (cfg : Config) (nodeID : string) (msg : MessageResult)
    (rest : list Reply) (tr : list Event) :
  Request.receiveTask cfg nodeID (MkWorld (RResult (Fulfilled msg) :: rest) tr) =
    (match Request.select_messages msg ≫= Request.parse_first with
     | Normal t => Returned t
     | Throw e => Thrown e
     end,
     MkWorld rest (tr ++ [EvRequestHB (Request.PoolProcess cfg)
        [("Action", JStr "Get-Pending-Task"); ("Nodeid", JStr nodeID)] None])).
Proof.
  unfold Request.receiveTask, Hb.requestHB. plumb.
  destruct (Request.select_messages msg) as [ms|e]; [|reflexivity]. plumb.
  destruct (Request.parse_first ms); reflexivity.
Qed.

Lemma select_messages_code (msg : MessageResult) (code : string) :
  truthy (Error msg) = false → first_tag "Code" msg = Some (Some code) →
  Request.select_messages msg =
    if String.eqb code "200" then Normal (Messages msg)
    else if String.eqb code "403" then Throw Request.not_a_function
    else if String.eqb code "204"
         then Throw (MkError GenericError "No pending tasks available")
    else Request.select_messages msg.
Proof.
  intros Ht Hc.
  destruct (String.eqb code "200") eqn:H200; [|
  destruct (String.eqb code "403") eqn:H403; [|
  destruct (String.eqb code "204") eqn:H204; [|done]]];
  unfold Request.select_messages; rewrite Ht;
  destruct (extractMessage_first msg "Code" (Some code) Hc) as (tags & d & -> & Htag & _);
    try done;
  simpl; rewrite Htag; simpl; by rewrite ?H200, ?H403, ?H204.
Qed.

Lemma parse_first_data (msg : MessageResult) (d : JSValue) :
  first_data msg = Some d → Request.parse_first (Messages msg) = JSON_parse d.
Proof.
  unfold first_data, Request.parse_first.
  destruct (Messages msg) as [ms|]; simpl; [|done].
  destruct (ms !! 0%nat) as [m|]; simpl; [|done]. by intros [= ->].
Qed.

Lemma calls_of_app (tr1 tr2 : list Event) :
  calls_of (tr1 ++ tr2) = calls_of tr1 ++ calls_of tr2.
Proof. apply List.filter_app. Qed.

(** [m] reads nothing of the trace and only adds to it. *)

Create HintDb framed.

Lemma framed_ret {A} (a : A) : framed (mret a).
Proof. intros s tr. unfold extend. simpl. by rewrite app_nil_r. Qed.

Lemma framed_lift {A} (c : Completion A) : framed (lift c).
Proof. intros s tr. unfold extend, lift. simpl. by rewrite app_nil_r. Qed.

Lemma framed_throw {A} (e : JSError) : framed (@throw A e).
Proof. intros s tr. unfold extend. simpl. by rewrite app_nil_r. Qed.

Lemma framed_exit {A} (n : Z) : framed (@exit A n).
Proof. intros s tr. unfold extend. simpl. by rewrite app_nil_r. Qed.

Lemma framed_log (level : LogLevel) (msg : string) (meta : list (string * JSValue)) :
  framed (log level msg meta).
Proof. done. Qed.

Lemma framed_console (text : string) : framed (console text).
Proof. done. Qed.

Lemma framed_sleep (ms : Z) : framed (sleep ms).
Proof. done. Qed.

Lemma framed_call {A} (ev : Event) (pick : Reply → option (Settled A)) :
  framed (call ev pick).
Proof. intros s tr. unfold call, extend. simpl. by destruct s. Qed.

Lemma framed_bind {A B} (m : M A) (k : A → M B) :
  framed m → (∀ a, framed (k a)) → framed (m ≫= k).
Proof.
  intros Hm Hk s tr. unfold mbind, M_bind. rewrite (Hm s tr).
  destruct (m (MkWorld s [])) as [[a|e|n] [s1 t1]]; unfold extend; simpl; try done.
  rewrite (Hk a s1 (tr ++ t1)), (Hk a s1 t1). unfold extend. simpl.
  by rewrite app_assoc.
Qed.

Lemma framed_tryM {A} (body : M A) (handler : JSError → M A) :
  framed body → (∀ e, framed (handler e)) → framed (tryM body handler).
Proof.
  intros Hm Hk s tr. unfold tryM. rewrite (Hm s tr).
  destruct (body (MkWorld s [])) as [[a|e|n] [s1 t1]]; unfold extend; simpl; try done.
  rewrite (Hk e s1 (tr ++ t1)), (Hk e s1 t1). unfold extend. simpl.
  by rewrite app_assoc.
Qed.

#[global] Hint Resolve framed_ret framed_lift framed_throw framed_exit framed_log
  framed_console framed_sleep framed_call : framed.

Ltac framed :=
  repeat first
    [ solve [auto with framed]
    | apply framed_bind; [|intros]
    | apply framed_tryM; [|intros]
    | match goal with
      | |- framed (if ?b then _ else _) => destruct b
      | |- framed (match ?x with _ => _ end) => destruct x
      end ].

Lemma framed_process_task (cfg : Config) (task : JSValue) :
  framed (Index.process_task cfg task).
Proof.
  unfold Index.process_task, Index.runHyperBeamInference, inference_failed,
    Request.sendTaskResponse, Hb.requestHB. framed.
Qed.

Lemma framed_main_loop_error (cfg : Config) (e : JSError) :
  framed (main_loop_error cfg e).
Proof. unfold main_loop_error. framed. Qed.

#[global] Hint Resolve framed_process_task framed_main_loop_error : framed.

(** The calls of a turn that goes on from the task t1. *)

Lemma process_task_t1_calls (cfg : Config) (infer : Settled JSValue)
    (rest : list Reply) (tr : list Event) :
  let w := MkWorld (RData infer :: rest) tr in
  calls_of (trace (tryM (Index.process_task cfg task_t1) (main_loop_error cfg) w).2) =
    calls_of tr ++ [infer_call cfg default_query] ++
      match infer with
      | Fulfilled out => [submit_call cfg (JStr "t1") out]
      | Rejected _ => []
      end.
Proof.
  intros w. subst w.
  rewrite (framed_tryM _ _ (framed_process_task cfg task_t1) (framed_main_loop_error cfg)).
  unfold extend. cbn [snd trace]. rewrite calls_of_app. f_equal.
  destruct infer as [out|e]; [destruct rest as [|[[r|e]|?|?] rest']|]; reflexivity.
Qed.

(** A turn that finds work, up to the task. *)

Lemma iteration_fetches (cfg : Config) (count : JSValue) (msg : MessageResult)
    (rest : list Reply) (tr : list Event) :
  reports_work count →
  Index.iteration cfg
    (MkWorld (RData (Fulfilled count) :: RResult (Fulfilled msg) :: rest) tr) =
  let w := MkWorld rest
             (tr ++ [EvLog debug "Requesting pending task from Pool..." []]
                 ++ [check_call cfg] ++ [fetch_call cfg]) in
  match Request.select_messages msg ≫= Request.parse_first with
  | Normal task => tryM (Index.process_task cfg task) (main_loop_error cfg) w
  | Throw e => main_loop_error cfg e w
  end.
Proof.
  intros Hwork. unfold Index.iteration, Index.body. plumb.
  rewrite hasPendingTask_run. unfold reports_work in Hwork. rewrite Hwork.
  cbn [negb]. rewrite receiveTask_run. rewrite !app_assoc. plumb.
  destruct (Request.select_messages msg) as [ms|e];
    [destruct (Request.parse_first ms)|]; reflexivity.
Qed.

Lemma fetched_t1 (msg : MessageResult) :
  truthy (Error msg) = false →
  first_tag "Code" msg = Some (Some "200") →
  first_data msg = Some (JStr payload_t1) →
  Request.select_messages msg ≫= Request.parse_first = Normal task_t1.
Proof.
  intros Ht Hc Hd. rewrite (select_messages_code msg "200" Ht Hc). simpl.
  by rewrite (parse_first_data msg _ Hd).
Qed.

Lemma iteration_t1_calls (cfg : Config) (count : JSValue) (msg : MessageResult)
    (infer : Settled JSValue) (rest : list Reply) (tr : list Event) :
  reports_work count →
  truthy (Error msg) = false →
  first_tag "Code" msg = Some (Some "200") →
  first_data msg = Some (JStr payload_t1) →
  calls_of (trace (Index.iteration cfg
    (MkWorld (RData (Fulfilled count) :: RResult (Fulfilled msg) :: RData infer :: rest)
       tr)).2) =
  calls_of tr ++ [check_call cfg; fetch_call cfg; infer_call cfg default_query] ++
    match infer with
    | Fulfilled out => [submit_call cfg (JStr "t1") out]
    | Rejected _ => []
    end.
Proof.
  intros Hwork Ht Hc Hd. rewrite iteration_fetches by done.
  rewrite (fetched_t1 msg Ht Hc Hd). cbv zeta.
  rewrite process_task_t1_calls, !calls_of_app. simpl. by rewrite <- !app_assoc.
Qed.


Lemma select_then_parse_403 (msg : MessageResult) :
  truthy (Error msg) = false → first_tag "Code" msg = Some (Some "403") →
  Request.select_messages msg ≫= Request.parse_first = Throw Request.not_a_function.
Proof. intros Ht Hc. by rewrite (select_messages_code msg "403" Ht Hc). Qed.

Lemma select_then_parse_204 (msg : MessageResult) :
  truthy (Error msg) = false → first_tag "Code" msg = Some (Some "204") →
  Request.select_messages msg ≫= Request.parse_first
  = Throw (MkError GenericError "No pending tasks available").
Proof. intros Ht Hc. by rewrite (select_messages_code msg "204" Ht Hc). Qed.

Lemma iteration_fetch_throws (cfg : Config) (count : JSValue) (msg : MessageResult)
    (rest : list Reply) (tr : list Event) (e : JSError) :
  reports_work count →
  Request.select_messages msg ≫= Request.parse_first = Throw e →
  Index.iteration cfg
    (MkWorld (RData (Fulfilled count) :: RResult (Fulfilled msg) :: rest) tr)
  = (Returned tt, MkWorld rest (tr ++ fetching cfg ++ caught cfg e)).
Proof.
  intros Hwork He. rewrite iteration_fetches by done. rewrite He. cbv zeta.
  unfold main_loop_error. plumb. unfold fetching, caught. simpl.
  by rewrite <- !app_assoc.
Qed.

Lemma dryRun_accepted (p : string) (tags : list (string * JSValue)) (data : JSValue)
    (d : option string) (result : MessageResult) (rest : list Reply) (tr : list Event) :
  declared_strings tags → AOProcess.toString data = Normal d → accepted result →
  AOProcess.dryRun (AOProcess.new p false) tags data true
    (MkWorld (RResult (Fulfilled result) :: rest) tr)
  = (Returned result, MkWorld rest (tr ++ [EvDryrun (input_of p tags d)])).
Proof.
  intros Hd Hdata [Ht Hst].
  pose proof (obj2tags_primitive _ (declared_strings_primitive _ Hd)) as Hts.
  unfold AOProcess.dryRun, AOProcess.execute, AOProcess.dryrun. plumb.
  rewrite Hts, Hdata. cbn [String.eqb Ascii.eqb Bool.eqb AOProcess.processId].
  rewrite handleResult_passes by done. reflexivity.
Qed.

Lemma sendMessage_accepted (p : string) (tags : list (string * JSValue)) (data : JSValue)
    (d : option string) (id : string) (result : MessageResult) (rest : list Reply)
    (tr : list Event) :
  declared_strings tags → AOProcess.toString data = Normal d → accepted result →
  AOProcess.sendMessage (AOProcess.new p false) tags data true
    (MkWorld (RId (Fulfilled id) :: RResult (Fulfilled result) :: rest) tr)
  = (Returned result,
     MkWorld rest (tr ++ [EvMessage (input_of p tags d)] ++ [EvResult id p])).
Proof.
  intros Hd Hdata [Ht Hst].
  pose proof (obj2tags_primitive _ (declared_strings_primitive _ Hd)) as Hts.
  unfold AOProcess.sendMessage, AOProcess.execute, AOProcess.message,
    AOProcess.fetchResult. plumb.
  rewrite Hts, Hdata. cbn [String.eqb Ascii.eqb Bool.eqb AOProcess.processId].
  rewrite handleResult_passes by done. cbn [AOProcess.isDevEnvironment].
  by rewrite <- app_assoc.
Qed.

Lemma tagsOrEmpty_lookup (r : MessageResult) (key : string) :
  key ≠ "__proto__" → AOIndex.tagsOrEmpty r !! key = first_tag key r.
Proof.
  intros Hk. unfold AOIndex.tagsOrEmpty, AOProcess.getTagsFromMessage,
    AOProcess.messageAt, first_tag, at_index.
  change (Z.to_nat 0) with 0%nat. simpl.
  destruct (Messages r) as [ms|]; simpl; [|done].
  destruct (ms !! 0%nat) as [m|]; simpl; [|done].
  destruct (Tags m) as [ts|]; simpl; [|done].
  rewrite reduce_lookup. apply String.eqb_neq in Hk. by rewrite Hk.
Qed.

(** The [if] on the code of the fetched result *)

(** A turn that finds work, up to the fetched result. *)

Lemma ao_body_fetches (cfg : Config) (chk fetched : MessageResult) (id : string)
    (rest : list Reply) (tr : list Event) :
  accepted chk → first_tag "Code" chk ≠ Some (Some "204") → accepted fetched →
  AOIndex.body cfg (AOProcess.new (POOL_PROCESS_ID cfg) false)
    (MkWorld (RResult (Fulfilled chk) :: RId (Fulfilled id)
              :: RResult (Fulfilled fetched) :: rest) tr)
  = (dispatch cfg (AOProcess.new (POOL_PROCESS_ID cfg) false) fetched;;
     sleep (POLL_INTERVAL cfg))
      (MkWorld rest (tr ++ ao_fetching cfg id)).
Proof.
  intros Hchk Hcode Hfetched. unfold AOIndex.body. plumb.
  rewrite (dryRun_accepted _ _ _ (Some "null")); [|by repeat constructor|done|done].
  rewrite (tagsOrEmpty_lookup chk "Code") by done.
  assert (is_lit (first_tag "Code" chk) "204" = false) as ->.
  { destruct (first_tag "Code" chk) as [[c|]|]; simpl; try done.
    apply String.eqb_neq. congruence. }
  rewrite (sendMessage_accepted _ _ _ (Some "null"));
    [|by repeat constructor|done|done].
  unfold dispatch. rewrite (tagsOrEmpty_lookup fetched "Code") by done.
  unfold ao_fetching. rewrite <- !app_assoc. reflexivity.
Qed.

Lemma handleResult_nondev (p : string) (msgType : string) (result : MessageResult)
    (tags : list (string * JSValue)) (data : JSValue) (checkStatus : bool) (w : World) :
  (AOProcess.handleResult (AOProcess.new p false) msgType result tags data checkStatus w).2
  = w.
Proof.
  unfold AOProcess.handleResult. plumb. cbn [AOProcess.isDevEnvironment].
  destruct (truthy (Error result)).
  - by destruct (AOProcess.toString (Error result)).
  - destruct (AOProcess.getTagsFromMessage (Some result) 0) as [rt|]; [|done].
    destruct (checkStatus && bool_decide (is_Some (rt !! "Status"))
              && negb (is_lit (rt !! "Status") "200")); [|done].
    destruct (String_ (tag_value (rt !! "Status"))); [|done].
    destruct (AOProcess.getDataFromMessage (Some result) 0) as [v|]; [|done].
    by destruct (String_ v).
Qed.

(** [pre] is a prefix of the trace after [m]. *)

Lemma framed_appends {A} (m : M A) (w : World) : framed m → reaches (trace w) m w.
Proof. intros Hm. destruct w as [s tr]. unfold reaches. rewrite (Hm s tr). by eexists. Qed.

Lemma reaches_bind {A B} (pre : list Event) (m : M A) (k : A → M B) (w : World) :
  (∀ a, framed (k a)) → reaches pre m w → reaches pre (m ≫= k) w.
Proof.
  intros Hk [more Hm]. unfold reaches, mbind, M_bind.
  destruct (m w) as [[a|e|n] w1]; simpl in *; [|by exists more..].
  destruct (framed_appends (k a) w1 (Hk a)) as [more' Hk'].
  exists (more ++ more'). by rewrite Hk', Hm, app_assoc.
Qed.

Lemma reaches_tryM {A} (pre : list Event) (m : M A) (h : JSError → M A) (w : World) :
  (∀ e, framed (h e)) → reaches pre m w → reaches pre (tryM m h) w.
Proof.
  intros Hk [more Hm]. unfold reaches, tryM.
  destruct (m w) as [[a|e|n] w1]; simpl in *; [by exists more| |by exists more].
  destruct (framed_appends (h e) w1 (Hk e)) as [more' Hk'].
  exists (more ++ more'). by rewrite Hk', Hm, app_assoc.
Qed.

Lemma sendMessage_reaches (p : string) (tags : list (string * JSValue)) (data : JSValue)
    (d : option string) (checkStatus : bool) (w : World) :
  declared_strings tags → AOProcess.toString data = Normal d →
  reaches (trace w ++ [EvMessage (input_of p tags d)])
    (AOProcess.sendMessage (AOProcess.new p false) tags data checkStatus) w.
Proof.
  intros Hd Hdata.
  pose proof (obj2tags_primitive _ (declared_strings_primitive _ Hd)) as Hts.
  unfold reaches, AOProcess.sendMessage, AOProcess.execute, AOProcess.message,
    AOProcess.fetchResult. plumb.
  rewrite Hts, Hdata. cbn [String.eqb Ascii.eqb Bool.eqb AOProcess.processId].
  destruct w as [[|r rest] tr]; [exists []; cbn; by rewrite app_nil_r|].
  destruct r as [x|[id|e]|x]; try (exists []; cbn; by rewrite app_nil_r).
  destruct rest as [|r' rest']; [eexists; cbn; reflexivity|].
  destruct r' as [[result|e]|x|x]; try (eexists; cbn; reflexivity).
  cbn [pick_result await].
  pose proof (handleResult_nondev p "message" result tags data checkStatus
    (MkWorld rest' ((tr ++ [EvMessage (input_of p tags d)]) ++ [EvResult id p]))) as Hq.
  unfold input_of, owner_of in *.
  destruct (AOProcess.handleResult _ _ _ _ _ _ _) as [[[]|e|n] w2];
    simpl in Hq; subst w2; eexists; cbn; reflexivity.
Qed.

Lemma framed_handleResult (self : AOProcess.AOProcess) (msgType : string)
    (result : MessageResult) (tags : list (string * JSValue)) (data : JSValue)
    (checkStatus : bool) :
  framed (AOProcess.handleResult self msgType result tags data checkStatus).
Proof. unfold AOProcess.handleResult, AOProcess.logDebugInfo. framed. Qed.

#[global] Hint Resolve framed_handleResult : framed.

Lemma framed_execute (self : AOProcess.AOProcess) (msgType : string)
    (tags : list (string * JSValue)) (data : JSValue) (checkStatus : bool) :
  framed (AOProcess.execute self msgType tags data checkStatus).
Proof.
  unfold AOProcess.execute, AOProcess.dryrun, AOProcess.message, AOProcess.fetchResult,
    AOProcess.logError. framed.
Qed.

Lemma framed_sendMessage (self : AOProcess.AOProcess) (tags : list (string * JSValue))
    (data : JSValue) (checkStatus : bool) :
  framed (AOProcess.sendMessage self tags data checkStatus).
Proof. apply framed_execute. Qed.

#[global] Hint Resolve framed_execute framed_sendMessage : framed.

Lemma framed_ao_process_task (cfg : Config) (pool : AOProcess.AOProcess)
    (result : MessageResult) :
  framed (AOIndex.process_task cfg pool result).
Proof.
  unfold AOIndex.process_task, AOIndex.runHyperBeamInference, inference_failed. framed.
Qed.

#[global] Hint Resolve framed_ao_process_task : framed.

Lemma getData_first (r : MessageResult) (d : JSValue) :
  first_data r = Some d →
  AOProcess.getDataFromMessage (Some r) 0 = try_catch (JSON_parse d) (fun _ => Normal d).
Proof.
  unfold first_data, AOProcess.getDataFromMessage, AOProcess.messageAt, at_index.
  change (Z.to_nat 0) with 0%nat. simpl.
  destruct (Messages r) as [ms|]; simpl; [|done].
  destruct (ms !! 0%nat) as [m|]; simpl; [|done]. by intros [= ->].
Qed.

(** The rest of the turn once the inference has answered [out]. *)

Lemma framed_from_empty {A} (m1 m2 : M A) (s s' : list Reply) (pre : list Event) :
  framed m1 → framed m2 →
  m1 (MkWorld s []) = m2 (MkWorld s' pre) →
  ∀ tr, m1 (MkWorld s tr) = m2 (MkWorld s' (tr ++ pre)).
Proof.
  intros H1 H2 Heq tr. rewrite (H1 s tr), Heq, (H2 s' pre), (H2 s' (tr ++ pre)).
  unfold extend. simpl. by rewrite app_assoc.
Qed.

Lemma framed_ao_submitting (cfg : Config) (out : JSValue) :
  framed (ao_submitting cfg out).
Proof. unfold ao_submitting. framed. Qed.

Lemma ao_process_task_t1 (cfg : Config) (fetched : MessageResult)
    (infer : Settled JSValue) (rest : list Reply) (tr : list Event) :
  first_data fetched = Some (JStr payload_t1) →
  AOIndex.process_task cfg (AOProcess.new (POOL_PROCESS_ID cfg) false) fetched
    (MkWorld (RData infer :: rest) tr) =
  match infer with
  | Fulfilled out => ao_submitting cfg out (MkWorld rest (tr ++ ao_inferring cfg))
  | Rejected e =>
      (Thrown (MkError GenericError ("HyperBEAM inference failed: " +:+ err_message e)),
       MkWorld rest (tr ++ ao_inferring cfg ++
          [EvLog error "HyperBEAM inference failed" [("error", JStr (err_message e))]]))
  end.
Proof.
  intros Hd. destruct infer as [out|e].
  - apply framed_from_empty; [apply framed_ao_process_task|apply framed_ao_submitting|].
    unfold AOIndex.process_task. plumb. rewrite (getData_first _ _ Hd). reflexivity.
  - rewrite framed_ao_process_task.
    unfold AOIndex.process_task. plumb. rewrite (getData_first _ _ Hd). reflexivity.
Qed.

Lemma framed_dispatch (cfg : Config) (pool : AOProcess.AOProcess) (r : MessageResult) :
  framed (dispatch cfg pool r).
Proof. unfold dispatch. framed. Qed.

#[global] Hint Resolve framed_dispatch framed_ao_submitting : framed.

(** A turn of the [AOProcess] loop that finds work, up to the fetched
    result. *)

Lemma ao_iteration_fetches (cfg : Config) (chk fetched : MessageResult) (id : string)
    (rest : list Reply) (tr : list Event) :
  accepted chk → first_tag "Code" chk ≠ Some (Some "204") → accepted fetched →
  AOIndex.iteration cfg (AOIndex.poolProcess cfg)
    (MkWorld (RResult (Fulfilled chk) :: RId (Fulfilled id)
              :: RResult (Fulfilled fetched) :: rest) tr)
  = tryM (dispatch cfg (AOIndex.poolProcess cfg) fetched;; sleep (POLL_INTERVAL cfg))
      (main_loop_error cfg) (MkWorld rest (tr ++ ao_fetching cfg id)).
Proof.
  intros Hchk Hcode Hfetched. unfold AOIndex.iteration, tryM, AOIndex.poolProcess.
  by rewrite ao_body_fetches.
Qed.

Lemma ao_iteration_403 (cfg : Config) (chk fetched : MessageResult) (id : string)
    (rest : list Reply) (tr : list Event) :
  accepted chk → first_tag "Code" chk ≠ Some (Some "204") → accepted fetched →
  first_tag "Code" fetched = Some (Some "403") →
  AOIndex.iteration cfg (AOIndex.poolProcess cfg)
    (MkWorld (RResult (Fulfilled chk) :: RId (Fulfilled id)
              :: RResult (Fulfilled fetched) :: rest) tr)
  = (Exited 1,
     MkWorld rest (tr ++ ao_fetching cfg id ++
       [EvLog error
          "Oracle not authorized. Make sure this Node ID is registered in the Pool" []])).
Proof.
  intros Hchk Hcode Hfetched H403. rewrite ao_iteration_fetches by done.
  unfold dispatch. rewrite H403. plumb. simpl. by rewrite <- app_assoc.
Qed.

Lemma ao_iteration_204 (cfg : Config) (chk fetched : MessageResult) (id : string)
    (rest : list Reply) (tr : list Event) :
  accepted chk → first_tag "Code" chk ≠ Some (Some "204") → accepted fetched →
  first_tag "Code" fetched = Some (Some "204") →
  AOIndex.iteration cfg (AOIndex.poolProcess cfg)
    (MkWorld (RResult (Fulfilled chk) :: RId (Fulfilled id)
              :: RResult (Fulfilled fetched) :: rest) tr)
  = (Returned tt,
     MkWorld rest (tr ++ ao_fetching cfg id ++
       [EvLog info "No pending tasks available" []; EvSleep (POLL_INTERVAL cfg)])).
Proof.
  intros Hchk Hcode Hfetched H204. rewrite ao_iteration_fetches by done.
  unfold dispatch. rewrite H204. plumb. simpl. by rewrite <- !app_assoc.
Qed.

Lemma reaches_calls {A} (pre : list Event) (m : M A) (w : World) :
  reaches pre m w → ∃ later, calls_of (trace (m w).2) = calls_of pre ++ later.
Proof. intros [more ->]. exists (calls_of more). apply calls_of_app. Qed.

Lemma ao_iteration_t1 (cfg : Config) (chk fetched : MessageResult) (id : string)
    (infer : Settled JSValue) (rest : list Reply) (tr : list Event) :
  accepted chk → first_tag "Code" chk ≠ Some (Some "204") → accepted fetched →
  first_tag "Code" fetched = Some (Some "200") →
  first_data fetched = Some (JStr payload_t1) →
  AOIndex.iteration cfg (AOIndex.poolProcess cfg)
    (MkWorld (RResult (Fulfilled chk) :: RId (Fulfilled id)
              :: RResult (Fulfilled fetched) :: RData infer :: rest) tr)
  = match infer with
    | Fulfilled out =>
        tryM (ao_submitting cfg out;; sleep (POLL_INTERVAL cfg)) (main_loop_error cfg)
          (MkWorld rest (tr ++ ao_fetching cfg id ++ ao_inferring cfg))
    | Rejected e =>
        (Returned tt,
         MkWorld rest (tr ++ ao_fetching cfg id ++ ao_inferring cfg ++
           [EvLog error "HyperBEAM inference failed" [("error", JStr (err_message e))]] ++
           caught cfg (MkError GenericError
                         ("HyperBEAM inference failed: " +:+ err_message e))))
    end.
Proof.
  intros Hchk Hcode Hfetched H200 Hd. rewrite ao_iteration_fetches by done.
  unfold dispatch. rewrite H200. cbn [is_lit String.eqb Ascii.eqb Bool.eqb].
  unfold tryM at 1, mbind at 1, M_bind at 1. unfold AOIndex.poolProcess.
  rewrite (ao_process_task_t1 _ _ _ _ _ Hd). destruct infer as [out|e].
  - by rewrite <- app_assoc.
  - unfold main_loop_error, caught. plumb. simpl. by rewrite <- !app_assoc.
Qed.

Lemma ao_submitting_reaches (cfg : Config) (out : JSValue) (d : option string) (w : World) :
  AOProcess.toString (JObj [("output", out)]) = Normal d →
  reaches (trace w ++ [EvLog info "Task t1 completed, sending response..." []]
                   ++ [ao_submit cfg "t1" d])
    (tryM (ao_submitting cfg out;; sleep (POLL_INTERVAL cfg)) (main_loop_error cfg)) w.
Proof.
  intros Hout. apply reaches_tryM; [auto with framed|].
  apply reaches_bind; [auto with framed|].
  unfold ao_submitting.
  assert (∀ k : unit → M unit,
            (log info "Task t1 completed, sending response..." [] ≫= k) w
            = k tt (MkWorld (script w)
                      (trace w ++ [EvLog info "Task t1 completed, sending response..." []])))
    as Hlog by done.
  unfold reaches. rewrite Hlog. fold (reaches (A:=unit)).
  apply reaches_bind; [auto with framed|].
  rewrite app_assoc.
  apply (sendMessage_reaches (POOL_PROCESS_ID cfg) (submit_tags cfg) _ d true
           (MkWorld (script w) _)); [by repeat constructor|done].
Qed.

(* ===================================================================== *)
(** ** The three codes of a fetch *)
(* ===================================================================== *)

Lemma reports_work_1 : reports_work (JInt 1).
Proof. reflexivity. Qed.

Lemma accepted_coded (code : string) (d : JSValue) : accepted (coded code d).
Proof. split; [done|by left]. Qed.

(** C1, on [utils/request.ts] and [src/index.ts].  A fetch answered with
    code 403 does not end the process: [receiveTask] throws the TypeError of
    the call [msg.Error(...)], the loop catches it, logs it, waits
    [POLL_INTERVAL], and its next turn starts from there. *)
Theorem receiveTask_403_is_caught_and_retried (cfg : Config) (count : JSValue)
    (msg : MessageResult) (rest : list Reply) (tr : list Event) :
  reports_work count →
  truthy (Error msg) = false →
  first_tag "Code" msg = Some (Some "403") →
  let w := MkWorld (RData (Fulfilled count) :: RResult (Fulfilled msg) :: rest) tr in
  let w' := MkWorld rest (tr ++ fetching cfg ++ caught cfg Request.not_a_function) in
  Index.iteration cfg w = (Returned tt, w')
  ∧ ∀ n, turns (Index.iteration cfg) (S n) w = turns (Index.iteration cfg) n w'.
Proof.
  intros Hwork Ht Hc w w'.
  assert (Index.iteration cfg w = (Returned tt, w')) as Hit.
  { apply iteration_fetch_throws; [done|]. by apply select_then_parse_403. }
  split; [done|]. intros n. simpl. unfold mbind at 1, M_bind. by rewrite Hit.
Qed.

Lemma receiveTask_403_is_caught_and_retried_witness :
  turns (Index.iteration cfg1) 2
    (MkWorld [RData (Fulfilled (JInt 1)); RResult (Fulfilled (coded "403" JUndefined));
              RData (Fulfilled (JInt 0))] [])
  = (Returned tt,
     MkWorld [] (fetching cfg1 ++ caught cfg1 Request.not_a_function ++
                 [EvLog debug "Requesting pending task from Pool..." [];
                  check_call cfg1;
                  EvLog info "No pending tasks available, Skipping..." [];
                  EvSleep 1000])).
Proof.
  destruct (receiveTask_403_is_caught_and_retried cfg1 (JInt 1) (coded "403" JUndefined)
              [RData (Fulfilled (JInt 0))] []) as [_ H].
  - reflexivity.
  - reflexivity.
  - reflexivity.
  - rewrite H. reflexivity.
Defined.

(** The loop written against [AOProcess] does what C1 says: on code 403 it
    logs, ends the process with exit code 1, and no later turn adds
    anything. *)
Lemma ao_loop_exits_on_403 (cfg : Config) (chk fetched : MessageResult) (id : string)
    (rest : list Reply) (tr : list Event) (n : nat) :
  accepted chk → first_tag "Code" chk ≠ Some (Some "204") → accepted fetched →
  first_tag "Code" fetched = Some (Some "403") →
  turns (AOIndex.iteration cfg (AOIndex.poolProcess cfg)) (S n)
    (MkWorld (RResult (Fulfilled chk) :: RId (Fulfilled id)
              :: RResult (Fulfilled fetched) :: rest) tr)
  = (Exited 1,
     MkWorld rest (tr ++ ao_fetching cfg id ++
       [EvLog error
          "Oracle not authorized. Make sure this Node ID is registered in the Pool" []])).
Proof.
  intros Hchk Hcode Hfetched H403. simpl. unfold mbind, M_bind.
  by rewrite ao_iteration_403.
Qed.

(** C3, as the code has it.  A fetch answered with code 204 leads to no
    inference and no submission and does not end the process; the turn ends
    with the wait of [POLL_INTERVAL].  In [src/index.ts], [receiveTask] throws
    "No pending tasks available" and the [catch] of the loop logs it as an
    error before the wait; the [AOProcess] loop logs it at level info. *)
Theorem fetch_204_ends_the_turn_with_the_wait (cfg : Config) (rest : list Reply)
    (tr : list Event) :
  (∀ count msg,
     reports_work count → truthy (Error msg) = false →
     first_tag "Code" msg = Some (Some "204") →
     Index.iteration cfg
       (MkWorld (RData (Fulfilled count) :: RResult (Fulfilled msg) :: rest) tr)
     = (Returned tt,
        MkWorld rest (tr ++ fetching cfg ++
          caught cfg (MkError GenericError "No pending tasks available"))))
  ∧ (∀ chk fetched id,
       accepted chk → first_tag "Code" chk ≠ Some (Some "204") → accepted fetched →
       first_tag "Code" fetched = Some (Some "204") →
       AOIndex.iteration cfg (AOIndex.poolProcess cfg)
         (MkWorld (RResult (Fulfilled chk) :: RId (Fulfilled id)
                   :: RResult (Fulfilled fetched) :: rest) tr)
       = (Returned tt,
          MkWorld rest (tr ++ ao_fetching cfg id ++
            [EvLog info "No pending tasks available" [];
             EvSleep (POLL_INTERVAL cfg)]))).
Proof.
  split.
  - intros count msg Hwork Ht Hc.
    apply iteration_fetch_throws; [done|]. by apply select_then_parse_204.
  - intros chk fetched id Hchk Hcode Hfetched H204. by apply ao_iteration_204.
Qed.

Lemma fetch_204_ends_the_turn_with_the_wait_witness :
  Index.iteration cfg1
    (MkWorld [RData (Fulfilled (JInt 1)); RResult (Fulfilled (coded "204" JUndefined))] [])
  = (Returned tt,
     MkWorld [] (fetching cfg1 ++
       caught cfg1 (MkError GenericError "No pending tasks available")))
  ∧ AOIndex.iteration cfg1 (AOIndex.poolProcess cfg1)
      (MkWorld [RResult (Fulfilled (coded "200" JUndefined)); RId (Fulfilled "id-1");
                RResult (Fulfilled (coded "204" JUndefined))] [])
    = (Returned tt,
       MkWorld [] (ao_fetching cfg1 "id-1" ++
         [EvLog info "No pending tasks available" []; EvSleep 1000])).
Proof.
  destruct (fetch_204_ends_the_turn_with_the_wait cfg1 [] []) as [H1 H2]. split.
  - apply (H1 (JInt 1) (coded "204" JUndefined)); reflexivity.
  - apply (H2 (coded "200" JUndefined) (coded "204" JUndefined) "id-1").
    + apply accepted_coded.
    + discriminate.
    + apply accepted_coded.
    + reflexivity.
Defined.

(** C3 fails as stated on [utils/request.ts]: the code 204 is raised as an
    error by [receiveTask], and the turn logs it at level error. *)
Lemma fetch_204_is_raised_and_logged_as_error :
  (Request.receiveTask cfg1 "node-1"
     (MkWorld [RResult (Fulfilled (coded "204" JUndefined))] [])).1
  = Thrown (MkError GenericError "No pending tasks available")
  ∧ trace (Index.iteration cfg1
       (MkWorld [RData (Fulfilled (JInt 1));
                 RResult (Fulfilled (coded "204" JUndefined))] [])).2
    = [EvLog debug "Requesting pending task from Pool..." [];
       check_call cfg1; fetch_call cfg1;
       EvLog error "Error in main loop" [("error", JStr "No pending tasks available")];
       EvSleep 1000].
Proof. split; reflexivity. Qed.

(** C4.  When the fetch is answered with code 200 and the payload
    [{"ref":"t1","prompt":"hi"}], the calls of the turn are, in this order:
    the check, the fetch, the inference with prompt "hi" and, when the
    inference answers, the submission with reference "t1" and the output of
    the inference.  In [src/index.ts] these are all the calls of the turn; in
    the [AOProcess] loop the submission is a signed message with the encoded
    output, followed by the read of its result. *)
Theorem fetched_task_is_inferred_then_submitted (cfg : Config) (infer : Settled JSValue)
    (rest : list Reply) (tr : list Event) :
  (∀ count msg,
     reports_work count → truthy (Error msg) = false →
     first_tag "Code" msg = Some (Some "200") →
     first_data msg = Some (JStr payload_t1) →
     calls_of (trace (Index.iteration cfg
       (MkWorld (RData (Fulfilled count) :: RResult (Fulfilled msg) :: RData infer :: rest)
          tr)).2)
     = calls_of tr ++ [check_call cfg; fetch_call cfg; infer_call cfg default_query] ++
         match infer with
         | Fulfilled out => [submit_call cfg (JStr "t1") out]
         | Rejected _ => []
         end)
  ∧ (∀ chk fetched id,
       accepted chk → first_tag "Code" chk ≠ Some (Some "204") → accepted fetched →
       first_tag "Code" fetched = Some (Some "200") →
       first_data fetched = Some (JStr payload_t1) →
       ∃ later,
         calls_of (trace (AOIndex.iteration cfg (AOIndex.poolProcess cfg)
           (MkWorld (RResult (Fulfilled chk) :: RId (Fulfilled id)
                     :: RResult (Fulfilled fetched) :: RData infer :: rest) tr)).2)
         = calls_of tr ++ [ao_check cfg; ao_fetch cfg; EvResult id (POOL_PROCESS_ID cfg);
                           infer_call cfg [("prompt", "hi")]] ++ later
         ∧ match infer with
           | Fulfilled out =>
               ∀ d, AOProcess.toString (JObj [("output", out)]) = Normal d →
                    ∃ later', later = ao_submit cfg "t1" d :: later'
           | Rejected _ => later = []
           end).
Proof.
  split.
  - intros count msg Hwork Ht Hc Hd. by apply iteration_t1_calls.
  - intros chk fetched id Hchk Hcode Hfetched H200 Hd.
    rewrite ao_iteration_t1 by done.
    assert (calls_of (tr ++ ao_fetching cfg id ++ ao_inferring cfg)
            = calls_of tr ++ [ao_check cfg; ao_fetch cfg; EvResult id (POOL_PROCESS_ID cfg);
                              infer_call cfg [("prompt", "hi")]]) as Hpre
      by (by rewrite calls_of_app).
    destruct infer as [out|e].
    + set (m := tryM (ao_submitting cfg out;; sleep (POLL_INTERVAL cfg))
                  (main_loop_error cfg)).
      assert (framed m) as Hm by (unfold m; framed).
      destruct (framed_appends m
                  (MkWorld rest (tr ++ ao_fetching cfg id ++ ao_inferring cfg)) Hm)
        as [more Hmore].
      cbn [trace] in Hmore. exists (calls_of more). split.
      * by rewrite Hmore, calls_of_app, Hpre, <- app_assoc.
      * intros d Hout.
        destruct (ao_submitting_reaches cfg out d
                    (MkWorld rest (tr ++ ao_fetching cfg id ++ ao_inferring cfg)) Hout)
          as [more' Hmore'].
        fold m in Hmore'. cbn [trace] in Hmore'. rewrite Hmore in Hmore'.
        rewrite <- !app_assoc in Hmore'. do 3 apply app_inv_head in Hmore'.
        subst more. exists (calls_of more'). reflexivity.
    + exists []. split; [|done]. cbn [snd trace].
      by rewrite !app_assoc, !calls_of_app, <- !app_assoc, app_nil_r in *.
Qed.

Lemma fetched_task_is_inferred_then_submitted_witness :
  calls_of (trace (Index.iteration cfg1
    (MkWorld [RData (Fulfilled (JInt 1));
              RResult (Fulfilled (coded "200" (JStr payload_t1)));
              RData (Fulfilled (JStr "hello"));
              RResult (Fulfilled (coded "200" JUndefined))] [])).2)
  = [check_call cfg1; fetch_call cfg1; infer_call cfg1 default_query;
     submit_call cfg1 (JStr "t1") (JStr "hello")].
Proof.
  destruct (fetched_task_is_inferred_then_submitted cfg1 (Fulfilled (JStr "hello"))
              [RResult (Fulfilled (coded "200" JUndefined))] []) as [H _].
  apply (H (JInt 1) (coded "200" (JStr payload_t1))); reflexivity.
Defined.

(* ===================================================================== *)
(** ** Decoders of the two layers *)
(* ===================================================================== *)

(** X1.  [extractMessage] of [utils/hb.ts] and [getTagsFromMessage] of the
    [AOProcess] class read the same tags: on a result [r], [extractMessage]
    returns [tags] and [d] exactly when [getTagsFromMessage] returns [tags]
    and [d] is the raw [Data] of that message; and [getTagsFromMessage]
    answers [null] exactly where [extractMessage] throws. *)
Theorem extractMessage_agrees_with_getTagsFromMessage (r : MessageResult) (idx : Z) :
  (∀ tags d,
     Hb.extractMessage (Some r) idx = Normal (tags, d)
     ↔ AOProcess.getTagsFromMessage (Some r) idx = Some tags
       ∧ raw_data (Some r) idx = d)
  ∧ (AOProcess.getTagsFromMessage (Some r) idx = None
     ↔ ∃ e, Hb.extractMessage (Some r) idx = Throw e).
Proof.
  unfold AOProcess.getTagsFromMessage, raw_data, AOProcess.messageAt, Hb.extractMessage.
  simpl. destruct (Messages r) as [ms|]; simpl.
  2: { split; [intros; split; [done|by intros [? _]]|]. split; [by eexists|done]. }
  destruct ((idx <? 0) || (Z.of_nat (List.length ms) <=? idx)) eqn:Hb.
  - apply at_index_None in Hb. rewrite Hb. simpl.
    split; [intros; split; [done|by intros [? _]]|]. split; [by eexists|done].
  - assert (at_index ms idx = ms !! Z.to_nat idx) as ->.
    { unfold at_index. apply orb_false_iff in Hb as [-> _]. done. }
    destruct (ms !! Z.to_nat idx) as [m|] eqn:Hm; simpl.
    + destruct (Tags m) as [ts|]; simpl.
      * split; [|split; [done|by intros [? ?]]].
        intros tags d. split; [by intros [= <- <-]|by intros [[= <-] <-]].
      * split; [intros; split; [done|by intros [? _]]|]. split; [by eexists|done].
    + split; [intros; split; [done|by intros [? _]]|]. split; [by eexists|done].
Qed.

(** X2.  [formatResult] gives the list of messages when there are two or more;
    otherwise the tags of the first message as they are (undecoded;
    [undefined] when there is none) and the data that [getDataFromMessage]
    decodes at index 0. *)
Theorem formatResult_agrees_with_the_decoders (result : MessageResult) :
  match AOProcess.formatResult result with
  | AOProcess.resMsgs msgs =>
      Messages result = Some msgs ∧ (1 < List.length msgs)%nat
  | AOProcess.resTagsData resTags resData =>
      (∀ msgs, Messages result = Some msgs → (List.length msgs ≤ 1)%nat)
      ∧ resTags = (AOProcess.messageAt (Some result) 0 ≫= Tags)
      ∧ AOProcess.getDataFromMessage (Some result) 0 = Normal resData
  end.
Proof.
  unfold AOProcess.formatResult, AOProcess.getDataFromMessage, AOProcess.messageAt.
  simpl. destruct (Messages result) as [ms|]; [|by split; [|split; [|vm_compute]]].
  destruct (1 <? Z.of_nat (List.length ms)) eqn:Hlen.
  - split; [done|]. apply Z.ltb_lt in Hlen. lia.
  - apply Z.ltb_ge in Hlen. unfold at_index. change (Z.to_nat 0) with 0%nat. simpl.
    destruct ms as [|m rest]; simpl.
    + split; [intros ? [= <-]; simpl; lia|]. split; [done|]. by vm_compute.
    + split; [intros ? [= <-]; simpl in *; lia|]. split; [done|].
      by destruct (JSON_parse (Data m)).
Qed.

(** X3.  [handleResult] (outside the development mode) returns exactly when
    the [Error] field of the result is falsy and, with [checkStatus], the
    first message has no tags, no [Status] tag, or the [Status] ["200"]. In
    every other case it throws; it never touches the outside world. *)
Theorem handleResult_accepts_exactly (p msgType : string) (result : MessageResult)
    (tags : list (string * JSValue)) (data : JSValue) (checkStatus : bool) (w : World) :
  (AOProcess.handleResult (AOProcess.new p false) msgType result tags data checkStatus w
     = (Returned tt, w)
   ↔ truthy (Error result) = false
     ∧ (checkStatus = false ∨ status_of_first result = None
        ∨ status_of_first result = Some (Some "200")))
  ∧ ∃ o, AOProcess.handleResult (AOProcess.new p false) msgType result tags data
           checkStatus w = (o, w)
         ∧ (o = Returned tt ∨ ∃ e, o = Thrown e).
Proof.
  rewrite <- getTags_first.
  unfold AOProcess.handleResult. plumb. cbn [AOProcess.isDevEnvironment].
  destruct (truthy (Error result)).
  { split; [split; [|by intros [? _]]|].
    - by destruct (AOProcess.toString (Error result)).
    - destruct (AOProcess.toString (Error result)); eexists; (split; [done|]); right;
        by eexists. }
  destruct (AOProcess.getTagsFromMessage (Some result) 0) as [rt|]; simpl.
  2: { split; [split; [auto|done]|]. eexists. split; [done|by left]. }
  destruct checkStatus; simpl.
  2: { split; [split; [auto|done]|]. eexists. split; [done|by left]. }
  destruct (rt !! "Status") as [[s|]|] eqn:Hst; simpl.
  - destruct (String.eqb s "200") eqn:Hs; simpl.
    + apply String.eqb_eq in Hs as ->.
      split; [split; [auto|done]|]. eexists. split; [done|by left].
    + apply String.eqb_neq in Hs.
      destruct (AOProcess.getDataFromMessage (Some result) 0) as [v|e].
      * destruct (String_ v).
        -- split; [split; [done|]|eexists; split; [done|right; by eexists]].
           intros [_ [?|[?|[= ?]]]]; done.
        -- split; [split; [done|]|eexists; split; [done|right; by eexists]].
           intros [_ [?|[?|[= ?]]]]; done.
      * split; [split; [done|]|eexists; split; [done|right; by eexists]].
        intros [_ [?|[?|[= ?]]]]; done.
  - destruct (AOProcess.getDataFromMessage (Some result) 0) as [v|e].
    + destruct (String_ v).
      * split; [split; [done|]|eexists; split; [done|right; by eexists]].
        intros [_ [?|[?|?]]]; done.
      * split; [split; [done|]|eexists; split; [done|right; by eexists]].
        intros [_ [?|[?|?]]]; done.
    + split; [split; [done|]|eexists; split; [done|right; by eexists]].
      intros [_ [?|[?|?]]]; done.
  - split; [split; [auto|done]|]. eexists. split; [done|by left].
Qed.

(* ===================================================================== *)
(** ** The calls of [execute] *)
(* ===================================================================== *)

Create HintDb quiet.

Lemma quiet_ret {A} (a : A) : quiet (mret a).
Proof. intros [s tr]. exists []. by rewrite app_nil_r. Qed.

Lemma quiet_lift {A} (c : Completion A) : quiet (lift c).
Proof. intros [s tr]. exists []. rewrite app_nil_r. by destruct c. Qed.

Lemma quiet_throw {A} (e : JSError) : quiet (@throw A e).
Proof. intros [s tr]. exists []. by rewrite app_nil_r. Qed.

Lemma quiet_log (level : LogLevel) (msg : string) (meta : list (string * JSValue)) :
  quiet (log level msg meta).
Proof. intros w. by exists [EvLog level msg meta]. Qed.

Lemma quiet_console (text : string) : quiet (console text).
Proof. intros w. by exists [EvConsole text]. Qed.

Lemma quiet_sleep (ms : Z) : quiet (sleep ms).
Proof. intros w. by exists [EvSleep ms]. Qed.

Lemma quiet_bind {A B} (m : M A) (k : A → M B) :
  quiet m → (∀ a, quiet (k a)) → quiet (m ≫= k).
Proof.
  intros Hm Hk w. destruct (Hm w) as (evs & Hw & Hc & Hne).
  unfold mbind, M_bind. destruct (m w) as [[a|e|n] w1]; simpl in *.
  - destruct (Hk a w1) as (evs' & Hw' & Hc' & Hne'). subst w1.
    exists (evs ++ evs'). rewrite Hw'. simpl. by rewrite app_assoc, calls_of_app, Hc, Hc'.
  - by exists evs.
  - by destruct (Hne n).
Qed.

Lemma quiet_tryM {A} (body : M A) (handler : JSError → M A) :
  quiet body → (∀ e, quiet (handler e)) → quiet (tryM body handler).
Proof.
  intros Hm Hk w. destruct (Hm w) as (evs & Hw & Hc & Hne).
  unfold tryM. destruct (body w) as [[a|e|n] w1]; simpl in *.
  - by exists evs.
  - destruct (Hk e w1) as (evs' & Hw' & Hc' & Hne'). subst w1.
    exists (evs ++ evs'). rewrite Hw'. simpl. by rewrite app_assoc, calls_of_app, Hc, Hc'.
  - by destruct (Hne n).
Qed.

#[global] Hint Resolve quiet_ret quiet_lift quiet_throw quiet_log quiet_console
  quiet_sleep : quiet.

Ltac quiet :=
  repeat first
    [ solve [auto with quiet]
    | apply quiet_bind; [|intros]
    | apply quiet_tryM; [|intros]
    | match goal with
      | |- quiet (if ?b then _ else _) => destruct b
      | |- quiet (match ?x with _ => _ end) => destruct x
      end ].

Lemma quiet_handleResult (self : AOProcess.AOProcess) (msgType : string)
    (result : MessageResult) (tags : list (string * JSValue)) (data : JSValue)
    (checkStatus : bool) :
  quiet (AOProcess.handleResult self msgType result tags data checkStatus).
Proof. unfold AOProcess.handleResult, AOProcess.logDebugInfo. quiet. Qed.

Lemma quiet_logError (tags : list (string * JSValue)) (msgType : string) :
  quiet (AOProcess.logError tags msgType).
Proof. unfold AOProcess.logError. quiet. Qed.

#[global] Hint Resolve quiet_handleResult quiet_logError : quiet.

Lemma quiet_adds {A} (m : M A) (w : World) :
  quiet m → ∃ o evs, m w = (o, MkWorld (script w) (trace w ++ evs)) ∧ calls_of evs = []
                     ∧ ∀ n, o ≠ Exited n.
Proof.
  intros H. destruct (H w) as (evs & Hw & Hc & Hn). destruct (m w) as [o w1]. simpl in *.
  subst. by exists o, evs.
Qed.

Lemma quiet_settle self msgType tags data checkStatus r :
  quiet (settle self msgType tags data checkStatus r).
Proof. unfold settle. quiet. Qed.

Lemma quiet_rethrow self msgType tags e : quiet (rethrow self msgType tags e).
Proof. unfold rethrow. quiet. Qed.

Lemma execute_unfold self msgType tags data checkStatus :
  AOProcess.execute self msgType tags data checkStatus =
  tryM
    (ts ← lift (AOProcess.obj2tags tags);
     d ← lift (AOProcess.toString data);
     let options := MkInput (AOProcess.processId self) d ts (owner_of tags) in
     msgResult ← (if String.eqb msgType "dryrun" then AOProcess.dryrun options
                  else messageId ← AOProcess.message options;
                       AOProcess.fetchResult messageId (AOProcess.processId self));
     settle self msgType tags data checkStatus msgResult)
    (rethrow self msgType tags).
Proof. reflexivity. Qed.

Lemma execute_finishes (self : AOProcess.AOProcess) (msgType : string)
    (tags : list (string * JSValue)) (data : JSValue) (checkStatus : bool)
    (o : Outcome MessageResult) (w : World) :
  (∀ n, o ≠ Exited n) →
  ∃ evs, calls_of evs = [] ∧
    trace (let (o', w') := match o with
                           | Returned a => settle self msgType tags data checkStatus a w
                           | Thrown e => (Thrown e, w)
                           | Exited n => (Exited n, w)
                           end in
           match o' with
           | Returned a => (Returned a, w')
           | Thrown e => rethrow self msgType tags e w'
           | Exited code => (Exited code, w')
           end).2 = trace w ++ evs.
Proof.
  intros Hne. destruct o as [a|e|n]; [| |by destruct (Hne n)].
  - destruct (quiet_adds _ w (quiet_settle self msgType tags data checkStatus a))
      as (o & evs & -> & Hc & Hn).
    destruct o as [a'|e|n]; [by exists evs| |by destruct (Hn n)].
    destruct (quiet_adds _ (MkWorld (script w) (trace w ++ evs))
                (quiet_rethrow self msgType tags e)) as (o & evs' & -> & Hc' & _).
    exists (evs ++ evs'). simpl. by rewrite calls_of_app, Hc, Hc', app_assoc.
  - destruct (quiet_adds _ w (quiet_rethrow self msgType tags e))
      as (o & evs & -> & Hc & _). by exists evs.
Qed.

Lemma execute_calls (self : AOProcess.AOProcess) (msgType : string)
    (tags : list (string * JSValue)) (data : JSValue) (checkStatus : bool) (w : World) :
  ∃ evs, trace (AOProcess.execute self msgType tags data checkStatus w).2 = trace w ++ evs
     ∧ ((calls_of evs = []
         ∧ (throws (AOProcess.obj2tags tags) ∨ throws (AOProcess.toString data)))
        ∨ if String.eqb msgType "dryrun"
          then ∃ input, process input = AOProcess.processId self
                        ∧ calls_of evs = [EvDryrun input]
          else (∃ input, process input = AOProcess.processId self
                    ∧ calls_of evs = [EvMessage input]
                    ∧ ∀ id rest, script w ≠ RId (Fulfilled id) :: rest)
               ∨ (∃ input id rest, process input = AOProcess.processId self
                    ∧ script w = RId (Fulfilled id) :: rest
                    ∧ calls_of evs
                      = [EvMessage input; EvResult id (AOProcess.processId self)])).
Proof.
  destruct w as [s tr]. rewrite execute_unfold.
  unfold tryM. unfold mbind at 1, M_bind at 1, lift at 1.
  destruct (AOProcess.obj2tags tags) as [ts|e0].
  2: { destruct (quiet_adds _ (MkWorld s tr) (quiet_rethrow self msgType tags e0))
         as (o & evs & -> & Hc & _).
       exists evs. split; [done|]. left. split; [done|]. left. by eexists. }
  unfold mbind at 1, M_bind at 1, lift at 1.
  destruct (AOProcess.toString data) as [d|e0].
  2: { destruct (quiet_adds _ (MkWorld s tr) (quiet_rethrow self msgType tags e0))
         as (o & evs & -> & Hc & _).
       exists evs. split; [done|]. left. split; [done|]. right. by eexists. }
  cbv zeta. destruct (String.eqb msgType "dryrun").
  - unfold mbind, M_bind, AOProcess.dryrun, call. cbn [script trace].
    destruct s as [|r rest].
    + edestruct (execute_finishes self msgType tags data checkStatus (Thrown no_reply))
        as (evs & Hc & Htr); [done|].
      eexists (_ :: evs). rewrite Htr. cbn [trace]. rewrite <- app_assoc. split; [done|].
      right. eexists. split; [|simpl; by rewrite Hc]. done.
    + edestruct (execute_finishes self msgType tags data checkStatus
                   match pick_result r with
                   | Some p => await p
                   | None => Thrown no_reply
                   end) as (evs & Hc & Htr).
      { by destruct r as [[]|[]|[]]. }
      eexists (_ :: evs). rewrite Htr. cbn [trace]. rewrite <- app_assoc. split; [done|].
      right. eexists. split; [|simpl; by rewrite Hc]. done.
  - unfold mbind, M_bind, AOProcess.message, AOProcess.fetchResult, call.
    cbn [script trace].
    destruct s as [|r rest].
    + edestruct (execute_finishes self msgType tags data checkStatus (Thrown no_reply))
        as (evs & Hc & Htr); [done|].
      eexists (_ :: evs). rewrite Htr. cbn [trace]. rewrite <- app_assoc. split; [done|].
      right. left. eexists. split; [|split; [simpl; by rewrite Hc|done]]. done.
    + destruct r as [q|[id|e]|q]; cbn [pick_id await].
      1,3,4: match goal with
             | |- context [rethrow _ _ _ ?e ?w] =>
                 destruct (quiet_adds _ w (quiet_rethrow self msgType tags e))
                   as (o & evs & -> & Hc & _)
             end;
             eexists (_ :: evs); cbn [trace snd]; rewrite <- app_assoc;
             (split; [done|]); right; left; eexists;
             (split; [|split; [simpl; by rewrite Hc|intros ? ? ?; discriminate]]); done.
      cbn [script trace]. destruct rest as [|r' rest'].
      * edestruct (execute_finishes self msgType tags data checkStatus (Thrown no_reply))
          as (evs & Hc & Htr); [done|].
        eexists (_ :: _ :: evs). rewrite Htr. cbn [trace]. rewrite <- !app_assoc.
        split; [done|]. right. right. eexists _, id, [].
        split; [|split; [done|simpl; by rewrite Hc]]. done.
      * edestruct (execute_finishes self msgType tags data checkStatus
                     match pick_result r' with
                     | Some p => await p
                     | None => Thrown no_reply
                     end) as (evs & Hc & Htr).
        { by destruct r' as [[]|[]|[]]. }
        eexists (_ :: _ :: evs). rewrite Htr. cbn [trace]. rewrite <- !app_assoc.
        split; [done|]. right. right. eexists _, id, _.
        split; [|split; [done|simpl; by rewrite Hc]]. done.
Qed.

(** X4.  What [dryRun] and [sendMessage] ask of the AO network. [dryRun] makes
    one [dryrun] call for its own process and nothing else; [sendMessage]
    makes one [message] call and, when that one gave a message id, one
    [result] call for that id and its own process. No call at all is made only
    when the tags or the data cannot be converted to strings. *)
Theorem dryRun_and_sendMessage_calls (self : AOProcess.AOProcess)
    (tags : list (string * JSValue)) (data : JSValue) (checkStatus : bool) (w : World) :
  (∃ evs, trace (AOProcess.dryRun self tags data checkStatus w).2 = trace w ++ evs
     ∧ ((calls_of evs = []
         ∧ (throws (AOProcess.obj2tags tags) ∨ throws (AOProcess.toString data)))
        ∨ ∃ input, process input = AOProcess.processId self
                   ∧ calls_of evs = [EvDryrun input]))
  ∧ (∃ evs, trace (AOProcess.sendMessage self tags data checkStatus w).2 = trace w ++ evs
     ∧ ((calls_of evs = []
         ∧ (throws (AOProcess.obj2tags tags) ∨ throws (AOProcess.toString data)))
        ∨ (∃ input, process input = AOProcess.processId self
                    ∧ calls_of evs = [EvMessage input]
                    ∧ ∀ id rest, script w ≠ RId (Fulfilled id) :: rest)
        ∨ (∃ input id rest, process input = AOProcess.processId self
                    ∧ script w = RId (Fulfilled id) :: rest
                    ∧ calls_of evs
                      = [EvMessage input; EvResult id (AOProcess.processId self)]))).
Proof.
  split.
  - apply (execute_calls self "dryrun").
  - apply (execute_calls self "message").
Qed.

Lemma without_console_app (tr1 tr2 : list Event) :
  without_console (tr1 ++ tr2) = without_console tr1 ++ without_console tr2.
Proof. apply List.filter_app. Qed.

Lemma sbc_ret {A} (a : A) : same_but_console (mret a) (mret a).
Proof. by intros w1 w2 Hs Ht. Qed.

Lemma sbc_lift {A} (c : Completion A) : same_but_console (lift c) (lift c).
Proof. by intros w1 w2 Hs Ht. Qed.

Lemma sbc_throw {A} (e : JSError) : same_but_console (@throw A e) (throw e).
Proof. by intros w1 w2 Hs Ht. Qed.

Lemma sbc_call {A} (ev : Event) (pick : Reply → option (Settled A)) :
  same_but_console (call ev pick) (call ev pick).
Proof.
  intros w1 w2 Hs Ht. unfold call. rewrite Hs.
  destruct (script w2); simpl; by rewrite !without_console_app, Ht.
Qed.

Lemma sbc_console (text : string) : same_but_console (console text) (mret tt).
Proof.
  intros w1 w2 Hs Ht. simpl. rewrite without_console_app. simpl.
  by rewrite app_nil_r.
Qed.

Lemma sbc_bind {A B} (m1 m2 : M A) (k1 k2 : A → M B) :
  same_but_console m1 m2 → (∀ a, same_but_console (k1 a) (k2 a)) →
  same_but_console (m1 ≫= k1) (m2 ≫= k2).
Proof.
  intros Hm Hk w1 w2 Hs Ht. destruct (Hm w1 w2 Hs Ht) as (Ho & Hs' & Ht').
  unfold mbind, M_bind.
  destruct (m1 w1) as [o1 w1'], (m2 w2) as [o2 w2']. simpl in *. subst o2.
  destruct o1; [by apply Hk|done..].
Qed.

Lemma sbc_tryM {A} (m1 m2 : M A) (h1 h2 : JSError → M A) :
  same_but_console m1 m2 → (∀ e, same_but_console (h1 e) (h2 e)) →
  same_but_console (tryM m1 h1) (tryM m2 h2).
Proof.
  intros Hm Hk w1 w2 Hs Ht. destruct (Hm w1 w2 Hs Ht) as (Ho & Hs' & Ht').
  unfold tryM.
  destruct (m1 w1) as [o1 w1'], (m2 w2) as [o2 w2']. simpl in *. subst o2.
  destruct o1; [done|by apply Hk|done].
Qed.

(** Two steps on the left that only write to the console. *)
Lemma sbc_seq_l (m k : M unit) :
  same_but_console m (mret tt) → same_but_console k (mret tt) →
  same_but_console (m;; k) (mret tt).
Proof.
  intros Hm Hk w1 w2 Hs Ht. destruct (Hm w1 w2 Hs Ht) as (Ho & Hs' & Ht').
  unfold mbind, M_bind. destruct (m w1) as [o1 w1']. simpl in *. subst o1.
  by apply Hk.
Qed.

Create HintDb sbc.
#[global] Hint Resolve sbc_ret sbc_lift sbc_throw sbc_call sbc_console : sbc.

Ltac sbc :=
  repeat first
    [ solve [auto with sbc]
    | apply sbc_bind; [|intros]
    | apply sbc_tryM; [|intros]
    | match goal with
      | |- same_but_console (if ?b then _ else _) (if ?b then _ else _) => destruct b
      | |- same_but_console (match ?x with _ => _ end) (match ?x with _ => _ end) =>
          destruct x
      end ].

Lemma sbc_logDebugInfo tags msgType data result :
  declared_strings tags →
  same_but_console (AOProcess.logDebugInfo tags msgType data result) (mret tt).
Proof.
  intros Hd. unfold AOProcess.logDebugInfo.
  destruct (action_line_returns tags msgType Hd) as [line ->].
  intros w1 w2 Hs Ht. simpl. rewrite without_console_app. simpl. by rewrite app_nil_r.
Qed.

Lemma sbc_logError tags msgType :
  declared_strings tags →
  same_but_console (AOProcess.logError tags msgType) (mret tt).
Proof.
  intros Hd. unfold AOProcess.logError.
  destruct (action_line_returns tags (msgType +:+ " failed") Hd) as [line ->].
  intros w1 w2 Hs Ht. simpl. rewrite without_console_app. simpl. by rewrite app_nil_r.
Qed.

(** X5.  The development mode of [AOProcess] changes nothing but the console:
    with tags whose values are strings, [execute] with [isDevEnvironment] set
    gives the same outcome, takes the same replies and leaves the same trace,
    console lines apart, as without it. *)
Theorem dev_mode_only_adds_console_lines (p msgType : string)
    (tags : list (string * JSValue)) (data : JSValue) (checkStatus : bool) (w : World) :
  declared_strings tags →
  (AOProcess.execute (AOProcess.new p true) msgType tags data checkStatus w).1
  = (AOProcess.execute (AOProcess.new p false) msgType tags data checkStatus w).1
  ∧ script (AOProcess.execute (AOProcess.new p true) msgType tags data checkStatus w).2
    = script (AOProcess.execute (AOProcess.new p false) msgType tags data checkStatus w).2
  ∧ without_console
      (trace (AOProcess.execute (AOProcess.new p true) msgType tags data checkStatus w).2)
    = without_console
        (trace (AOProcess.execute (AOProcess.new p false) msgType tags data checkStatus w).2).
Proof.
  intros Hd.
  assert (same_but_console
            (AOProcess.execute (AOProcess.new p true) msgType tags data checkStatus)
            (AOProcess.execute (AOProcess.new p false) msgType tags data checkStatus))
    as H; [|by apply H].
  unfold AOProcess.execute. cbn [AOProcess.isDevEnvironment AOProcess.processId].
  unfold AOProcess.dryrun, AOProcess.message, AOProcess.fetchResult.
  sbc.
  - cbn [AOProcess.isDevEnvironment]. by apply sbc_logDebugInfo.
  - apply sbc_seq_l; [by apply sbc_logError|apply sbc_console].
Qed.

Lemma dev_mode_only_adds_console_lines_witness :
  let tags := [("Action", JStr "Has-Pending-Task")] in
  let w := MkWorld [] [] in
  (AOProcess.execute (AOProcess.new "pool-1" true) "dryrun" tags JUndefined true w).1
  = (AOProcess.execute (AOProcess.new "pool-1" false) "dryrun" tags JUndefined true w).1
  ∧ script (AOProcess.execute (AOProcess.new "pool-1" true) "dryrun" tags JUndefined true w).2
    = script (AOProcess.execute (AOProcess.new "pool-1" false) "dryrun" tags JUndefined true w).2
  ∧ without_console
      (trace (AOProcess.execute (AOProcess.new "pool-1" true) "dryrun" tags JUndefined true w).2)
    = without_console
        (trace (AOProcess.execute (AOProcess.new "pool-1" false) "dryrun" tags JUndefined true w).2).
Proof.
  intros tags w. apply dev_mode_only_adds_console_lines.
  repeat constructor.
Defined.

(* ===================================================================== *)
(** ** Idle turns, inference and the end of [main] *)
(* ===================================================================== *)

(** X6.  A turn of the loop of [src/index.ts] in which the cache does not
    report a positive number of pending tasks (also when the check fails)
    makes the check and no other call, waits [POLL_INTERVAL] once and
    returns. *)
Theorem idle_turn_only_checks (cfg : Config) (w : World) :
  (∀ count rest, script w = RData (Fulfilled count) :: rest → ¬ reports_work count) →
  ∃ evs, Index.iteration cfg w
         = (Returned tt, MkWorld (drop 1 (script w)) (trace w ++ evs))
         ∧ calls_of evs = [check_call cfg]
         ∧ waits_of evs = [POLL_INTERVAL cfg].
Proof.
  intros Hidle. destruct w as [s tr].
  unfold Index.iteration, Index.body, Request.hasPendingTask, Hb.getHBCache, main_loop_error.
  plumb. fold (check_call cfg).
  destruct s as [|r rest].
  { eexists [_; _; _; _]. rewrite <- !app_assoc. split; [reflexivity|]. done. }
  destruct r as [q|q|[count|e]]; cbn [pick_data].
  1,2,4: eexists [_; _; _; _]; rewrite <- !app_assoc; (split; [reflexivity|]); done.
  specialize (Hidle count rest eq_refl). unfold reports_work in Hidle.
  change (Hb.cached count ≫= Request.above_zero)
    with (match Hb.cached count with
          | Normal a => Request.above_zero a
          | Throw e => Throw e
          end) in Hidle.
  destruct (Hb.cached count) as [v|e].
  2: { eexists [_; _; _; _]; rewrite <- !app_assoc; (split; [reflexivity|]); done. }
  destruct (Request.above_zero v) as [[]|e].
  - done.
  - cbn [negb]. eexists [_; _; _; _]; rewrite <- !app_assoc; (split; [reflexivity|]); done.
  - eexists [_; _; _; _]; rewrite <- !app_assoc; (split; [reflexivity|]); done.
Qed.

Lemma idle_turn_only_checks_witness :
  ∃ evs, Index.iteration cfg1 (MkWorld [RData (Fulfilled (JStr "0"))] [])
         = (Returned tt, MkWorld [] ([] ++ evs))
         ∧ calls_of evs = [check_call cfg1]
         ∧ waits_of evs = [POLL_INTERVAL cfg1].
Proof.
  apply (idle_turn_only_checks cfg1 (MkWorld [RData (Fulfilled (JStr "0"))] [])).
  intros count rest [= <- <-]. vm_compute. discriminate.
Defined.

(** X7.  What the loop of [src/index.ts] does with a task it has received:
    either no call at all, or one inference call whose query starts with the
    prompt of the task, followed, only when the inference gave an output, by
    one submission carrying the reference of the task and that output. *)
Theorem task_is_inferred_before_it_is_answered (cfg : Config) (task : JSValue)
    (w : World) :
  ∃ evs, trace (Index.process_task cfg task w).2 = trace w ++ evs ∧
    (calls_of evs = []
     ∨ (∃ q, asks_for task q ∧ calls_of evs = [infer_call cfg q]
             ∧ ∀ out rest, script w ≠ RData (Fulfilled out) :: rest)
     ∨ ∃ q ref out rest,
         asks_for task q
         ∧ script w = RData (Fulfilled out) :: rest
         ∧ get task "ref" = Normal ref
         ∧ calls_of evs = [infer_call cfg q; submit_call cfg ref out]).
Proof.
  destruct w as [s tr].
  unfold Index.process_task, Index.runHyperBeamInference, Request.sendTaskResponse,
    Hb.requestHB, inference_failed, asks_for.
  plumb. fold (inference_url cfg).
  destruct (get task "ref") as [ref|e]; [|exists []; rewrite app_nil_r; auto].
  destruct (String_ ref) as [ref_s|e]; [|exists []; rewrite app_nil_r; auto].
  destruct (get task "prompt") as [prompt_v|e]; [|exists []; rewrite app_nil_r; auto].
  destruct prompt_v as [| | | |prompt| | | |]; cbn [as_string];
    try (exists []; rewrite app_nil_r; by auto).
  destruct (get task "config") as [config|e];
    [|eexists [_; _]; cbn [snd trace]; rewrite <- app_assoc; split; [reflexivity|by left]].
  set (c := if truthy config then config else Index.default_config).
  assert (∀ extra : list (string * string),
            ∃ p e, Normal (JStr prompt) = Normal (JStr p)
                   ∧ ("prompt", prompt) :: extra = ("prompt", p) :: e) as Hq.
  { intros extra. by exists prompt, extra. }
  destruct (truthy c); [destruct (String_ c) as [cs|e]|]; cbn [script trace snd].
  2: { eexists [_; _; _]. rewrite <- !app_assoc. split; [reflexivity|by left]. }
  all: destruct s as [|r rest];
    [eexists [_; _; _; _; _]; cbn [snd trace]; rewrite <- !app_assoc;
     (split; [reflexivity|]);
     right; left; eexists; (split; [apply Hq|]); (split; [reflexivity|done])|].
  all: destruct r as [q|q|[out|e]];
    try (eexists [_; _; _; _; _]; cbn [snd trace]; rewrite <- !app_assoc;
         (split; [reflexivity|]);
         right; left; eexists; (split; [apply Hq|]);
         (split; [reflexivity|intros ? ? ?; discriminate])).
  all: cbn [script trace]; destruct rest as [|r' rest'];
    [eexists [_; _; _; _; _; _]; cbn [snd trace]; rewrite <- !app_assoc;
     (split; [reflexivity|]);
     right; right; eexists _, ref, out, []; (split; [apply Hq|]); by repeat split|].
  all: destruct r' as [[m|e]|q|q];
    [eexists [_; _; _; _; _; _; _; _]|eexists [_; _; _; _; _; _]
    |eexists [_; _; _; _; _; _]|eexists [_; _; _; _; _; _]];
    cbn [snd trace]; rewrite <- !app_assoc;
    (split; [reflexivity|]);
    right; right; eexists _, ref, out, _; (split; [apply Hq|]); by repeat split.
Qed.

Lemma wrapped_by_inference_failed {A} (body : M A) (w w' : World) (e : JSError) :
  tryM body inference_failed w = (Thrown e, w') →
  ∃ cause w1,
    body w = (Thrown cause, w1)
    ∧ e = MkError GenericError ("HyperBEAM inference failed: " +:+ err_message cause)
    ∧ w' = MkWorld (script w1)
             (trace w1 ++ [EvLog error "HyperBEAM inference failed"
                             [("error", JStr (err_message cause))]]).
Proof.
  unfold tryM, inference_failed. plumb.
  destruct (body w) as [[a|cause|n] w1]; [done| |done].
  intros [= <- <-]. by exists cause, w1.
Qed.

(** X8.  Whatever [runHyperBeamInference] throws (in either [index.ts]) is an
    [Error] whose message is ["HyperBEAM inference failed: "] followed by the
    message of the cause, and the last thing it did was to log
    ["HyperBEAM inference failed"] with that cause at level [error]. *)
Theorem inference_failure_is_wrapped (cfg : Config) (prompt : string) (config : JSValue)
    (w w' : World) (e : JSError) :
  Index.runHyperBeamInference cfg prompt config w = (Thrown e, w')
  ∨ AOIndex.runHyperBeamInference cfg prompt config w = (Thrown e, w') →
  ∃ cause tr,
    e = MkError GenericError ("HyperBEAM inference failed: " +:+ err_message cause)
    ∧ trace w' = tr ++ [EvLog error "HyperBEAM inference failed"
                          [("error", JStr (err_message cause))]].
Proof.
  intros [H|H]; apply wrapped_by_inference_failed in H as (cause & w1 & _ & -> & ->);
    by exists cause, (trace w1).
Qed.

Lemma inference_failure_is_wrapped_witness :
  ∃ cause tr,
    MkError GenericError "HyperBEAM inference failed: connection failed"
    = MkError GenericError ("HyperBEAM inference failed: " +:+ err_message cause)
    ∧ [EvLog info "Sending inference request to HyperBEAM" [("prompt", JStr "hi")];
       infer_call cfg1 [("prompt", "hi")];
       EvLog error "HyperBEAM inference failed" [("error", JStr "connection failed")]]
      = tr ++ [EvLog error "HyperBEAM inference failed"
                 [("error", JStr (err_message cause))]].
Proof.
  apply (inference_failure_is_wrapped cfg1 "hi" JUndefined (MkWorld [] [])
           (MkWorld [] _) _).
  left. reflexivity.
Defined.

(** X9.  A [config] that is an object (with no [toString] of its own) goes
    into the query of [src/index.ts] as ["[object Object]"], since
    [URLSearchParams.append] converts it with [String]; the
    [runHyperBeamInference] written for the [AOProcess] loop sends its JSON
    text (and makes no call when [JSON.stringify] throws). *)
Theorem object_config_is_sent_as_its_String (cfg : Config) (prompt : string)
    (ps : list (string * JSValue)) (w : World) :
  has_own ps "toString" = false →
  (∃ evs, trace (Index.runHyperBeamInference cfg prompt (JObj ps) w).2 = trace w ++ evs
          ∧ calls_of evs
            = [infer_call cfg [("prompt", prompt); ("config", "[object Object]")]])
  ∧ (∃ evs, trace (AOIndex.runHyperBeamInference cfg prompt (JObj ps) w).2
            = trace w ++ evs
          ∧ calls_of evs
            = match JSON_stringify (JObj ps) with
              | Normal s => [infer_call cfg [("prompt", prompt);
                                             ("config", default "undefined" s)]]
              | Throw _ => []
              end).
Proof.
  intros Hown. destruct w as [s tr]. split.
  - unfold Index.runHyperBeamInference, inference_failed. plumb.
    cbn [truthy String_]. rewrite Hown. fold (inference_url cfg).
    destruct s as [|r rest]; [by eexists [_; _; _]; rewrite <- !app_assoc|].
    destruct r as [q|q|[out|e]];
      [eexists [_; _; _]|eexists [_; _; _]|eexists [_; _]|eexists [_; _; _]];
      by rewrite <- !app_assoc.
  - unfold AOIndex.runHyperBeamInference, inference_failed. plumb.
    cbn [truthy]. fold (inference_url cfg).
    destruct (JSON_stringify (JObj ps)) as [js|e]; [|by eexists [_]].
    destruct s as [|r rest]; [by eexists [_; _; _]; rewrite <- !app_assoc|].
    destruct r as [q|q|[out|e]];
      [eexists [_; _; _]|eexists [_; _; _]|eexists [_; _]|eexists [_; _; _]];
      by rewrite <- !app_assoc.
Qed.

Lemma object_config_is_sent_as_its_String_witness :
  ∃ evs, trace (Index.runHyperBeamInference cfg1 "hi" (JObj [("n_gpu_layers", JInt 48)])
                  (MkWorld [] [])).2 = [] ++ evs
         ∧ calls_of evs
           = [infer_call cfg1 [("prompt", "hi"); ("config", "[object Object]")]].
Proof.
  apply (object_config_is_sent_as_its_String cfg1 "hi" [("n_gpu_layers", JInt 48)]
           (MkWorld [] [])).
  reflexivity.
Defined.

Lemma turns_never_throw (turn : M unit) :
  (∀ w, ∃ w', turn w = (Returned tt, w') ∨ ∃ n, turn w = (Exited n, w')) →
  ∀ k w e w', turns turn k w ≠ (Thrown e, w').
Proof.
  intros Hturn k. induction k as [|k IH]; intros w e w'; [done|].
  cbn [turns]. unfold mbind, M_bind.
  destruct (Hturn w) as (w1 & [-> | [n ->]]); [apply IH|done].
Qed.

Lemma tryM_id {A} (m : M A) (h : JSError → M A) (w : World) :
  (∀ e w', m w ≠ (Thrown e, w')) → tryM m h w = m w.
Proof.
  intros H. unfold tryM. destruct (m w) as [[a|e|n] w'] eqn:Hm; [done| |done].
  by destruct (H e w').
Qed.

(** X10.  [main] never rejects, so the [catch] on [main()] (the
    ["Fatal error:"] line and its [process.exit(1)]) changes nothing, in
    either [index.ts]. The process of [src/index.ts] ends, with status 1 and
    the one line about [POOL_PROCESS_ID], exactly when [POOL_PROCESS_ID] is
    empty; otherwise the loop is still running after any number of turns. *)
Theorem the_catch_of_main_is_never_taken (cfg : Config) (n : nat) (w : World) :
  Index.start cfg n w = Index.main cfg n w
  ∧ AOIndex.start cfg n w = AOIndex.main cfg n w
  ∧ (Index.main cfg n w
     = (Exited 1,
        MkWorld (script w)
          (trace w ++ [EvLog error "POOL_PROCESS_ID environment variable is not set" []]))
     ↔ POOL_PROCESS_ID cfg = "")
  ∧ (POOL_PROCESS_ID cfg = "" ∨ ∃ w', Index.main cfg n w = (Returned tt, w')).
Proof.
  assert (∀ k w e w', turns (Index.iteration cfg) k w ≠ (Thrown e, w')) as Hturns.
  { apply turns_never_throw. intros w0.
    destruct (iteration_waits_once cfg w0) as (evs & w1 & -> & _). exists w1. by left. }
  assert (∀ k w, ∃ w', turns (Index.iteration cfg) k w = (Returned tt, w')) as Hret.
  { intros k. induction k as [|k IH]; intros w0; [by exists w0|].
    cbn [turns]. unfold mbind, M_bind.
    destruct (iteration_waits_once cfg w0) as (evs & w1 & -> & _). apply IH. }
  assert (∀ k w e w', turns (AOIndex.iteration cfg (AOIndex.poolProcess cfg)) k w
                       ≠ (Thrown e, w')) as Hao.
  { apply turns_never_throw. intros w0.
    destruct (ao_turn_waits_or_exits cfg (AOIndex.poolProcess cfg) w0)
      as (evs & w1 & _ & [[-> _]|[-> _]]); exists w1; [by left|right; by exists 1]. }
  split; [|split; [|split]].
  - unfold Index.start. apply tryM_id. intros e w'. unfold Index.main.
    destruct (String.eqb (POOL_PROCESS_ID cfg) ""); [done|].
    unfold starting. plumb. apply Hturns.
  - unfold AOIndex.start. apply tryM_id. intros e w'. unfold AOIndex.main.
    destruct (String.eqb (POOL_PROCESS_ID cfg) ""); [done|].
    unfold starting. plumb. apply Hao.
  - unfold Index.main. destruct (String.eqb (POOL_PROCESS_ID cfg) "") eqn:Hp.
    + apply String.eqb_eq in Hp. done.
    + apply String.eqb_neq in Hp. unfold starting. plumb. split; [|done].
      match goal with |- turns _ _ ?w0 = _ → _ => destruct (Hret n w0) as [w1 ->] end.
      done.
  - unfold Index.main. destruct (String.eqb (POOL_PROCESS_ID cfg) "") eqn:Hp.
    + apply String.eqb_eq in Hp. by left.
    + right. unfold starting. plumb. apply Hret.
Qed.

(* ===================================================================== *)
(** ** Failures of [receiveTask] and [handleApusMessage] *)
(* ===================================================================== *)

(** X11.  When the reply to [Get-Pending-Task] has a non-empty string in its
    [Error] field, [receiveTask] fails with an [Error] carrying that string,
    whatever the messages of the reply are, after the one request. *)
Theorem receiveTask_fails_with_the_error_of_the_reply (cfg : Config) (nodeID : string)
    (msg : MessageResult) (s : string) (rest : list Reply) (tr : list Event) :
  Error msg = JStr s → s ≠ "" →
  Request.receiveTask cfg nodeID (MkWorld (RResult (Fulfilled msg) :: rest) tr)
  = (Thrown (MkError GenericError s), fetched_by cfg nodeID rest tr).
Proof.
  intros He Hs. rewrite receiveTask_run. unfold Request.select_messages.
  rewrite He. cbn [truthy]. apply String.eqb_neq in Hs. by rewrite Hs.
Qed.

Lemma receiveTask_fails_with_the_error_of_the_reply_witness :
  Request.receiveTask cfg1 "node-1"
    (MkWorld [RResult (Fulfilled
                (MkResult JUndefined
                   (Some [MkMessage (Some [MkTag "Code" (Some "200")]) (JStr payload_t1)])
                   [] (JStr "out of gas")))] [])
  = (Thrown (MkError GenericError "out of gas"), fetched_by cfg1 "node-1" [] []).
Proof.
  apply receiveTask_fails_with_the_error_of_the_reply; [reflexivity|discriminate].
Defined.

Lemma select_messages_unknown (msg : MessageResult) (m : Message) (ms : list Message)
    (ts : list AOMessageTag) :
  truthy (Error msg) = false → Messages msg = Some (m :: ms) → Tags m = Some ts →
  last_value ts "Code" ≠ Some (Some "200") →
  last_value ts "Code" ≠ Some (Some "403") →
  last_value ts "Code" ≠ Some (Some "204") →
  Request.select_messages msg
  = (e ← new_Error (Hb.error_text (reduce ts) (Data m)); Throw e).
Proof.
  intros He Hms Hts H200 H403 H204. unfold Request.select_messages. rewrite He.
  rewrite (extractMessage_at msg (m :: ms) 0 m ts Hms eq_refl Hts).
  change (Normal tt ≫= _) with
    (if is_lit (reduce ts !! "Code") "200" then Normal (Messages msg)
     else if is_lit (reduce ts !! "Code") "403" then Throw Request.not_a_function
     else if is_lit (reduce ts !! "Code") "204"
          then Throw (MkError GenericError "No pending tasks available")
     else e ← new_Error (Hb.error_text (reduce ts) (Data m)); Throw e).
  rewrite reduce_lookup. change (String.eqb "Code" "__proto__") with false. cbv iota.
  destruct (last_value ts "Code") as [[c|]|]; cbn [is_lit]; try done.
  destruct (String.eqb c "200") eqn:E1; [apply String.eqb_eq in E1; congruence|].
  destruct (String.eqb c "403") eqn:E2; [apply String.eqb_eq in E2; congruence|].
  destruct (String.eqb c "204") eqn:E3; [apply String.eqb_eq in E3; congruence|].
  done.
Qed.

(** X12.  On a reply whose first message has a [Code] other than ["200"],
    ["403"] and ["204"] (or none), [receiveTask] fails with the text of the
    [Error] tag when that is not empty; else with the data of the message when
    that is a non-empty string; else with ["Unknown error"]. *)
Theorem receiveTask_names_the_failure (cfg : Config) (nodeID : string)
    (msg : MessageResult) (m : Message) (ms : list Message) (ts : list AOMessageTag)
    (rest : list Reply) (tr : list Event) :
  truthy (Error msg) = false → Messages msg = Some (m :: ms) → Tags m = Some ts →
  last_value ts "Code" ≠ Some (Some "200") →
  last_value ts "Code" ≠ Some (Some "403") →
  last_value ts "Code" ≠ Some (Some "204") →
  (∀ s, last_value ts "Error" = Some (Some s) → s ≠ "" →
        Request.receiveTask cfg nodeID (MkWorld (RResult (Fulfilled msg) :: rest) tr)
        = (Thrown (MkError GenericError s), fetched_by cfg nodeID rest tr))
  ∧ (∀ d, no_error_tag ts → Data m = JStr d → d ≠ "" →
        Request.receiveTask cfg nodeID (MkWorld (RResult (Fulfilled msg) :: rest) tr)
        = (Thrown (MkError GenericError d), fetched_by cfg nodeID rest tr))
  ∧ (no_error_tag ts → truthy (Data m) = false →
        Request.receiveTask cfg nodeID (MkWorld (RResult (Fulfilled msg) :: rest) tr)
        = (Thrown (MkError GenericError "Unknown error"), fetched_by cfg nodeID rest tr)).
Proof.
  intros He Hms Hts H200 H403 H204. rewrite receiveTask_run.
  rewrite (select_messages_unknown msg m ms ts) by done.
  unfold Hb.error_text. rewrite reduce_lookup.
  change (String.eqb "Error" "__proto__") with false. cbv iota.
  assert (∀ s, s ≠ "" → negb (String.eqb s "") = true) as Hne.
  { intros s Hs. apply String.eqb_neq in Hs. by rewrite Hs. }
  split; [|split].
  - intros s -> Hs. cbn [tag_value truthy]. by rewrite (Hne s Hs).
  - intros d Hno -> Hd.
    assert (truthy (tag_value (last_value ts "Error")) = false) as ->.
    { unfold no_error_tag in Hno.
      destruct (last_value ts "Error") as [[s|]|]; [|done..].
      by rewrite (Hno s eq_refl). }
    cbn [truthy]. by rewrite (Hne d Hd).
  - intros Hno Hd.
    assert (truthy (tag_value (last_value ts "Error")) = false) as ->.
    { unfold no_error_tag in Hno.
      destruct (last_value ts "Error") as [[s|]|]; [|done..].
      by rewrite (Hno s eq_refl). }
    by rewrite Hd.
Qed.

Lemma receiveTask_names_the_failure_witness :
  Request.receiveTask cfg1 "node-1" (MkWorld [RResult (Fulfilled refused)] [])
  = (Thrown (MkError GenericError "pool is closed"), fetched_by cfg1 "node-1" [] []).
Proof.
  refine (proj1 (receiveTask_names_the_failure cfg1 "node-1" refused
                   (MkMessage (Some [MkTag "Code" (Some "500");
                                     MkTag "Error" (Some "pool is closed")])
                      (JStr "details")) []
                   [MkTag "Code" (Some "500"); MkTag "Error" (Some "pool is closed")]
                   [] [] eq_refl eq_refl eq_refl _ _ _) "pool is closed" eq_refl _);
    discriminate.
Defined.

Lemma extractMessage_first_message (msg : MessageResult) (tags : TagRecord) (d : JSValue) :
  Hb.extractMessage (Some msg) 0 = Normal (tags, d) ↔
  ∃ m rest ts, Messages msg = Some (m :: rest) ∧ Tags m = Some ts
               ∧ tags = reduce ts ∧ d = Data m.
Proof.
  unfold Hb.extractMessage. destruct (Messages msg) as [[|m rest]|].
  - simpl. split; [done|]. intros (? & ? & ? & [=] & _).
  - simpl. destruct (Tags m) as [ts|] eqn:Hts.
    + split.
      * intros [= <- <-]. by exists m, rest, ts.
      * intros (? & ? & ? & [= <- <-] & Hts' & -> & ->). congruence.
    + split; [done|]. intros (? & ? & ? & [= <- <-] & ? & _). congruence.
  - split; [done|]. intros (? & ? & ? & [=] & _).
Qed.

(** X13.  [handleApusMessage] returns, and then returns the messages of the
    result, exactly when the [Error] field is falsy and the first message has
    tags whose [Code] is absent, empty or ["200"]. It accepts whatever the
    first step of [receiveTask] accepts. *)
Theorem handleApusMessage_accepts_exactly (msg : MessageResult) :
  (∀ ms, Hb.handleApusMessage msg = Normal ms ↔
         truthy (Error msg) = false ∧ ms = Messages msg
         ∧ ∃ m rest ts, Messages msg = Some (m :: rest) ∧ Tags m = Some ts
             ∧ ∀ c, last_value ts "Code" = Some (Some c) → c = "" ∨ c = "200")
  ∧ (∀ ms, Request.select_messages msg = Normal ms → Hb.handleApusMessage msg = Normal ms).
Proof.
  assert (∀ ms, Hb.handleApusMessage msg = Normal ms ↔
         truthy (Error msg) = false ∧ ms = Messages msg
         ∧ ∃ m rest ts, Messages msg = Some (m :: rest) ∧ Tags m = Some ts
             ∧ ∀ c, last_value ts "Code" = Some (Some c) → c = "" ∨ c = "200") as Hiff.
  { intros ms. unfold Hb.handleApusMessage.
    destruct (truthy (Error msg)).
    { split; [|by intros [? _]]. simpl. by destruct (new_Error (Error msg)). }
    change (Normal tt ≫= ?k) with (k tt). cbv beta.
    destruct (Hb.extractMessage (Some msg) 0) as [[tags d]|e] eqn:Hex.
    2: { split; [done|]. intros (_ & _ & m & rest & ts & Hms & Hts & _).
         assert (Hb.extractMessage (Some msg) 0 = Normal (reduce ts, Data m)) as H'
           by (apply extractMessage_first_message; by exists m, rest, ts).
         congruence. }
    apply extractMessage_first_message in Hex as (m & rest & ts & Hms & Hts & -> & ->).
    change (Normal (reduce ts, Data m) ≫= ?k) with (k (reduce ts, Data m)). cbv beta iota.
    rewrite reduce_lookup. change (String.eqb "Code" "__proto__") with false. cbv iota.
    destruct (last_value ts "Code") as [[c|]|] eqn:Hc; cbn [tag_value truthy is_lit].
    - destruct (String.eqb c "") eqn:E0.
      { apply String.eqb_eq in E0 as ->. simpl. split.
        - intros [= <-]. split; [done|]. split; [done|]. exists m, rest, ts.
          repeat split; try done. intros c Hc'. rewrite Hc in Hc'. injection Hc' as <-. by left.
        - by intros (_ & -> & _). }
      destruct (String.eqb c "200") eqn:E2.
      { apply String.eqb_eq in E2 as ->. simpl. split.
        - intros [= <-]. split; [done|]. split; [done|]. exists m, rest, ts.
          repeat split; try done. intros c Hc'. rewrite Hc in Hc'. injection Hc' as <-. by right.
        - by intros (_ & -> & _). }
      simpl. split.
      { by destruct (new_Error (Hb.error_text (reduce ts) (Data m))). }
      intros (_ & _ & m' & rest' & ts' & Hms' & Hts' & Hcode).
      rewrite Hms in Hms'. injection Hms' as <- <-. rewrite Hts in Hts'.
      injection Hts' as <-. destruct (Hcode c Hc) as [->| ->]; done.
    - simpl. split.
      + intros [= <-]. split; [done|]. split; [done|]. exists m, rest, ts.
        repeat split; try done. intros c Hc'. by rewrite Hc in Hc'.
      + by intros (_ & -> & _).
    - simpl. split.
      + intros [= <-]. split; [done|]. split; [done|]. exists m, rest, ts.
        repeat split; try done. intros c Hc'. by rewrite Hc in Hc'.
      + by intros (_ & -> & _). }
  split; [done|].
  intros ms Hsel. apply Hiff. unfold Request.select_messages in Hsel.
  destruct (truthy (Error msg)).
  { simpl in Hsel. by destruct (new_Error (Error msg)). }
  change (Normal tt ≫= ?k) with (k tt) in Hsel. cbv beta in Hsel.
  destruct (Hb.extractMessage (Some msg) 0) as [[tags d]|e] eqn:Hex; [|done].
  apply extractMessage_first_message in Hex as (m & rest & ts & Hms & Hts & -> & ->).
  change (Normal (reduce ts, Data m) ≫= ?k) with (k (reduce ts, Data m)) in Hsel.
  cbv beta iota in Hsel.
  rewrite reduce_lookup in Hsel. change (String.eqb "Code" "__proto__") with false in Hsel.
  cbv iota in Hsel.
  destruct (is_lit (last_value ts "Code") "200") eqn:H200.
  - injection Hsel as <-. split; [done|]. split; [done|]. exists m, rest, ts.
    repeat split; try done. intros c Hc. rewrite Hc in H200. simpl in H200.
    apply String.eqb_eq in H200. by right.
  - destruct (is_lit (last_value ts "Code") "403"); [done|].
    destruct (is_lit (last_value ts "Code") "204"); [done|].
    by destruct (new_Error (Hb.error_text (reduce ts) (Data m))).
Qed.

(* ===================================================================== *)
(** ** Numerals and JSON texts read back *)
(* ===================================================================== *)

Lemma append_nil_r (s : string) : s +:+ "" = s.
Proof. induction s as [|c s IH]; [done|]. by rewrite <- IH at 2. Qed.

Lemma append_assoc (s t u : string) : (s +:+ t) +:+ u = s +:+ t +:+ u.
Proof.
  induction s as [|c s IH]; [done|].
  change (String c ((s +:+ t) +:+ u) = String c (s +:+ t +:+ u)). by rewrite IH.
Qed.

Lemma length_append (s t : string) :
  String.length (s +:+ t) = (String.length s + String.length t)%nat.
Proof.
  induction s as [|c s IH]; [done|].
  change (S (String.length (s +:+ t)) = S (String.length s + String.length t)).
  by rewrite IH.
Qed.

Lemma pretty_N_go_append (x : N) (s : string) :
  pretty_N_go x s = pretty_N_go x "" +:+ s.
Proof.
  revert s. induction (N.lt_wf_0 x) as [x _ IH]; intros s.
  destruct (decide (x = 0)%N) as [->|Hx]; [done|].
  assert (x `div` 10 < x)%N as Hlt by (apply N.div_lt; lia).
  rewrite !(pretty_N_go_step x) by lia.
  rewrite (IH _ Hlt (String (pretty_N_char (x `mod` 10)) s)).
  rewrite (IH _ Hlt (String (pretty_N_char (x `mod` 10)) "")).
  by rewrite append_assoc.
Qed.

Lemma digit_val_pretty_N_char (d : N) :
  (d < 10)%N → digit_val (pretty_N_char d) = Some (Z.of_N d).
Proof.
  intros Hd.
  assert (d = 0 ∨ d = 1 ∨ d = 2 ∨ d = 3 ∨ d = 4 ∨ d = 5 ∨ d = 6 ∨ d = 7 ∨ d = 8
          ∨ d = 9)%N as H by lia.
  repeat destruct H as [->|H]; try done. by subst.
Qed.

(** Reading the numeral of [x] back: [k] is the number of its digits. *)
Lemma digits_pretty_N_go (x : N) (s : string) (acc count : Z) :
  ∃ k, digits (pretty_N_go x s) acc count = digits s (acc * 10 ^ k + Z.of_N x) (count + k)
       ∧ 0 ≤ k ∧ ((0 < x)%N → 0 < k ∧ 10 ^ (k - 1) ≤ Z.of_N x) ∧ Z.of_N x < 10 ^ k
       ∧ Z.of_nat (String.length (pretty_N_go x s)) = k + Z.of_nat (String.length s).
Proof.
  revert s. induction (N.lt_wf_0 x) as [x _ IH]; intros s.
  destruct (decide (x = 0)%N) as [->|Hx].
  { exists 0. rewrite pretty_N_go_0. repeat split; try lia.
    by rewrite Z.mul_1_r, Z.add_0_r, Z.add_0_r. }
  rewrite (pretty_N_go_step x) by lia.
  assert (x `div` 10 < x)%N as Hdiv by (apply N.div_lt; lia).
  pose proof (N.div_mod x 10 ltac:(lia)) as Hdm.
  pose proof (N.mod_lt x 10 ltac:(lia)) as Hmod.
  destruct (IH _ Hdiv (String (pretty_N_char (x `mod` 10)) s))
    as (k & -> & Hk & Hpos & Hlt & Hlen).
  exists (k + 1). cbn [digits]. rewrite digit_val_pretty_N_char by done.
  assert ((x `div` 10)%N = 0%N → k = 0) as Hzero.
  { intros Hd. rewrite Hd, pretty_N_go_0 in Hlen. lia. }
  cbn [String.length] in Hlen.
  revert Hdm Hmod Hpos Hlt Hlen Hzero.
  generalize (x `div` 10)%N (x `mod` 10)%N. intros q r Hdm Hmod Hpos Hlt Hlen Hzero.
  replace (k + 1 - 1) with k by lia.
  rewrite Z.pow_add_r, Z.pow_1_r by lia.
  split; [f_equal; lia|]. split; [lia|]. split; [|split; [lia|]].
  - intros _. split; [lia|].
    destruct (decide (q = 0)%N) as [Hd|Hd].
    + rewrite (Hzero Hd). simpl. lia.
    + destruct (Hpos ltac:(lia)) as [Hk0 Hlow].
      replace k with (k - 1 + 1) by lia. rewrite Z.pow_add_r, Z.pow_1_r by lia. lia.
  - rewrite Hlen. lia.
Qed.

(** A numeral does not begin with [0]. *)
Lemma pretty_N_go_head (x : N) (s : string) :
  (0 < x)%N →
  ∃ c r d, pretty_N_go x s = String c r ∧ digit_val c = Some d ∧ 0 < d.
Proof.
  revert s. induction (N.lt_wf_0 x) as [x _ IH]; intros s Hx.
  rewrite (pretty_N_go_step x) by lia.
  destruct (decide (x `div` 10 = 0)%N) as [Hd|Hd].
  - rewrite Hd, pretty_N_go_0.
    pose proof (N.div_mod x 10 ltac:(lia)) as Hdm. rewrite Hd in Hdm.
    pose proof (N.mod_lt x 10 ltac:(lia)) as Hmod.
    eexists _, _, _. split; [done|].
    rewrite digit_val_pretty_N_char by done. split; [done|].
    revert Hdm Hmod. generalize (x `mod` 10)%N. intros r Hdm Hmod. lia.
  - apply IH; [apply N.div_lt; lia|by apply N.neq_0_lt_0].
Qed.

Lemma digits_end (rest : string) (acc count : Z) :
  ends_number rest = true → digits rest acc count = (acc, count, rest).
Proof.
  destruct rest as [|c r]; [done|]. simpl. by destruct (digit_val c).
Qed.

Lemma canonical_int (z : Z) : canonical (MkNum z 0) = MkNum z 0.
Proof. unfold canonical. simpl. by rewrite Z.mul_1_r. Qed.

Lemma exponent_end (m : Z) (rest : string) :
  ends_number rest = true → exponent m 0 rest = Some (MkNum m 0, rest).
Proof.
  unfold exponent. destruct rest as [|c r]; simpl; [by rewrite canonical_int|].
  destruct (digit_val c); [done|]. intros H.
  destruct (Ascii.eqb c "e"), (Ascii.eqb c "E"), (Ascii.eqb c "."); try done.
  all: change (- 0) with 0; by rewrite canonical_int.
Qed.

Lemma pretty_Z_pos (z : Z) : 0 < z → pretty z = pretty_N_go (Z.to_N z) "".
Proof.
  intros Hz. destruct z as [|p|p]; try lia. unfold pretty, pretty_Z, pretty, pretty_positive,
    pretty, pretty_N. by rewrite decide_False by lia.
Qed.

Lemma unsigned_numeral (x : Z) (rest : string) :
  0 ≤ x → ends_number rest = true →
  ∃ c r, pretty x +:+ rest = String c r
    ∧ match pretty x +:+ rest with
      | String "0" r => Some (0, r)
      | _ => let '(v, n, r) := digits (pretty x +:+ rest) 0 0 in
             if n =? 0 then None else Some (v, r)
      end = Some (x, rest).
Proof.
  intros Hx Hend. destruct (decide (x = 0)) as [->|Hne].
  { by exists "0"%char, rest. }
  rewrite pretty_Z_pos by lia.
  destruct (pretty_N_go_head (Z.to_N x) "" ltac:(lia)) as (c & r & d & Hc & Hd & Hpos).
  exists c, (r +:+ rest). rewrite Hc. split; [done|].
  assert (c ≠ "0"%char) as Hc0 by (intros ->; simpl in Hd; injection Hd; lia).
  assert (match String c r +:+ rest with
          | String "0" r0 => Some (0, r0)
          | _ => let '(v, n, r0) := digits (String c r +:+ rest) 0 0 in
                 if n =? 0 then None else Some (v, r0)
          end
          = let '(v, n, r0) := digits (String c r +:+ rest) 0 0 in
            if n =? 0 then None else Some (v, r0)) as ->.
  { change (String c r +:+ rest) with (String c (r +:+ rest)).
    destruct c as [[] [] [] [] [] [] [] []]; try done. }
  rewrite <- Hc, <- pretty_N_go_append.
  destruct (digits_pretty_N_go (Z.to_N x) rest 0 0) as (k & -> & Hk & Hkpos & _).
  rewrite (digits_end rest) by done.
  assert ((0 + k =? 0) = false) as ->
    by (apply Z.eqb_neq; destruct (Hkpos ltac:(lia)); lia).
  f_equal. f_equal. lia.
Qed.

Lemma number_pretty (z : Z) (rest : string) :
  ends_number rest = true → number (pretty z +:+ rest) = Some (MkNum z 0, rest).
Proof.
  intros Hend. unfold number.
  destruct (Z.lt_trichotomy z 0) as [Hneg|[->|Hpos]].
  - destruct z as [|p|p]; try lia.
    change (pretty (Z.neg p)) with ("-" +:+ pretty (Z.pos p)).
    change (("-" +:+ pretty (Z.pos p)) +:+ rest)
      with (String "-" (pretty (Z.pos p) +:+ rest)).
    cbv iota beta.
    destruct (unsigned_numeral (Z.pos p) rest ltac:(lia) Hend) as (c & r & _ & ->).
    cbn [mbind option_bind]. 
    assert (match rest with
            | String "." r0 =>
                let '(v, n, r') := digits r0 (Z.pos p) 0 in
                if n =? 0 then None else Some (v, n, r')
            | _ => Some (Z.pos p, 0, rest)
            end = Some (Z.pos p, 0, rest)) as ->.
    { destruct rest as [|c' r']; [done|]. simpl in Hend.
      destruct c' as [[] [] [] [] [] [] [] []]; try done. }
    cbn [mbind option_bind]. rewrite exponent_end by done. done.
  - change (pretty 0 +:+ rest) with (String "0" rest). cbv iota beta.
    cbn [mbind option_bind].
    assert (match rest with
            | String "." r0 =>
                let '(v, n, r') := digits r0 0 0 in
                if n =? 0 then None else Some (v, n, r')
            | _ => Some (0, 0, rest)
            end = Some (0, 0, rest)) as ->.
    { destruct rest as [|c' r']; [done|]. simpl in Hend.
      destruct c' as [[] [] [] [] [] [] [] []]; try done. }
    cbn [mbind option_bind]. rewrite exponent_end by done. done.
  - destruct (unsigned_numeral z rest ltac:(lia) Hend) as (c & r & Hc & Hnum).
    assert (c ≠ "-"%char) as Hminus.
    { intros ->. rewrite pretty_Z_pos in Hc by lia.
      destruct (pretty_N_go_head (Z.to_N z) "" ltac:(lia)) as (c' & r' & d & Hc' & Hd & _).
      rewrite Hc' in Hc. injection Hc as -> _. done. }
    assert (match pretty z +:+ rest with
            | String "-" r0 => (true, r0)
            | _ => (false, pretty z +:+ rest)
            end = (false, pretty z +:+ rest)) as ->.
    { rewrite Hc. destruct c as [[] [] [] [] [] [] [] []]; try done. }
    rewrite Hnum. cbn [mbind option_bind].
    assert (match rest with
            | String "." r0 =>
                let '(v, n, r') := digits r0 z 0 in
                if n =? 0 then None else Some (v, n, r')
            | _ => Some (z, 0, rest)
            end = Some (z, 0, rest)) as ->.
    { destruct rest as [|c' r']; [done|]. simpl in Hend.
      destruct c' as [[] [] [] [] [] [] [] []]; try done. }
    cbn [mbind option_bind]. rewrite exponent_end by done. done.
Qed.

(** A text that begins with a digit or a minus sign is read as a number. *)
Lemma parse_value_number (fuel : nat) (c : ascii) (r : string) :
  is_Some (digit_val c) ∨ c = "-"%char →
  parse_value (S fuel) (String c r)
  = ('(n, r') ← number (String c r); Some (JNum n, r')).
Proof.
  intros H.
  destruct c as [[] [] [] [] [] [] [] []];
    first [reflexivity | exfalso; destruct H as [[d Hd]|Hc]; [by vm_compute in Hd|done]].
Qed.

Lemma pretty_head (z : Z) :
  ∃ c r, pretty z = String c r ∧ (is_Some (digit_val c) ∨ c = "-"%char).
Proof.
  destruct z as [|p|p].
  - exists "0"%char, "". split; [done|]. left. by eexists.
  - rewrite pretty_Z_pos by lia.
    destruct (pretty_N_go_head (Z.to_N (Z.pos p)) "" ltac:(lia)) as (c & r & d & -> & Hd & _).
    exists c, r. split; [done|]. left. by eexists.
  - exists "-"%char, (pretty (Z.pos p)). split; [done|]. by right.
Qed.

Lemma parse_value_numeral (fuel : nat) (z : Z) (rest : string) :
  ends_number rest = true →
  parse_value (S fuel) (pretty z +:+ rest) = Some (JInt z, rest).
Proof.
  intros Hend. destruct (pretty_head z) as (c & r & Hc & Hnum).
  pose proof (number_pretty z rest Hend) as Hn. rewrite Hc in *.
  change (String c r +:+ rest) with (String c (r +:+ rest)) in *.
  rewrite parse_value_number by done. by rewrite Hn.
Qed.

Lemma JSON_parse_text_numeral (z : Z) : JSON_parse_text (pretty z) = Normal (JInt z).
Proof.
  unfold JSON_parse_text.
  replace (2 * String.length (pretty z) + 2)%nat
    with (S (2 * String.length (pretty z) + 1))%nat by lia.
  rewrite <- (append_nil_r (pretty z)) at 2.
  by rewrite parse_value_numeral.
Qed.

Lemma strip_zeros_value (fuel : nat) (m e : Z) :
  m ≠ 0 → 0 ≤ e →
  ∃ m' e', strip_zeros fuel true m e = (m', e') ∧ m' ≠ 0 ∧ 0 ≤ e'
           ∧ m' * 10 ^ e' = m * 10 ^ e.
Proof.
  revert m e. induction fuel as [|fuel IH]; intros m e Hm He; [by exists m, e|].
  cbn [strip_zeros]. rewrite (proj2 (Z.eqb_neq m 0)) by done.
  destruct (m mod 10 =? 0) eqn:Hmod; [|by exists m, e].
  apply Z.eqb_eq in Hmod. cbn [andb orb].
  pose proof (Z.div_mod m 10 ltac:(lia)) as Hdm. rewrite Hmod in Hdm.
  revert Hdm. generalize (m `div` 10). intros q Hdm.
  destruct (IH q (e + 1) ltac:(lia) ltac:(lia)) as (m' & e' & -> & Hm' & He' & Hval).
  exists m', e'. repeat split; try done.
  rewrite Hval, Z.pow_add_r, Z.pow_1_r by lia. lia.
Qed.

Lemma pretty_N_times_10 (x : N) :
  (0 < x)%N → pretty_N_go (10 * x) "" = pretty_N_go x "" +:+ "0".
Proof.
  intros Hx. rewrite pretty_N_go_step by lia.
  assert ((10 * x) `div` 10 = x)%N as -> by (rewrite N.mul_comm; apply N.div_mul; lia).
  assert ((10 * x) `mod` 10 = 0)%N as -> by (rewrite N.mul_comm; apply N.Div0.mod_mul).
  apply pretty_N_go_append.
Qed.

Lemma zeros_S (k : nat) : zeros (S k) = zeros k +:+ "0".
Proof. induction k as [|k IH]; [done|]. cbn [zeros] in *. by rewrite IH at 1. Qed.

Lemma pretty_N_shift (x : N) (k : nat) :
  (0 < x)%N → pretty_N_go (x * 10 ^ N.of_nat k) "" = pretty_N_go x "" +:+ zeros k.
Proof.
  intros Hx. induction k as [|k IH].
  - by rewrite N.mul_1_r, append_nil_r.
  - rewrite Nat2N.inj_succ, N.pow_succ_r', zeros_S, <- append_assoc, <- IH.
    rewrite <- pretty_N_times_10 by lia. f_equal. lia.
Qed.

Lemma pretty_Z_neg (z : Z) : z < 0 → pretty z = "-" +:+ pretty (- z).
Proof. intros Hz. destruct z as [|p|p]; try lia. done. Qed.

Lemma Number_toString_int (z : Z) :
  - 10 ^ 21 < z < 10 ^ 21 → Number_toString (MkNum z 0) = pretty z.
Proof.
  intros Hz. destruct (decide (z = 0)) as [->|Hne]; [done|].
  unfold Number_toString, lowest_terms. cbn [mant exp10].
  destruct (strip_zeros_value (digits_bound z) z 0 Hne ltac:(lia))
    as (m & e & -> & Hm & He & Hval).
  cbn [mant exp10]. rewrite (proj2 (Z.eqb_neq m 0)) by done.
  rewrite Z.mul_1_r in Hval.
  assert (0 < 10 ^ e) as Hpow by (apply Z.pow_pos_nonneg; lia).
  assert (0 < Z.abs m) as Habs by lia.
  rewrite (pretty_Z_pos (Z.abs m)) by done.
  destruct (digits_pretty_N_go (Z.to_N (Z.abs m)) "" 0 0)
    as (k & _ & Hk & Hlow & Hup & Hlen).
  destruct (Hlow ltac:(lia)) as [Hk0 Hlow'].
  cbn [String.length] in Hlen. rewrite Hlen, Z.add_0_r.
  assert (Z.abs z = Z.abs m * 10 ^ e) as Habsz by (rewrite <- Hval, Z.abs_mul; lia).
  assert (k + e ≤ 21) as Hn.
  { destruct (decide (k + e ≤ 21)) as [|Hbig]; [done|]. exfalso.
    assert (10 ^ 21 ≤ 10 ^ (k - 1 + e)) by (apply Z.pow_le_mono_r; lia).
    rewrite Z.pow_add_r in * by lia.
    assert (10 ^ (k - 1) * 10 ^ e ≤ Z.abs m * 10 ^ e) by (apply Z.mul_le_mono_nonneg_r; lia).
    lia. }
  rewrite (proj2 (Z.leb_le k (k + e))) by lia.
  rewrite (proj2 (Z.leb_le (k + e) 21)) by done. cbn [andb].
  replace (k + e - k) with e by lia.
  assert (pretty_N_go (Z.to_N (Z.abs m)) "" +:+ zeros (Z.to_nat e) = pretty (Z.abs z)) as ->.
  { rewrite <- pretty_N_shift by lia. rewrite (pretty_Z_pos (Z.abs z)) by lia.
    f_equal. rewrite Habsz, Z2N.inj_mul, Z2N.inj_pow, Z_nat_N by lia. done. }
  destruct (m <? 0) eqn:Hsign.
  - apply Z.ltb_lt in Hsign. assert (z < 0) by nia.
    rewrite (pretty_Z_neg z) by done. f_equal. f_equal. lia.
  - apply Z.ltb_ge in Hsign. assert (0 < z) by nia.
    change ("" +:+ ?s) with s. f_equal. lia.
Qed.

Lemma JSON_stringify_array (es : list JSValue) :
  JSON_stringify (JArr es)
  = (parts ← element_texts es; Normal (Some ("[" +:+ comma_join parts +:+ "]"))).
Proof. reflexivity. Qed.

Lemma JSON_stringify_object (ps : list (string * JSValue)) :
  JSON_stringify (JObj ps)
  = (parts ← member_texts ps; Normal (Some ("{" +:+ comma_join parts +:+ "}"))).
Proof. reflexivity. Qed.

Lemma string_body_escape_char (c : ascii) (tail acc : string) :
  string_body (escape_char c +:+ tail) acc = string_body tail (acc +:+ String c "").
Proof. destruct c as [[] [] [] [] [] [] [] []]; reflexivity. Qed.

Lemma string_body_escape (s rest acc : string) :
  string_body (escape s +:+ String dq rest) acc = Some (acc +:+ s, rest).
Proof.
  revert acc. induction s as [|c s IH]; intros acc.
  - change (escape "" +:+ String dq rest) with (String dq rest). cbn [string_body].
    rewrite Ascii.eqb_refl. by rewrite append_nil_r.
  - cbn [escape]. rewrite append_assoc, string_body_escape_char, IH.
    by rewrite append_assoc.
Qed.

Lemma parse_value_string (fuel : nat) (s rest : string) :
  parse_value (S fuel) (QuoteJSONString s +:+ rest) = Some (JStr s, rest).
Proof.
  unfold QuoteJSONString, quoted.
  change (String dq (escape s +:+ String dq "") +:+ rest)
    with (String dq ((escape s +:+ String dq "") +:+ rest)).
  rewrite append_assoc. change (String dq "" +:+ rest) with (String dq rest).
  cbn [parse_value skip_ws]. change (is_ws dq) with false. cbv iota.
  change (Ascii.eqb dq "n") with false. change (Ascii.eqb dq "t") with false.
  change (Ascii.eqb dq "f") with false. rewrite Ascii.eqb_refl. cbv iota.
  by rewrite string_body_escape.
Qed.

Lemma fold_comma (ps : list string) (a b : string) :
  fold_left (fun acc s => acc +:+ "," +:+ s) ps (a +:+ b)
  = a +:+ fold_left (fun acc s => acc +:+ "," +:+ s) ps b.
Proof.
  revert b. induction ps as [|p ps IH]; intros b; [done|].
  cbn [fold_left]. by rewrite append_assoc, IH.
Qed.

Lemma comma_join_cons (p q : string) (ps : list string) :
  comma_join (p :: q :: ps) = p +:+ "," +:+ comma_join (q :: ps).
Proof.
  unfold comma_join. cbn [fold_left].
  rewrite fold_comma. f_equal.
  change ("," +:+ q) with (String "," q).
  change (String "," q) with ("," +:+ q). by rewrite fold_comma.
Qed.

Lemma starts_value_pretty (z : Z) : starts_value (pretty z) = true.
Proof.
  destruct (pretty_head z) as (c & r & -> & Hc). simpl.
  destruct c as [[] [] [] [] [] [] [] []]; try done;
    exfalso; destruct Hc as [[d Hd]|Hc]; by vm_compute in Hd || done.
Qed.

Lemma ends_number_comma (rest : string) : ends_number ("," +:+ rest) = true.
Proof. done. Qed.
Lemma ends_number_bracket (rest : string) : ends_number ("]" +:+ rest) = true.
Proof. done. Qed.
Lemma ends_number_brace (rest : string) : ends_number ("}" +:+ rest) = true.
Proof. done. Qed.

Lemma skip_ws_value (s rest : string) :
  starts_value s = true → skip_ws (s +:+ rest) = s +:+ rest.
Proof.
  destruct s as [|c s]; [done|]. simpl. intros H.
  change (String c s +:+ rest) with (String c (s +:+ rest)). cbn [skip_ws].
  by destruct (is_ws c).
Qed.

Lemma parse_elements_texts (es : list JSValue) (parts : list string) :
  Forall2 reads_back es parts → es ≠ [] →
  ∀ g rest acc, (2 * String.length (comma_join parts +:+ "]") ≤ g)%nat →
    parse_elements g ((comma_join parts +:+ "]") +:+ rest) acc
    = Some (JArr (acc ++ es), rest).
Proof.
  induction 1 as [|e p es' parts' [Hstart Hread] Hrest IH]; [done|]. intros _ g rest acc Hg.
  destruct Hrest as [|e2 p2 es'' parts'' Hp2 Hrest'].
  - change (comma_join [p]) with p in *. rewrite length_append in Hg. cbn in Hg.
    destruct g as [|g']; [lia|]. cbn [parse_elements].
    rewrite append_assoc, Hread by (done || lia). cbn [mbind option_bind].
    done.
  - rewrite comma_join_cons in *. rewrite !append_assoc in *.
    rewrite !length_append in Hg. cbn [String.length] in Hg.
    destruct g as [|g']; [lia|]. cbn [parse_elements].
    rewrite Hread by (done || lia). cbn [mbind option_bind].
    change (skip_ws ("," +:+ ?r)) with (String "," r). cbv iota.
    rewrite <- append_assoc.
    rewrite IH; [by rewrite <- app_assoc|done|].
    rewrite length_append. cbn [String.length]. lia.
Qed.

Lemma has_own_notin {A} (ps : list (string * A)) (k : string) :
  k ∉ ps.*1 → has_own ps k = false.
Proof.
  unfold has_own. induction ps as [|[k' v] ps IH]; [done|]. cbn [own fmap list_fmap fst].
  intros Hk. apply not_elem_of_cons in Hk as [Hne Hk].
  destruct (String.eqb k' k) eqn:E; [apply String.eqb_eq in E; congruence|]. by apply IH.
Qed.

Lemma define_own_fresh (acc : list (string * JSValue)) (k : string) (v : JSValue) :
  k ∉ acc.*1 → is_index k = false → define_own acc k v = acc ++ [(k, v)].
Proof.
  intros Hk Hi. unfold define_own. rewrite has_own_notin by done.
  unfold is_index in Hi. by destruct (array_index k).
Qed.

Lemma parse_members_texts (ps : list (string * JSValue)) (parts : list string) :
  Forall2 member_reads_back ps parts → ps ≠ [] →
  ∀ g rest acc, NoDup (acc ++ ps).*1 →
    (2 * String.length (comma_join parts +:+ "}") ≤ g)%nat →
    parse_members g ((comma_join parts +:+ "}") +:+ rest) acc
    = Some (JObj (acc ++ ps), rest).
Proof.
  induction 1 as [|[k v] p ps' parts' (t & -> & [Hstart Hread] & Hidx) Hrest IH]; [done|].
  intros _ g rest acc Hnd Hg. cbn [fst snd] in *.
  assert (k ∉ acc.*1) as Hk.
  { rewrite fmap_app in Hnd. apply NoDup_app in Hnd as (_ & Hdisj & _).
    intros Hin. apply (Hdisj k Hin). cbn. apply elem_of_cons. by left. }
  assert (NoDup ((acc ++ [(k, v)]) ++ ps').*1) as Hnd'.
  { by rewrite <- app_assoc. }
  assert (∀ tail, parse_members g ((QuoteJSONString k +:+ ":" +:+ t) +:+ tail) acc
          = match g with
            | O => None
            | S g' =>
                '(v', r2) ← parse_value g' (t +:+ tail);
                match skip_ws r2 with
                | String "," r3 => parse_members g' r3 (define_own acc k v')
                | String "}" r3 => Some (JObj (define_own acc k v'), r3)
                | _ => None
                end
            end) as Hstep.
  { intros tail. destruct g as [|g']; [done|]. cbn [parse_members].
    unfold QuoteJSONString, quoted. rewrite !append_assoc.
    change (String dq (escape k +:+ String dq "") +:+ ?r)
      with (String dq ((escape k +:+ String dq "") +:+ r)).
    rewrite append_assoc.
    change (String dq "" +:+ ?r) with (String dq r).
    cbn [skip_ws]. change (is_ws dq) with false. cbv iota. rewrite Ascii.eqb_refl.
    rewrite string_body_escape. cbn [mbind option_bind].
    change (skip_ws (":" +:+ ?r)) with (String ":" r). cbv iota.
    done. }
  destruct Hrest as [|kv2 p2 ps'' parts'' Hp2 Hrest'].
  - change (comma_join [?x]) with x in *. rewrite append_assoc, Hstep.
    rewrite !length_append in Hg. cbn [String.length] in Hg.
    destruct g as [|g']; [lia|].
    rewrite Hread by (done || lia). cbn [mbind option_bind].
    change (skip_ws ("}" +:+ ?r)) with (String "}" r). cbv iota.
    by rewrite define_own_fresh.
  - rewrite comma_join_cons in *. rewrite !append_assoc in *. rewrite <- !append_assoc.
    rewrite !append_assoc. 
    pose proof (Hstep ("," +:+ comma_join (p2 :: parts'') +:+ "}" +:+ rest)) as Hs.
    rewrite !append_assoc in Hs. rewrite Hs. clear Hs Hstep.
    rewrite !length_append in Hg. cbn [String.length] in Hg.
    destruct g as [|g']; [lia|].
    rewrite Hread by (done || lia). cbn [mbind option_bind].
    change (skip_ws ("," +:+ ?r)) with (String "," r). cbv iota.
    rewrite define_own_fresh by done.
    rewrite <- append_assoc.
    rewrite IH; [by rewrite <- app_assoc|done|done|].
    rewrite length_append. cbn [String.length]. lia.
Qed.

Lemma reads_back_literal (v : JSValue) (s : string) :
  starts_value s = true →
  (∀ f rest, parse_value (S f) (s +:+ rest) = Some (v, rest)) →
  reads_back v s.
Proof.
  intros Hs Hp. split; [done|]. intros fuel rest Hf _.
  destruct s as [|c s]; [done|]. cbn [String.length] in Hf.
  destruct fuel as [|f]; [lia|]. apply Hp.
Qed.

Lemma plain_reads_back (v : JSValue) :
  plain v = true → ∃ s, JSON_stringify v = Normal (Some s) ∧ reads_back v s.
Proof.
  induction v as [| |b|n|s|z|es IH|ps IH|k] using JSValue_nested_ind; intros Hp;
    try done.
  - exists "null". split; [done|]. by apply reads_back_literal.
  - exists (if b then "true" else "false"). split; [done|].
    destruct b; by apply reads_back_literal.
  - destruct n as [z e]. cbn [plain mant exp10] in Hp.
    apply andb_prop in Hp as [[He Hlo]%andb_prop Hhi].
    apply Z.eqb_eq in He as ->. apply Z.ltb_lt in Hlo, Hhi.
    exists (pretty z). cbn [JSON_stringify]. rewrite Number_toString_int by lia.
    split; [done|]. split; [apply starts_value_pretty|].
    intros fuel rest Hf Hend.
    destruct (pretty_head z) as (c & r & Hc & _). rewrite Hc in Hf.
    cbn [String.length] in Hf. destruct fuel as [|f]; [lia|].
    by apply parse_value_numeral.
  - exists (QuoteJSONString s). split; [done|].
    apply reads_back_literal; [done|]. intros. apply parse_value_string.
  - cbn [plain] in Hp.
    assert (∃ parts, element_texts es = Normal parts ∧ Forall2 reads_back es parts)
      as (parts & Htexts & Hparts).
    { induction IH as [|e es' He _ IHes]; [by exists []|].
      cbn [forallb] in Hp. apply andb_prop in Hp as [Hpe Hpes].
      destruct (He Hpe) as (s & Hs & Hr). destruct (IHes Hpes) as (parts & Hparts & HF).
      exists (s :: parts). cbn [element_texts]. rewrite Hs, Hparts. split; [done|].
      by constructor. }
    exists ("[" +:+ comma_join parts +:+ "]"). rewrite JSON_stringify_array, Htexts.
    split; [done|]. split; [done|]. intros fuel rest Hf Hend.
    change ("[" +:+ ?x) with (String "[" x) in *. cbn [String.length] in Hf.
    destruct fuel as [|f]; [lia|].
    change (String "[" (comma_join parts +:+ "]") +:+ rest)
      with (String "[" ((comma_join parts +:+ "]") +:+ rest)).
    cbn [parse_value skip_ws]. change (is_ws "[") with false. cbv iota.
    change (Ascii.eqb "[" "n") with false. change (Ascii.eqb "[" "t") with false.
    change (Ascii.eqb "[" "f") with false. change (Ascii.eqb "[" dq) with false.
    change (Ascii.eqb "[" "[") with true. cbv iota.
    destruct Hparts as [|e p es' parts' Hp1 Hrest]; [done|].
    assert (starts_value (comma_join (p :: parts') +:+ "]") = true) as Hstart.
    { destruct Hp1 as [Hp1 _]. destruct parts' as [|p2 parts''].
      - change (comma_join [p]) with p. by destruct p.
      - rewrite comma_join_cons. by destruct p. }
    rewrite skip_ws_value by done.
    assert (starts_value ((comma_join (p :: parts') +:+ "]") +:+ rest) = true) as Hstart'.
    { destruct (comma_join (p :: parts') +:+ "]"); done. }
    match goal with
    | |- ?lhs = _ =>
        assert (lhs = parse_elements f ((comma_join (p :: parts') +:+ "]") +:+ rest) [])
          as ->
    end.
    { destruct ((comma_join (p :: parts') +:+ "]") +:+ rest) as [|c tl]; [done|].
      simpl in Hstart'. destruct c as [[] [] [] [] [] [] [] []]; done. }
    rewrite (parse_elements_texts (e :: es') (p :: parts')); [done|by constructor|done|].
    lia.
  - cbn [plain] in Hp. apply andb_prop in Hp as [Hp Hnd]. apply bool_decide_eq_true in Hnd.
    assert (∃ parts, member_texts ps = Normal parts ∧ Forall2 member_reads_back ps parts)
      as (parts & Htexts & Hparts).
    { clear Hnd. induction IH as [|[k v] ps' He _ IHps]; [by exists []|].
      cbn [forallb snd fst] in Hp. apply andb_prop in Hp as [[Hpv Hik]%andb_prop Hps].
      destruct (He Hpv) as (s & Hs & Hr). destruct (IHps Hps) as (parts & Hparts & HF).
      exists ((QuoteJSONString k +:+ ":" +:+ s) :: parts). cbn [member_texts].
      cbn [snd] in Hs. rewrite Hs, Hparts. split; [done|].
      constructor; [|done]. exists s. split; [done|]. split; [done|].
      by apply negb_true_iff in Hik. }
    exists ("{" +:+ comma_join parts +:+ "}"). rewrite JSON_stringify_object, Htexts.
    split; [done|]. split; [done|]. intros fuel rest Hf Hend.
    change ("{" +:+ ?x) with (String "{" x) in *. cbn [String.length] in Hf.
    destruct fuel as [|f]; [lia|].
    change (String "{" (comma_join parts +:+ "}") +:+ rest)
      with (String "{" ((comma_join parts +:+ "}") +:+ rest)).
    cbn [parse_value skip_ws]. change (is_ws "{") with false. cbv iota.
    change (Ascii.eqb "{" "n") with false. change (Ascii.eqb "{" "t") with false.
    change (Ascii.eqb "{" "f") with false. change (Ascii.eqb "{" dq) with false.
    change (Ascii.eqb "{" "[") with false. change (Ascii.eqb "{" "{") with true. cbv iota.
    destruct Hparts as [|kv p ps' parts' Hp1 Hrest]; [done|].
    assert (∃ body, comma_join (p :: parts') +:+ "}" = String dq body) as [body Hbody].
    { destruct Hp1 as (t & -> & _). destruct parts' as [|p2 parts''].
      - change (comma_join [?x]) with x. by eexists.
      - rewrite comma_join_cons. by eexists. }
    match goal with
    | |- ?lhs = _ =>
        assert (lhs = parse_members f ((comma_join (p :: parts') +:+ "}") +:+ rest) [])
          as ->
    end.
    { by rewrite Hbody. }
    rewrite (parse_members_texts (kv :: ps') (p :: parts')); [done|by constructor|done|done|].
    lia.
Qed.





(** X16.  [hasPendingTask] tells whether the counter is positive, whether the
    cache hands it over as a number or as its decimal text; it makes the one
    cache request and takes the one reply. *)
Theorem hasPendingTask_compares_the_count (cfg : Config) (z : Z) (rest : list Reply)
    (tr : list Event) :
  - 10 ^ 21 < z < 10 ^ 21 →
  Request.hasPendingTask cfg (MkWorld (RData (Fulfilled (JInt z)) :: rest) tr)
  = (Returned (0 <? z), MkWorld rest (tr ++ [check_call cfg]))
  ∧ Request.hasPendingTask cfg (MkWorld (RData (Fulfilled (JStr (pretty z))) :: rest) tr)
    = (Returned (0 <? z), MkWorld rest (tr ++ [check_call cfg])).
Proof.
  intros Hz. rewrite !hasPendingTask_run. unfold Hb.cached, JSON_parse, JInt.
  cbn [String_ mbind Completion_bind]. rewrite Number_toString_int by done.
  rewrite JSON_parse_text_numeral. done.
Qed.

Lemma hasPendingTask_compares_the_count_witness :
  Request.hasPendingTask cfg1 (MkWorld [RData (Fulfilled (JInt 3))] [])
  = (Returned true, MkWorld [] [check_call cfg1])
  ∧ Request.hasPendingTask cfg1 (MkWorld [RData (Fulfilled (JStr "3"))] [])
    = (Returned true, MkWorld [] [check_call cfg1]).
Proof.
  apply (hasPendingTask_compares_the_count cfg1 3 [] []). lia.
Defined.

(* ===================================================================== *)
(** ** The request and the response of [requestHB] *)
(* ===================================================================== *)

Lemma own_set_own {A} (ps : list (string * A)) (k k' : string) (v : A) :
  has_own ps k = true →
  own (set_own ps k v) k' = if String.eqb k k' then Some v else own ps k'.
Proof.
  unfold has_own. induction ps as [|[k0 v0] ps IH]; [done|]. cbn [own set_own].
  destruct (String.eqb k0 k) eqn:E0.
  - apply String.eqb_eq in E0 as ->. intros _. cbn [own].
    by destruct (String.eqb k k').
  - intros H. cbn [own]. rewrite IH by done.
    destruct (String.eqb k0 k') eqn:E1; [|done].
    apply String.eqb_eq in E1 as ->. by rewrite String.eqb_sym, E0.
Qed.

Lemma own_app {A} (ps qs : list (string * A)) (k : string) :
  own (ps ++ qs) k = match own ps k with Some v => Some v | None => own qs k end.
Proof.
  induction ps as [|[k0 v0] ps IH]; [done|]. cbn [own app].
  by destruct (String.eqb k0 k).
Qed.

Lemma own_insert_sorted (ps : list (string * JSValue)) (i : Z) (k k' : string)
    (v : JSValue) :
  has_own ps k = false →
  own (insert_sorted ps i k v) k' = if String.eqb k k' then Some v else own ps k'.
Proof.
  unfold has_own. induction ps as [|[k0 v0] ps IH]; [done|]. cbn [own insert_sorted].
  destruct (String.eqb k0 k) eqn:E0; [done|]. intros H.
  assert (own ((k, v) :: (k0, v0) :: ps) k'
          = if String.eqb k k' then Some v else own ((k0, v0) :: ps) k') as Hhead by done.
  destruct (array_index k0) as [i'|]; [|done].
  destruct (i <? i'); [done|]. cbn [own]. rewrite IH by done.
  destruct (String.eqb k0 k') eqn:E1; [|done].
  apply String.eqb_eq in E1 as ->. by rewrite String.eqb_sym, E0.
Qed.

Lemma own_define_own (ps : list (string * JSValue)) (k k' : string) (v : JSValue) :
  own (define_own ps k v) k' = if String.eqb k k' then Some v else own ps k'.
Proof.
  unfold define_own. destruct (has_own ps k) eqn:Hk; [by apply own_set_own|].
  destruct (array_index k) as [i|]; [by apply own_insert_sorted|].
  rewrite own_app. cbn [own]. unfold has_own in Hk.
  destruct (String.eqb k k') eqn:E.
  - apply String.eqb_eq in E as <-. by destruct (own ps k).
  - by destruct (own ps k').
Qed.

Lemma own_foldl_define (kvs acc : list (string * JSValue)) (k : string) :
  own (foldl (fun acc kv => define_own acc kv.1 kv.2) acc kvs) k
  = match last_entry kvs k with Some v => Some v | None => own acc k end.
Proof.
  revert acc. induction kvs as [|[k0 v0] kvs IH]; intros acc; [done|].
  cbn [foldl last_entry fst snd]. rewrite IH, own_define_own.
  destruct (last_entry kvs k); [done|]. by destruct (String.eqb k0 k).
Qed.

Lemma last_entry_app {A} (xs ys : list (string * A)) (k : string) :
  last_entry (xs ++ ys) k
  = match last_entry ys k with Some v => Some v | None => last_entry xs k end.
Proof.
  induction xs as [|[k0 v0] xs IH]; [simpl; by destruct (last_entry ys k)|].
  simpl. rewrite IH. by destruct (last_entry ys k).
Qed.

(** The fields of [params]: the four written after the spread are fixed,
    the three written before it give way to a tag of their name. *)
Lemma own_params (processId : string) (tags : list (string * JSValue))
    (data : option JSValue) (k : string) :
  own (HbRequest.params processId tags data) k =
    if String.eqb k "target" then Some (JStr processId)
    else if String.eqb k "variant" then Some (JStr "ao.N.1")
    else if String.eqb k "data-protocol" then Some (JStr "ao")
    else if String.eqb k "data" then Some (HbRequest.data_or_empty data)
    else match last_entry tags k with
         | Some v => Some v
         | None =>
             if String.eqb k "method" then Some (JStr "POST")
             else if String.eqb k "path"
                  then Some (JStr ("/" +:+ processId
                                   +:+ "~process@1.0/push/serialize~json@1.0"))
             else if String.eqb k "type" then Some (JStr "Message")
             else None
         end.
Proof.
  unfold HbRequest.params. rewrite own_foldl_define, !last_entry_app.
  cbn [last_entry own]. rewrite !(String.eqb_sym _ k).
  destruct (String.eqb k "target"); [done|].
  destruct (String.eqb k "variant"); [done|].
  destruct (String.eqb k "data-protocol"); [done|].
  destruct (String.eqb k "data"); [done|].
  destruct (last_entry tags k); [done|].
  destruct (String.eqb k "method"); [done|].
  destruct (String.eqb k "path"); [done|].
  by destruct (String.eqb k "type").
Qed.

Lemma keys_set_own {A} (ps : list (string * A)) (k : string) (v : A) :
  has_own ps k = true → (set_own ps k v).*1 = ps.*1.
Proof.
  unfold has_own. induction ps as [|[k0 v0] ps IH]; [done|]. cbn [own set_own].
  destruct (String.eqb k0 k); [done|]. intros H. cbn. by rewrite IH.
Qed.

Lemma keys_insert_sorted (ps : list (string * JSValue)) (i : Z) (k : string) (v : JSValue) :
  (insert_sorted ps i k v).*1 ≡ₚ k :: ps.*1.
Proof.
  induction ps as [|[k0 v0] ps IH]; [done|]. cbn [insert_sorted].
  destruct (array_index k0) as [i'|]; [|done].
  destruct (i <? i'); [done|]. cbn. rewrite IH. apply Permutation_swap.
Qed.

Lemma has_own_elem {A} (ps : list (string * A)) (k : string) :
  has_own ps k = false → k ∉ ps.*1.
Proof.
  unfold has_own. induction ps as [|[k0 v0] ps IH]; [intros _; apply not_elem_of_nil|].
  cbn [own]. destruct (String.eqb k0 k) eqn:E; [done|]. intros H.
  apply String.eqb_neq in E. cbn. apply not_elem_of_cons. split; [done|by apply IH].
Qed.

Lemma keys_define_own (ps : list (string * JSValue)) (k : string) (v : JSValue) :
  NoDup ps.*1 → NoDup (define_own ps k v).*1.
Proof.
  intros Hnd. unfold define_own. destruct (has_own ps k) eqn:Hk.
  { by rewrite keys_set_own. }
  apply has_own_elem in Hk.
  destruct (array_index k) as [i|].
  - rewrite keys_insert_sorted. by constructor.
  - rewrite fmap_app. apply NoDup_app. split; [done|]. split.
    + intros x Hx Hin. apply list_elem_of_singleton in Hin. by subst.
    + apply NoDup_singleton.
Qed.

Lemma keys_foldl_define (kvs acc : list (string * JSValue)) :
  NoDup acc.*1 → NoDup (foldl (fun acc kv => define_own acc kv.1 kv.2) acc kvs).*1.
Proof.
  revert acc. induction kvs as [|[k v] kvs IH]; intros acc Hacc; [done|].
  cbn [foldl]. apply IH. by apply keys_define_own.
Qed.

Lemma keys_params (processId : string) (tags : list (string * JSValue))
    (data : option JSValue) :
  NoDup (HbRequest.params processId tags data).*1.
Proof. apply keys_foldl_define. apply NoDup_nil_2. Qed.

(** With distinct keys, [own] finds the only entry of a name. *)
Lemma own_filter {A} (f : A → bool) (ps : list (string * A)) (k : string) :
  NoDup ps.*1 →
  own (List.filter (fun kv => f kv.2) ps) k
  = match own ps k with Some v => if f v then Some v else None | None => None end.
Proof.
  induction ps as [|[k0 v0] ps IH]; [done|]. cbn [fmap list_fmap fst].
  intros Hnd. apply NoDup_cons in Hnd as [Hk0 Hnd]. cbn [List.filter own snd].
  destruct (String.eqb k0 k) eqn:E.
  - apply String.eqb_eq in E as ->. destruct (f v0); cbn [own].
    + by rewrite String.eqb_refl.
    + rewrite IH by done. apply has_own_notin in Hk0. unfold has_own in Hk0.
      by destruct (own ps k).
  - destruct (f v0); cbn [own]; rewrite ?E; by apply IH.
Qed.

Lemma keys_filter {A} (f : string * A → bool) (ps : list (string * A)) :
  NoDup ps.*1 → NoDup (List.filter f ps).*1.
Proof.
  induction ps as [|kv ps IH]; [done|]. cbn [fmap list_fmap].
  intros Hnd. apply NoDup_cons in Hnd as [Hk Hnd]. cbn [List.filter].
  destruct (f kv); [|by apply IH]. cbn. apply NoDup_cons. split; [|by apply IH].
  intros Hin. apply Hk. apply list_elem_of_fmap in Hin as (kv' & -> & Hin).
  apply list_elem_of_fmap. exists kv'. split; [done|].
  apply list_elem_of_In, List.filter_In in Hin as [Hin _]. by apply list_elem_of_In.
Qed.

Lemma last_entry_own {A} (ps : list (string * A)) (k : string) :
  NoDup ps.*1 → last_entry ps k = own ps k.
Proof.
  induction ps as [|[k0 v0] ps IH]; [done|]. cbn [fmap list_fmap fst].
  intros Hnd. apply NoDup_cons in Hnd as [Hk0 Hnd]. cbn [last_entry own].
  rewrite IH by done. destruct (String.eqb k0 k) eqn:E; [|by destruct (own ps k)].
  apply String.eqb_eq in E as ->. apply has_own_notin in Hk0. unfold has_own in Hk0.
  by destruct (own ps k).
Qed.

Lemma foldl_put_throw (qs : list (string * JSValue)) (e : JSError) :
  foldl (fun acc kv => a ← acc; t ← HbRequest.as_text kv.2; Normal (HbRequest.put a kv.1 t))
    (Throw e) qs = Throw e.
Proof. induction qs as [|kv qs IH]; [done|]. cbn [foldl]. apply IH. Qed.

Lemma own_foldl_put (qs acc r : list (string * JSValue)) (k : string) :
  foldl (fun acc kv => a ← acc; t ← HbRequest.as_text kv.2; Normal (HbRequest.put a kv.1 t))
    (Normal acc) qs = Normal r →
  own r k = if String.eqb k "__proto__" then own acc k
            else match last_entry qs k with
                 | Some v => text_of v
                 | None => own acc k
                 end.
Proof.
  revert acc. induction qs as [|[k0 v0] qs IH]; intros acc Hfold.
  - injection Hfold as <-. cbn [last_entry]. by destruct (String.eqb k "__proto__").
  - cbn [foldl] in Hfold.
    change (Normal acc ≫= _)
      with (t ← HbRequest.as_text v0; Normal (HbRequest.put acc k0 t)) in Hfold.
    destruct (HbRequest.as_text v0) as [t|e] eqn:Ht.
    2: { change (Throw e ≫= _) with (@Throw (list (string * JSValue)) e) in Hfold.
         by rewrite foldl_put_throw in Hfold. }
    change (Normal t ≫= _) with (Normal (HbRequest.put acc k0 t)) in Hfold.
    rewrite (IH _ Hfold). cbn [last_entry].
    destruct (String.eqb k "__proto__") eqn:Hp.
    + apply String.eqb_eq in Hp as ->. unfold HbRequest.put.
      destruct (String.eqb k0 "__proto__") eqn:E0; [done|].
      rewrite own_define_own. by rewrite E0.
    + destruct (last_entry qs k); [done|]. unfold HbRequest.put.
      destruct (String.eqb k0 "__proto__") eqn:E0.
      * apply String.eqb_eq in E0 as ->. rewrite String.eqb_sym, Hp. done.
      * rewrite own_define_own. destruct (String.eqb k0 k); [|done].
        unfold text_of. by rewrite Ht.
Qed.

Lemma own_params2 (ps r : list (string * JSValue)) (k : string) :
  NoDup ps.*1 → HbRequest.params2 ps = Normal r →
  own r k = if String.eqb k "__proto__" then None
            else match own ps k with
                 | Some v => if truthy v then text_of v else None
                 | None => None
                 end.
Proof.
  intros Hnd Hr. unfold HbRequest.params2 in Hr. rewrite (own_foldl_put _ _ _ k Hr).
  destruct (String.eqb k "__proto__"); [done|].
  rewrite last_entry_own by (by apply keys_filter).
  rewrite (own_filter truthy) by done.
  destruct (own ps k) as [v|]; [|done]. by destruct (truthy v).
Qed.

Lemma append_not_empty (s t : string) : t ≠ "" → s +:+ t ≠ "".
Proof. destruct s; [done|]. done. Qed.

Lemma pretty_not_empty (z : Z) : pretty z ≠ "".
Proof. destruct (pretty_head z) as (c & r & -> & _). done. Qed.

Lemma Number_toString_not_empty (n : JSNumber) : Number_toString n ≠ "".
Proof.
  unfold Number_toString. destruct (mant (lowest_terms n) =? 0); [done|].
  apply append_not_empty.
  repeat match goal with |- context [if ?b then _ else _] => destruct b end.
  - intros H. destruct (pretty (Z.abs (mant (lowest_terms n)))) eqn:E;
      [by apply pretty_not_empty in E|done].
  - apply append_not_empty. done.
  - done.
  - intros H. destruct (pretty (Z.abs (mant (lowest_terms n)))) eqn:E;
      [by apply pretty_not_empty in E|done].
  - intros H. destruct (pretty (Z.abs (mant (lowest_terms n)))) eqn:E;
      [by apply pretty_not_empty in E|done].
  - apply append_not_empty. done.
  - apply append_not_empty. done.
Qed.

Lemma as_text_not_empty (v t : JSValue) :
  truthy v = true → HbRequest.as_text v = Normal t → ∃ s, t = JStr s ∧ s ≠ "".
Proof.
  intros Htruthy. destruct v as [| |b|n|s|z|es|ps|k]; try done.
  - destruct b; [|done]. intros [= <-]. by eexists.
  - intros [= <-]. eexists. split; [done|apply Number_toString_not_empty].
  - intros [= <-]. exists s. split; [done|]. simpl in Htruthy.
    intros ->. done.
  - intros [= <-]. eexists. split; [done|apply pretty_not_empty].
  - unfold HbRequest.as_text. rewrite JSON_stringify_array.
    destruct (element_texts es); [|done]. intros [= <-]. by eexists.
  - unfold HbRequest.as_text. rewrite JSON_stringify_object.
    destruct (member_texts ps); [|done]. intros [= <-]. by eexists.
Qed.

(** X17.  Every field of the request that [requestHB] hands to [ao.request] is
    a non-empty string; a tag given with the empty string as its value is left
    out of the request. *)
Theorem only_non_empty_texts_are_sent (processId : string)
    (tags : list (string * JSValue)) (data : option JSValue)
    (r : list (string * JSValue)) :
  HbRequest.request processId tags data = Normal r →
  (∀ k v, own r k = Some v → ∃ s, v = JStr s ∧ s ≠ "")
  ∧ (∀ k, k ≠ "target" → k ≠ "variant" → k ≠ "data-protocol" → k ≠ "data" →
          last_entry tags k = Some (JStr "") → own r k = None).
Proof.
  intros Hr. unfold HbRequest.request in Hr.
  pose proof (fun k => own_params2 _ _ k (keys_params processId tags data) Hr) as Hown.
  split.
  - intros k v. rewrite Hown. destruct (String.eqb k "__proto__"); [done|].
    destruct (own (HbRequest.params processId tags data) k) as [v0|]; [|done].
    destruct (truthy v0) eqn:Htruthy; [|done]. unfold text_of.
    destruct (HbRequest.as_text v0) as [t|] eqn:Ht; [|done]. intros [= <-].
    by apply (as_text_not_empty v0).
  - intros k H1 H2 H3 H4 Hlast. rewrite Hown, own_params.
    apply String.eqb_neq in H1, H2, H3, H4. rewrite H1, H2, H3, H4, Hlast.
    by destruct (String.eqb k "__proto__").
Qed.

Lemma only_non_empty_texts_are_sent_witness :
  (∀ k v,
     own [("type", JStr "Message");
          ("path", JStr "/pool~process@1.0/push/serialize~json@1.0");
          ("method", JStr "POST"); ("Action", JStr "Get-Pending-Task");
          ("data-protocol", JStr "ao"); ("variant", JStr "ao.N.1");
          ("target", JStr "pool")] k = Some v → ∃ s, v = JStr s ∧ s ≠ "")
  ∧ (∀ k, k ≠ "target" → k ≠ "variant" → k ≠ "data-protocol" → k ≠ "data" →
          last_entry [("Action", JStr "Get-Pending-Task"); ("Nodeid", JStr "")] k
          = Some (JStr "") →
          own [("type", JStr "Message");
               ("path", JStr "/pool~process@1.0/push/serialize~json@1.0");
               ("method", JStr "POST"); ("Action", JStr "Get-Pending-Task");
               ("data-protocol", JStr "ao"); ("variant", JStr "ao.N.1");
               ("target", JStr "pool")] k = None).
Proof.
  apply (only_non_empty_texts_are_sent "pool"
           [("Action", JStr "Get-Pending-Task"); ("Nodeid", JStr "")] None).
  reflexivity.
Defined.

(** X18.  Of the fixed fields of the request of [requestHB], [target],
    [variant] and [data-protocol] cannot be changed by the tags: they are
    written after the spread. [type], [path] and [method] are written before
    it, and a tag of that name (a non-empty string) takes their place. *)
Theorem tags_replace_type_path_and_method_only (processId : string)
    (tags : list (string * JSValue)) (data : option JSValue)
    (r : list (string * JSValue)) :
  HbRequest.request processId tags data = Normal r → processId ≠ "" →
  own r "target" = Some (JStr processId)
  ∧ own r "variant" = Some (JStr "ao.N.1")
  ∧ own r "data-protocol" = Some (JStr "ao")
  ∧ (∀ k s, k = "type" ∨ k = "path" ∨ k = "method" →
            last_entry tags k = Some (JStr s) → s ≠ "" → own r k = Some (JStr s)).
Proof.
  intros Hr Hp. unfold HbRequest.request in Hr.
  pose proof (fun k => own_params2 _ _ k (keys_params processId tags data) Hr) as Hown.
  assert (negb (String.eqb processId "") = true) as Hp'.
  { apply String.eqb_neq in Hp. by rewrite Hp. }
  split; [|split; [|split]].
  - rewrite Hown, own_params. cbn. by rewrite Hp'.
  - by rewrite Hown, own_params.
  - by rewrite Hown, own_params.
  - intros k s Hk Hlast Hs. rewrite Hown, own_params, Hlast.
    assert (negb (String.eqb s "") = true) as Hs'.
    { apply String.eqb_neq in Hs. by rewrite Hs. }
    destruct Hk as [->|[->| ->]]; cbn; by rewrite Hs'.
Qed.

Lemma tags_replace_type_path_and_method_only_witness :
  own [("type", JStr "Message");
       ("path", JStr "/pool~process@1.0/push/serialize~json@1.0");
       ("method", JStr "GET"); ("target", JStr "pool");
       ("data-protocol", JStr "ao"); ("variant", JStr "ao.N.1")] "target"
  = Some (JStr "pool")
  ∧ own [("type", JStr "Message");
         ("path", JStr "/pool~process@1.0/push/serialize~json@1.0");
         ("method", JStr "GET"); ("target", JStr "pool");
         ("data-protocol", JStr "ao"); ("variant", JStr "ao.N.1")] "method"
    = Some (JStr "GET").
Proof.
  destruct (tags_replace_type_path_and_method_only "pool"
              [("method", JStr "GET"); ("target", JStr "elsewhere")] None
              [("type", JStr "Message");
               ("path", JStr "/pool~process@1.0/push/serialize~json@1.0");
               ("method", JStr "GET"); ("target", JStr "pool");
               ("data-protocol", JStr "ao"); ("variant", JStr "ao.N.1")]
              eq_refl ltac:(discriminate)) as (Ht & _ & _ & Hm).
  split; [exact Ht|]. apply (Hm "method" "GET"); [by right; right|reflexivity|discriminate].
Defined.

Lemma plain_text (v : JSValue) :
  plain v = true →
  ∃ s, JSON_stringify v = Normal (Some s) ∧ JSON_parse_text s = Normal v
       ∧ truthy (JStr s) = true.
Proof.
  intros Hp. destruct (plain_reads_back v Hp) as (s & Hs & Hstart & Hread).
  exists s. split; [done|]. split.
  - unfold JSON_parse_text.
    rewrite <- (append_nil_r s) at 2. rewrite Hread by (done || lia). done.
  - by destruct s.
Qed.

Lemma resolved_text (body : string) (resBody : JSValue) :
  JSON_parse_text body = Normal resBody → truthy (JStr body) = true →
  HbResponse.resolved (JStr body)
  = (output ← HbResponse.output_of resBody; HbResponse.decoded output).
Proof.
  intros Hparse Htruthy. unfold HbResponse.resolved, HbResponse.parsed.
  rewrite Htruthy. unfold JSON_parse. cbn [String_ mbind Completion_bind].
  by rewrite Hparse.
Qed.




(** X20.  When the envelope of the response carries a non-empty [error] (the
    [hyper-aos] envelope at its top, the other one under [json]), [requestHB]
    is rejected with an [Error] of that message, whatever output comes with
    it. *)
Theorem requestHB_rejects_with_the_error_of_the_envelope (msg : string) (o : JSValue) :
  msg ≠ "" → plain o = true →
  ∃ b1 b2,
    JSON_stringify (hyper_aos [("error", JStr msg); ("output", o)]) = Normal (Some b1)
    ∧ JSON_stringify (json_of [("error", JStr msg); ("body", o)]) = Normal (Some b2)
    ∧ HbResponse.resolved (JStr b1) = Throw (MkError GenericError msg)
    ∧ HbResponse.resolved (JStr b2) = Throw (MkError GenericError msg).
Proof.
  intros Hmsg Hp.
  assert (truthy (JStr msg) = true) as Ht.
  { cbn [truthy]. apply String.eqb_neq in Hmsg. by rewrite Hmsg. }
  destruct (plain_text (hyper_aos [("error", JStr msg); ("output", o)]))
    as (b1 & Hb1 & Hp1 & Hn1).
  { cbn. by rewrite Hp. }
  destruct (plain_text (json_of [("error", JStr msg); ("body", o)]))
    as (b2 & Hb2 & Hp2 & Hn2).
  { cbn. by rewrite Hp. }
  exists b1, b2. repeat split; try done.
  - rewrite (resolved_text _ _ Hp1 Hn1). unfold HbResponse.output_of.
    cbn [hyper_aos HbResponse.opt_get get own String.eqb Ascii.eqb Bool.eqb default
         mbind Completion_bind from_option id].
    by rewrite Ht.
  - rewrite (resolved_text _ _ Hp2 Hn2). unfold HbResponse.output_of.
    cbn [json_of HbResponse.opt_get get own String.eqb Ascii.eqb Bool.eqb default
         mbind Completion_bind from_option id].
    by rewrite Ht.
Qed.

Lemma requestHB_rejects_with_the_error_of_the_envelope_witness :
  ∃ b1 b2,
    JSON_stringify (hyper_aos [("error", JStr "no such process"); ("output", JNull)])
    = Normal (Some b1)
    ∧ JSON_stringify (json_of [("error", JStr "no such process"); ("body", JNull)])
      = Normal (Some b2)
    ∧ HbResponse.resolved (JStr b1) = Throw (MkError GenericError "no such process")
    ∧ HbResponse.resolved (JStr b2) = Throw (MkError GenericError "no such process").
Proof.
  apply (requestHB_rejects_with_the_error_of_the_envelope "no such process" JNull);
    [discriminate|reflexivity].
Defined.

(** X21.  An output that is a non-empty text which [JSON.parse] refuses is
    what [requestHB] resolves to, unchanged, from either envelope. *)
Theorem requestHB_keeps_an_output_that_is_not_JSON (t : string) (e : JSError) :
  t ≠ "" → JSON_parse_text t = Throw e →
  ∃ b1 b2,
    JSON_stringify (hyper_aos [("output", JStr t)]) = Normal (Some b1)
    ∧ JSON_stringify (json_of [("body", JStr t)]) = Normal (Some b2)
    ∧ HbResponse.resolved (JStr b1) = Normal (JStr t)
    ∧ HbResponse.resolved (JStr b2) = Normal (JStr t).
Proof.
  intros Ht Hparse.
  assert (truthy (JStr t) = true) as Htr.
  { cbn [truthy]. apply String.eqb_neq in Ht. by rewrite Ht. }
  assert (HbResponse.decoded (JStr t) = Normal (JStr t)) as Hd.
  { unfold HbResponse.decoded. rewrite Htr. unfold JSON_parse.
    cbn [String_ mbind Completion_bind]. by rewrite Hparse. }
  destruct (plain_text (hyper_aos [("output", JStr t)])) as (b1 & Hb1 & Hp1 & Hn1);
    [done|].
  destruct (plain_text (json_of [("body", JStr t)])) as (b2 & Hb2 & Hp2 & Hn2);
    [done|].
  exists b1, b2. repeat split; try done.
  - by rewrite (resolved_text _ _ Hp1 Hn1).
  - by rewrite (resolved_text _ _ Hp2 Hn2).
Qed.

Lemma requestHB_keeps_an_output_that_is_not_JSON_witness :
  ∃ b1 b2,
    JSON_stringify (hyper_aos [("output", JStr "queued")]) = Normal (Some b1)
    ∧ JSON_stringify (json_of [("body", JStr "queued")]) = Normal (Some b2)
    ∧ HbResponse.resolved (JStr b1) = Normal (JStr "queued")
    ∧ HbResponse.resolved (JStr b2) = Normal (JStr "queued").
Proof.
  eapply (requestHB_keeps_an_output_that_is_not_JSON "queued"); [discriminate|reflexivity].
Defined.

Lemma elem_own {A} (ps : list (string * A)) (k : string) (v : A) :
  NoDup ps.*1 → (k, v) ∈ ps → own ps k = Some v.
Proof.
  induction ps as [|[k0 v0] ps IH]; [by intros _ ?%elem_of_nil|].
  cbn [fmap list_fmap fst]. intros Hnd Hin. apply NoDup_cons in Hnd as [Hk0 Hnd].
  cbn [own]. apply elem_of_cons in Hin as [[= -> ->]|Hin].
  - by rewrite String.eqb_refl.
  - destruct (String.eqb k0 k) eqn:E; [|by apply IH].
    apply String.eqb_eq in E as ->. destruct Hk0.
    apply list_elem_of_fmap. by exists (k, v).
Qed.

Lemma params2_returns (ps : list (string * JSValue)) :
  (∀ kv, kv ∈ ps → truthy kv.2 = true → ∃ t, HbRequest.as_text kv.2 = Normal t) →
  ∃ r, HbRequest.params2 ps = Normal r.
Proof.
  unfold HbRequest.params2. generalize (@nil (string * JSValue)).
  induction ps as [|kv ps IH]; intros acc Hall; [by exists acc|].
  cbn [List.filter]. destruct (truthy kv.2) eqn:Htruthy.
  - destruct (Hall kv) as [t Ht]; [by left|done|]. cbn [foldl].
    change (Normal acc ≫= _)
      with (t ← HbRequest.as_text kv.2; Normal (HbRequest.put acc kv.1 t)).
    rewrite Ht. change (Normal t ≫= _) with (Normal (HbRequest.put acc kv.1 t)).
    apply IH. intros kv' Hin. apply Hall. by right.
  - apply IH. intros kv' Hin. apply Hall. by right.
Qed.

Lemma request_returns (processId : string) (tags : list (string * JSValue))
    (data : option JSValue) :
  (∀ k v, last_entry tags k = Some v → truthy v = true →
          ∃ t, HbRequest.as_text v = Normal t) →
  (∀ d, data = Some d → truthy d = true → ∃ t, HbRequest.as_text d = Normal t) →
  ∃ r, HbRequest.request processId tags data = Normal r.
Proof.
  intros Htags Hdata. apply params2_returns. intros [k v] Hin Htruthy.
  apply (elem_own _ _ _ (keys_params processId tags data)) in Hin.
  rewrite own_params in Hin. cbn [snd] in *.
  destruct (String.eqb k "target"); [injection Hin as <-; by eexists|].
  destruct (String.eqb k "variant"); [injection Hin as <-; by eexists|].
  destruct (String.eqb k "data-protocol"); [injection Hin as <-; by eexists|].
  destruct (String.eqb k "data").
  { injection Hin as <-. destruct data as [d|]; [|done]. cbn [HbRequest.data_or_empty] in *.
    destruct (truthy d) eqn:Hd; [by apply Hdata|done]. }
  destruct (last_entry tags k) as [v'|] eqn:Hlast.
  { injection Hin as <-. by apply (Htags k). }
  destruct (String.eqb k "method"); [injection Hin as <-; by eexists|].
  destruct (String.eqb k "path"); [injection Hin as <-; by eexists|].
  destruct (String.eqb k "type"); [injection Hin as <-; by eexists|done].
Qed.

Lemma PoolProcess_not_empty (cfg : Config) :
  truthy (JStr (Request.PoolProcess cfg)) = true.
Proof.
  unfold Request.PoolProcess. cbn [truthy].
  destruct (String.eqb (POOL_PROCESS_ID cfg) "") eqn:E; [done|]. by rewrite E.
Qed.

Lemma truthy_text (s : string) : s ≠ "" → truthy (JStr s) = true.
Proof. intros H. cbn [truthy]. apply String.eqb_neq in H. by rewrite H. Qed.

(** X22.  What [sendTaskResponse] puts on the wire: the request that
    [requestHB] builds from its call has the pool as [target], the action
    [Task-Response], the id of the node and the reference of the task, and a
    [data] field that is a JSON text from which the object with the one member
    [output] is read back. *)
Theorem submission_carries_the_output_as_JSON (cfg : Config) (ref : string)
    (output : JSValue) :
  plain output = true → ref ≠ "" → NODE_ID cfg ≠ "" →
  ∃ r text,
    wire (submit_call cfg (JStr ref) output) = Normal r
    ∧ own r "target" = Some (JStr (Request.PoolProcess cfg))
    ∧ own r "Action" = Some (JStr "Task-Response")
    ∧ own r "X-Oracle-Node-Id" = Some (JStr (NODE_ID cfg))
    ∧ own r "X-Reference" = Some (JStr ref)
    ∧ own r "data" = Some (JStr text)
    ∧ JSON_parse_text text = Normal (JObj [("output", output)]).
Proof.
  intros Hp Href Hnode. apply truthy_text in Href, Hnode.
  destruct (plain_text (JObj [("output", output)])) as (text & Htext & Hparse & _).
  { cbn. by rewrite Hp. }
  unfold wire, submit_call.
  destruct (request_returns (Request.PoolProcess cfg)
              [("Action", JStr "Task-Response"); ("X-Oracle-Node-Id", JStr (NODE_ID cfg));
               ("X-Reference", JStr ref)]
              (Some (JObj [("output", output)]))) as [r Hr].
  { intros k v. cbn [last_entry].
    repeat (match goal with |- context [String.eqb ?a k] => destruct (String.eqb a k) end;
            [intros [= <-] _; by eexists|]). done. }
  { intros d [= <-] _. cbn [HbRequest.as_text]. rewrite Htext. by eexists. }
  exists r, text. split; [done|].
  pose proof (fun k => own_params2 _ _ k (keys_params _ _ _) Hr) as Hown.
  repeat split; try done; rewrite Hown, own_params;
    cbn [String.eqb Ascii.eqb Bool.eqb last_entry HbRequest.data_or_empty];
    rewrite ?PoolProcess_not_empty, ?Hnode, ?Href; try done.
  unfold text_of. cbn [truthy HbRequest.as_text]. by rewrite Htext.
Qed.

Lemma submission_carries_the_output_as_JSON_witness :
  ∃ r text,
    wire (submit_call cfg1 (JStr "t1") (JStr "hello")) = Normal r
    ∧ own r "target" = Some (JStr (Request.PoolProcess cfg1))
    ∧ own r "Action" = Some (JStr "Task-Response")
    ∧ own r "X-Oracle-Node-Id" = Some (JStr (NODE_ID cfg1))
    ∧ own r "X-Reference" = Some (JStr "t1")
    ∧ own r "data" = Some (JStr text)
    ∧ JSON_parse_text text = Normal (JObj [("output", JStr "hello")]).
Proof.
  apply (submission_carries_the_output_as_JSON cfg1 "t1" (JStr "hello"));
    [reflexivity|discriminate|discriminate].
Defined.

Lemma NODE_ID_not_empty (env : option string) (hostname : string)
    (randomBytes : list Byte.byte) :
  NodeId.NODE_ID env hostname randomBytes ≠ "".
Proof.
  unfold NodeId.NODE_ID.
  destruct (String.eqb (default "" env) "") eqn:E; [|by apply String.eqb_neq].
  unfold NodeId.generateNodeId. apply append_not_empty. discriminate.
Qed.

(** X23.  What [receiveTask] puts on the wire for the node id of the start
    ([process.env.NODE_ID], or a generated one when that is empty): the id is
    never empty, so the request always has its [Nodeid] field, with the pool
    as [target] and the action [Get-Pending-Task]; it has no [data] field, the
    empty default being filtered out. *)
Theorem fetch_names_the_node_and_sends_no_data (cfg : Config) (env : option string)
    (hostname : string) (randomBytes : list Byte.byte) :
  NODE_ID cfg = NodeId.NODE_ID env hostname randomBytes →
  ∃ r,
    wire (fetch_call cfg) = Normal r
    ∧ own r "target" = Some (JStr (Request.PoolProcess cfg))
    ∧ own r "Action" = Some (JStr "Get-Pending-Task")
    ∧ own r "Nodeid" = Some (JStr (NODE_ID cfg))
    ∧ own r "data" = None.
Proof.
  intros Hid.
  assert (truthy (JStr (NODE_ID cfg)) = true) as Hnode.
  { apply truthy_text. rewrite Hid. apply NODE_ID_not_empty. }
  unfold wire, fetch_call.
  destruct (request_returns (Request.PoolProcess cfg)
              [("Action", JStr "Get-Pending-Task"); ("Nodeid", JStr (NODE_ID cfg))] None)
    as [r Hr].
  { intros k v. cbn [last_entry].
    repeat (match goal with |- context [String.eqb ?a k] => destruct (String.eqb a k) end;
            [intros [= <-] _; by eexists|]). done. }
  { done. }
  exists r. split; [done|].
  pose proof (fun k => own_params2 _ _ k (keys_params _ _ _) Hr) as Hown.
  repeat split; rewrite Hown, own_params;
    cbn [String.eqb Ascii.eqb Bool.eqb last_entry HbRequest.data_or_empty];
    rewrite ?PoolProcess_not_empty, ?Hnode; done.
Qed.

Lemma fetch_names_the_node_and_sends_no_data_witness :
  ∃ r,
    wire (fetch_call cfg1) = Normal r
    ∧ own r "target" = Some (JStr (Request.PoolProcess cfg1))
    ∧ own r "Action" = Some (JStr "Get-Pending-Task")
    ∧ own r "Nodeid" = Some (JStr (NODE_ID cfg1))
    ∧ own r "data" = None.
Proof.
  apply (fetch_names_the_node_and_sends_no_data cfg1 (Some "node-1") "host" []).
  reflexivity.
Defined.

(* ===================================================================== *)
(** ** The node id and the [.env] file *)
(* ===================================================================== *)

Lemma hex_val_hex_digit (n : N) : (n < 16)%N → hex_val (hex_digit n) = Some n.
Proof.
  intros Hn. rewrite <- (N2Nat.id n).
  assert (N.to_nat n < 16)%nat as Hk by lia. revert Hk. generalize (N.to_nat n).
  intros k Hk. do 16 (destruct k as [|k]; [done|]). lia.
Qed.

Lemma length_hex (bytes : list Byte.byte) :
  String.length (NodeId.hex bytes) = (2 * List.length bytes)%nat.
Proof.
  induction bytes as [|b bytes IH]; [done|].
  cbn [NodeId.hex String.length List.length]. rewrite IH. lia.
Qed.

Lemma hex_inj (r1 r2 : list Byte.byte) : NodeId.hex r1 = NodeId.hex r2 → r1 = r2.
Proof.
  revert r2. induction r1 as [|b1 r1 IH]; intros [|b2 r2]; try done.
  cbn [NodeId.hex]. intros [= H1 H2 Hrest]. f_equal; [|by apply IH].
  pose proof (Byte.to_N_bounded b1) as Hb1. pose proof (Byte.to_N_bounded b2) as Hb2.
  assert (Byte.to_N b1 = Byte.to_N b2) as Hto.
  2: { pose proof (Byte.of_to_N b1) as Hof. rewrite Hto, Byte.of_to_N in Hof.
       by injection Hof. }
  revert H1 H2 Hb1 Hb2.
  generalize (Byte.to_N b1) (Byte.to_N b2). intros n1 n2 H1 H2 Hb1 Hb2.
  pose proof (N.div_mod n1 16 ltac:(done)) as E1.
  pose proof (N.div_mod n2 16 ltac:(done)) as E2.
  pose proof (N.mod_lt n1 16 ltac:(done)) as M1.
  pose proof (N.mod_lt n2 16 ltac:(done)) as M2.
  assert (n1 / 16 < 16)%N as D1 by (apply N.Div0.div_lt_upper_bound; lia).
  assert (n2 / 16 < 16)%N as D2 by (apply N.Div0.div_lt_upper_bound; lia).
  apply (f_equal hex_val) in H1, H2. rewrite !hex_val_hex_digit in H1, H2 by done.
  injection H1 as H1. injection H2 as H2. rewrite E1, E2, H1, H2. done.
Qed.

Lemma append_inj_length (a b c d : string) :
  a +:+ b = c +:+ d → String.length b = String.length d → a = c ∧ b = d.
Proof.
  revert c. induction a as [|x a IH]; intros [|y c] H Hlen.
  - done.
  - change (b = String y (c +:+ d)) in H. subst b.
    cbn [String.length] in Hlen. rewrite length_append in Hlen. lia.
  - change (String x (a +:+ b) = d) in H. subst d.
    cbn [String.length] in Hlen. rewrite length_append in Hlen. lia.
  - change (String x (a +:+ b) = String y (c +:+ d)) in H. injection H as -> H.
    destruct (IH c H Hlen) as [-> ->]. done.
Qed.

(** X24.  [generateNodeId] loses nothing: two generated ids (from random parts
    of the same size) are equal only when the host names and the random bytes
    are. *)
Theorem generateNodeId_injective (h1 h2 : string) (r1 r2 : list Byte.byte) :
  List.length r1 = List.length r2 →
  NodeId.generateNodeId h1 r1 = NodeId.generateNodeId h2 r2 →
  h1 = h2 ∧ r1 = r2.
Proof.
  intros Hlen Heq. unfold NodeId.generateNodeId in Heq.
  apply append_inj_length in Heq as [-> Heq].
  - split; [done|]. apply hex_inj. by injection Heq.
  - change ("-" +:+ ?x) with (String "-" x). cbn [String.length].
    rewrite !length_hex. lia.
Qed.

Lemma generateNodeId_injective_witness :
  "worker" = "worker" ∧ [Byte.x00; Byte.xff] = [Byte.x00; Byte.xff].
Proof.
  apply (generateNodeId_injective "worker" "worker" [Byte.x00; Byte.xff] [Byte.x00; Byte.xff]);
    reflexivity.
Defined.

Lemma consumed_append (p r : string) : consumed (p +:+ r) r = p.
Proof.
  unfold consumed. rewrite length_append.
  replace (String.length p + String.length r - String.length r)%nat
    with (String.length p) by lia.
  induction p as [|c p IH]; [by destruct r|].
  change (String c p +:+ r) with (String c (p +:+ r)). cbn [String.length substring].
  by rewrite IH.
Qed.

(** After a line that runs up to [eol], a terminator is looked at the same
    way with and without what follows. *)
Lemma line_terminator_within (c : ascii) (line eol post : string) :
  line_end eol post →
  line_terminator (String c line +:+ eol +:+ post) = line_terminator (String c line).
Proof.
  intros Hend.
  change (String c line +:+ eol +:+ post) with (String c (line +:+ eol +:+ post)).
  unfold line_terminator. f_equal.
  destruct line as [|d line].
  - change ("" +:+ eol +:+ post) with (eol +:+ post).
    destruct Hend as [->|[->|[-> ->]]]; destruct c as [[] [] [] [] [] [] [] []]; done.
  - change (String d line +:+ eol +:+ post) with (String d (line +:+ eol +:+ post)).
    destruct line as [|e line].
    + change ("" +:+ eol +:+ post) with (eol +:+ post).
      destruct Hend as [->|[->|[-> ->]]]; destruct c as [[] [] [] [] [] [] [] []];
        try done; destruct d as [[] [] [] [] [] [] [] []]; done.
    + change (String e line +:+ eol +:+ post) with (String e (line +:+ eol +:+ post)).
      destruct c as [[] [] [] [] [] [] [] []]; try done;
        destruct d as [[] [] [] [] [] [] [] []]; done.
Qed.

Lemma ending_at_line_end (eol post : string) (caps : list string) :
  line_end eol post →
  matcher ending (eol +:+ post) caps final = Some (post, caps ++ [eol]).
Proof.
  intros [->|[->|[-> ->]]]; [| |done].
  - change (String lf "" +:+ post) with (String lf post).
    unfold ending. cbn [matcher RepeatMatcher]. cbn [strip_prefix]. 
    change (Ascii.eqb cr lf) with false. cbv iota. cbn [mbind option_bind].
    rewrite Ascii.eqb_refl. cbn [strip_prefix mbind option_bind]. unfold final.
    pose proof (consumed_append (String lf "") post) as Hc.
    change (String lf "" +:+ post) with (String lf post) in Hc. by rewrite Hc.
  - change (crlf +:+ post) with (String cr (String lf post)).
    unfold ending. cbn [matcher RepeatMatcher strip_prefix].
    rewrite !Ascii.eqb_refl. cbn [strip_prefix mbind option_bind String.length].
    assert ((S (String.length post) <? S (S (String.length post)))%nat = true) as ->
      by (apply Nat.ltb_lt; lia).
    rewrite Ascii.eqb_refl. cbn [strip_prefix mbind option_bind]. unfold final.
    pose proof (consumed_append crlf post) as Hc.
    change (crlf +:+ post) with (String cr (String lf post)) in Hc. by rewrite Hc.
Qed.

Lemma ending_within (c : ascii) (rest : string) (caps : list string) :
  line_terminator (String c rest) = false →
  matcher ending (String c rest) caps final = None.
Proof.
  unfold line_terminator. intros H.
  apply orb_false_iff in H as [H _]. apply orb_false_iff in H as [Hlf Hcr].
  unfold ending. cbn [matcher RepeatMatcher strip_prefix].
  rewrite (Ascii.eqb_sym cr), Hcr, (Ascii.eqb_sym lf), Hlf. done.
Qed.

Lemma star_dot_line (line eol post : string) (caps : list string) (n : nat) :
  one_line line = true → line_end eol post →
  (String.length (line +:+ eol +:+ post) ≤ n)%nat →
  RepeatMatcher (matcher Dot) (fun s' caps' => matcher ending s' caps' final) n
    (line +:+ eol +:+ post) caps
  = Some (post, caps ++ [eol]).
Proof.
  intros Hline Hend. revert n. induction line as [|c line IH]; intros n Hn.
  - change ("" +:+ eol +:+ post) with (eol +:+ post) in *.
    destruct n as [|n]; cbn [RepeatMatcher]; [by apply ending_at_line_end|].
    assert (matcher Dot (eol +:+ post) caps
              (fun s' caps' =>
                 if (String.length s' <? String.length (eol +:+ post))%nat
                 then RepeatMatcher (matcher Dot)
                        (fun s'0 caps'0 => matcher ending s'0 caps'0 final) n s' caps'
                 else None) = None) as ->.
    { destruct Hend as [->|[->|[-> ->]]]; done. }
    by apply ending_at_line_end.
  - cbn [one_line] in Hline. apply andb_prop in Hline as [Hc Hline].
    apply negb_true_iff in Hc.
    pose proof (line_terminator_within c line eol post Hend) as Hterm. rewrite Hc in Hterm.
    change (String c line +:+ eol +:+ post) with (String c (line +:+ eol +:+ post)) in *.
    cbn [String.length] in Hn. destruct n as [|n]; [lia|]. cbn [RepeatMatcher matcher].
    rewrite Hterm. cbn [String.length].
    assert ((String.length (line +:+ eol +:+ post)
             <? S (String.length (line +:+ eol +:+ post)))%nat = true) as ->
      by (apply Nat.ltb_lt; lia).
    rewrite IH by (done || lia). done.
Qed.

Lemma strip_prefix_append (w rest : string) : strip_prefix w (w +:+ rest) = Some rest.
Proof.
  induction w as [|c w IH]; [done|].
  change (String c w +:+ rest) with (String c (w +:+ rest)). cbn [strip_prefix].
  by rewrite Ascii.eqb_refl.
Qed.

Lemma strip_prefix_Some (w s r : string) : strip_prefix w s = Some r → s = w +:+ r.
Proof.
  revert s. induction w as [|c w IH]; intros s; [by intros [= ->]|].
  destruct s as [|d s]; [done|]. cbn [strip_prefix].
  destruct (Ascii.eqb c d) eqn:E; [|done]. apply Ascii.eqb_eq in E as ->.
  intros H. apply IH in H as ->. done.
Qed.

Lemma assignment_at (line eol post : string) :
  one_line line = true → line_end eol post →
  matcher NodeId.assignment ("NODE_ID=" +:+ line +:+ eol +:+ post) [] final
  = Some (post, [eol]).
Proof.
  intros Hline Hend. unfold NodeId.assignment. cbn [matcher].
  rewrite strip_prefix_append. cbn [mbind option_bind].
  by apply star_dot_line.
Qed.

Lemma assignment_elsewhere (s : string) :
  strip_prefix "NODE_ID=" s = None → matcher NodeId.assignment s [] final = None.
Proof. intros H. unfold NodeId.assignment. cbn [matcher]. by rewrite H. Qed.

Lemma strip_prefix_longer (w x t : string) :
  (String.length w ≤ String.length x)%nat →
  strip_prefix w x = None → strip_prefix w (x +:+ t) = None.
Proof.
  revert x. induction w as [|c w IH]; intros x Hlen; [done|].
  destruct x as [|d x]; [cbn in Hlen; lia|].
  change (String d x +:+ t) with (String d (x +:+ t)). cbn [strip_prefix].
  destruct (Ascii.eqb c d); [|done]. apply IH. cbn [String.length] in Hlen. lia.
Qed.

Lemma includes_cons (c : ascii) (s w : string) :
  includes (String c s) w = false →
  strip_prefix w (String c s) = None ∧ includes s w = false.
Proof. cbn [includes]. by destruct (strip_prefix w (String c s)). Qed.

Lemma exec_from_first (pre0 pre line eol post : string) :
  includes (pre +:+ "NODE_ID") "NODE_ID=" = false →
  one_line line = true → line_end eol post →
  exec_from NodeId.assignment pre0 (pre +:+ "NODE_ID=" +:+ line +:+ eol +:+ post)
  = Some (MkMatch (pre0 +:+ pre) ("NODE_ID=" +:+ line +:+ eol) [eol] post).
Proof.
  intros Hpre Hline Hend. revert pre0. induction pre as [|c pre IH]; intros pre0.
  - change ("" +:+ ?x) with x.
    assert (∀ s, exec_from NodeId.assignment pre0 s
                 = match matcher NodeId.assignment s [] final with
                   | Some (s', caps) => Some (MkMatch pre0 (consumed s s') caps s')
                   | None => match s with
                             | String c rest =>
                                 exec_from NodeId.assignment (pre0 +:+ String c "") rest
                             | EmptyString => None
                             end
                   end) as -> by (by intros []).
    rewrite assignment_at by done. rewrite append_nil_r.
    replace ("NODE_ID=" +:+ line +:+ eol +:+ post)
      with (("NODE_ID=" +:+ line +:+ eol) +:+ post) by (by rewrite !append_assoc).
    by rewrite consumed_append.
  - change (String c pre +:+ ?x) with (String c (pre +:+ x)) in *.
    apply includes_cons in Hpre as [Hhere Hrest].
    cbn [exec_from]. fold final.
    rewrite assignment_elsewhere.
    + rewrite IH by done. by rewrite append_assoc.
    + change (String c (pre +:+ "NODE_ID=" +:+ line +:+ eol +:+ post))
        with (String c pre +:+ "NODE_ID=" +:+ line +:+ eol +:+ post).
      change ("NODE_ID=" +:+ line +:+ eol +:+ post)
        with ("NODE_ID" +:+ "=" +:+ line +:+ eol +:+ post).
      rewrite <- append_assoc. apply strip_prefix_longer; [|done].
      change (String c (pre +:+ "NODE_ID")) with (String c pre +:+ "NODE_ID").
      rewrite length_append. cbn. lia.
Qed.

Lemma includes_here (pre w rest : string) : includes (pre +:+ w +:+ rest) w = true.
Proof.
  induction pre as [|c pre IH].
  - change ("" +:+ ?x) with x.
    destruct (w +:+ rest) eqn:E; cbn [includes]; rewrite <- E, strip_prefix_append; done.
  - change (String c pre +:+ ?x) with (String c (pre +:+ x)). cbn [includes].
    rewrite IH. by destruct (strip_prefix _ _).
Qed.

(** A template without [$] before its final [$1] *)
Lemma GetSubstitution_plain (m : Match) (text eol : string) :
  includes text "$" = false → captures m = [eol] →
  GetSubstitution m (text +:+ "$1") = text +:+ eol.
Proof.
  intros Htext Hcaps. induction text as [|c text IH].
  - change ("" +:+ ?x) with x. cbn. rewrite Hcaps. cbn.
    change (digit_val "1") with (Some 1). cbv iota beta.
    change ((1 <=? 1) && (1 <=? Z.of_nat 1)) with true. cbv iota.
    change (Z.to_nat (1 - 1)) with 0%nat. cbn. apply append_nil_r.
  - apply includes_cons in Htext as [Hc Htext].
    change (String c text +:+ ?x) with (String c (text +:+ x)).
    cbn [strip_prefix] in Hc. cbn [GetSubstitution].
    rewrite Ascii.eqb_sym. destruct (Ascii.eqb "$" c); [done|]. cbn [negb].
    by rewrite IH.
Qed.

Lemma replace_assignment (pre old eol post nodeId : string) :
  includes (pre +:+ "NODE_ID") "NODE_ID=" = false →
  one_line old = true → line_end eol post → includes nodeId "$" = false →
  replace (pre +:+ "NODE_ID=" +:+ old +:+ eol +:+ post) NodeId.assignment
    ("NODE_ID=" +:+ nodeId +:+ "$1")
  = pre +:+ "NODE_ID=" +:+ nodeId +:+ eol +:+ post.
Proof.
  intros Hpre Hold Hend Hid. unfold replace, exec.
  rewrite exec_from_first by done. cbn [before after].
  rewrite <- (append_assoc "NODE_ID=" nodeId "$1").
  rewrite (GetSubstitution_plain _ ("NODE_ID=" +:+ nodeId) eol) by done.
  change ("" +:+ pre) with pre. by rewrite !append_assoc.
Qed.

(** X25.  When the [.env] file assigns [NODE_ID], [saveNodeIdToEnv] (with an
    id without [$]) rewrites the value of the first assignment, up to the end
    of its line, and leaves every other character of the file as it is: what
    precedes it (a comment mark included), the line end, what follows. *)
Theorem saveNodeIdToEnv_rewrites_the_first_assignment
    (pre old eol post nodeId : string) :
  includes (pre +:+ "NODE_ID") "NODE_ID=" = false →
  one_line old = true → line_end eol post → includes nodeId "$" = false →
  NodeId.saveNodeIdToEnv (pre +:+ "NODE_ID=" +:+ old +:+ eol +:+ post) nodeId
  = pre +:+ "NODE_ID=" +:+ nodeId +:+ eol +:+ post.
Proof.
  intros Hpre Hold Hend Hid. unfold NodeId.saveNodeIdToEnv.
  rewrite includes_here. by apply replace_assignment.
Qed.

Lemma saveNodeIdToEnv_rewrites_the_first_assignment_witness :
  NodeId.saveNodeIdToEnv
    (("POOL_PROCESS_ID=abc" +:+ String lf "# ") +:+ "NODE_ID=" +:+ "" +:+ String lf ""
       +:+ ("POLL_INTERVAL=5000" +:+ String lf "")) "host-00ff"
  = ("POOL_PROCESS_ID=abc" +:+ String lf "# ") +:+ "NODE_ID=" +:+ "host-00ff"
      +:+ String lf "" +:+ ("POLL_INTERVAL=5000" +:+ String lf "").
Proof.
  apply saveNodeIdToEnv_rewrites_the_first_assignment;
    [reflexivity|reflexivity|left; reflexivity|reflexivity].
Defined.

Lemma includes_endsWith (w r : string) (e : ascii) :
  endsWith w e = true → includes (w +:+ r) (String e "") = true.
Proof.
  induction w as [|a w IH]; [done|]. intros H.
  change (String a w +:+ r) with (String a (w +:+ r)). cbn [includes strip_prefix].
  destruct (Ascii.eqb e a) eqn:E; [done|].
  destruct w as [|b w]; [|by apply IH].
  cbn [endsWith] in H. by rewrite Ascii.eqb_sym, H in E.
Qed.

Lemma strip_prefix_across (w x t : string) (e : ascii) :
  endsWith w e = true → strip_prefix w x = None →
  includes t (String e "") = false → strip_prefix w (x +:+ t) = None.
Proof.
  intros Hw Hx Ht. revert x Hx. induction w as [|a w IH]; intros x Hx; [done|].
  destruct x as [|b x].
  - change ("" +:+ t) with t. destruct (strip_prefix (String a w) t) as [r|] eqn:E; [|done].
    apply strip_prefix_Some in E as ->. by rewrite includes_endsWith in Ht.
  - change (String b x +:+ t) with (String b (x +:+ t)). cbn [strip_prefix] in *.
    destruct (Ascii.eqb a b); [|done].
    destruct w as [|a' w]; [done|]. by apply IH.
Qed.

Lemma includes_cons_false (c : ascii) (s w : string) :
  strip_prefix w (String c s) = None → includes s w = false →
  includes (String c s) w = false.
Proof. intros H1 H2. cbn [includes]. by rewrite H1. Qed.

Lemma strip_prefix_ends (w t : string) (e : ascii) :
  endsWith w e = true → includes t (String e "") = false → strip_prefix w t = None.
Proof.
  intros Hw Ht. apply (strip_prefix_across w "" t e Hw); [by destruct w|done].
Qed.

Lemma includes_ends (w t : string) (e : ascii) :
  endsWith w e = true → includes t (String e "") = false → includes t w = false.
Proof.
  intros Hw Ht. induction t as [|d t IHt].
  - cbn [includes]. by destruct w.
  - pose proof Ht as Ht0. apply includes_cons in Ht as [_ Ht'].
    apply includes_cons_false; [by apply (strip_prefix_ends w _ e)|by apply IHt].
Qed.

Lemma includes_across (c t w : string) (e : ascii) :
  endsWith w e = true → includes c w = false →
  includes t (String e "") = false → includes (c +:+ t) w = false.
Proof.
  intros Hw Hc Ht. induction c as [|a c IH].
  - change ("" +:+ t) with t. by apply (includes_ends w t e).
  - apply includes_cons in Hc as [Hhere Hc].
    change (String a c +:+ t) with (String a (c +:+ t)).
    apply includes_cons_false; [|by apply IH].
    change (String a (c +:+ t)) with (String a c +:+ t).
    by apply (strip_prefix_across w (String a c) t e).
Qed.

(** X26.  Saving twice is saving the second id (the first id being one line,
    the second without [$]): on a file without [NODE_ID=], [saveNodeIdToEnv]
    appends a line, and a second call finds that line and replaces its id,
    giving the file that saving the second id alone gives. *)
Theorem saveNodeIdToEnv_last_write_wins (envContent id1 id2 : string) :
  includes envContent "NODE_ID=" = false →
  one_line id1 = true → includes id2 "$" = false →
  NodeId.saveNodeIdToEnv (NodeId.saveNodeIdToEnv envContent id1) id2
  = NodeId.saveNodeIdToEnv envContent id2.
Proof.
  intros Hc H1 H2. unfold NodeId.saveNodeIdToEnv at 2 3. rewrite Hc.
  set (sep := if endsWith envContent lf then "" else String lf "").
  assert (includes ((envContent +:+ sep) +:+ "NODE_ID") "NODE_ID=" = false) as Hpre.
  { rewrite append_assoc. apply (includes_across _ _ _ "="%char); [done|done|].
    unfold sep. by destruct (endsWith envContent lf). }
  pose proof (replace_assignment (envContent +:+ sep) id1 (String lf "") "" id2
                Hpre H1 (or_introl eq_refl) H2) as Hr.
  rewrite !append_nil_r in Hr.
  unfold NodeId.saveNodeIdToEnv.
  replace (envContent +:+ sep +:+ "NODE_ID=" +:+ id1 +:+ String lf "")
    with ((envContent +:+ sep) +:+ "NODE_ID=" +:+ id1 +:+ String lf "")
    by (by rewrite !append_assoc).
  rewrite includes_here, Hr. by rewrite !append_assoc.
Qed.

Lemma saveNodeIdToEnv_last_write_wins_witness :
  NodeId.saveNodeIdToEnv
    (NodeId.saveNodeIdToEnv ("POOL_PROCESS_ID=abc" +:+ String lf "# NODE_ID") "host-00")
    "host-ff"
  = NodeId.saveNodeIdToEnv ("POOL_PROCESS_ID=abc" +:+ String lf "# NODE_ID") "host-ff".
Proof.
  apply saveNodeIdToEnv_last_write_wins; reflexivity.
Defined.
